(** * Portfolio-Analysis: the financial simulation engine

    A shallow embedding of [src/analytics/performance.py] and of the
    aggregation loop of [src/backend/api/routers/portfolio.py], with the
    properties the specification states about them.

    Numbers.  The Python code computes on binary64 floats.  Every function
    below is written over an arbitrary carrier [num] with the operations the
    code uses: the basic operations ([PyFloat]) and the power ([PyPow]); no
    law of arithmetic is assumed there, so what is proved for every carrier
    holds for the floats of the program too.  Two carriers are given: [ideal],
    the real numbers with one extra element for NaN, for the statements of
    exact arithmetic (a closed figure such as 1.0593, [(1+r)^n]); and
    binary64 itself (Rocq's primitive floats), for what rounding does to such
    figures.  The power of binary64 is the platform's [pow] and is not
    defined here: a statement on binary64 that meets a power is made for
    every [PyPow] on the floats. *)

From Stdlib Require Import List String ZArith Bool Lia Reals Lra.
From Stdlib Require Floats.
Import ListNotations.

Set Implicit Arguments.

(** ** Python values and calls *)

(** The exceptions a call can end with. *)
Inductive exn : Type :=
| KeyError (key : string)
| IndexError
| TypeError
| ZeroDivisionError
| OverflowError.

(** A call returns a value or raises. *)
Inductive result (A : Type) : Type :=
| Ok (a : A)
| Raise (e : exn).
Arguments Ok {A} a.
Arguments Raise {A} e.

(** The basic float operations used by the code. [flt x y] is [x < y];
    [of_int] is the conversion of an int literal. *)
Class PyFloat (num : Type) : Type := {
  of_int : Z -> num;
  fadd : num -> num -> num;
  fsub : num -> num -> num;
  fmul : num -> num -> num;
  fdiv : num -> num -> num;
  fsqrt : num -> num;
  flt : num -> num -> bool;
  fnan : num;
  fisnan : num -> bool;
  fisnan_nan : fisnan fnan = true
}.

(** The power.  [fpow x y] is the value of [x ** y]; it is what numpy's
    [**] gives, which never raises.  Python's own [**] on floats raises
    where numpy's returns an infinity: ZeroDivisionError for 0.0 to a
    negative power, OverflowError for a result out of range;
    [fpow_error x y] is the exception it raises on [x] and [y], if any.
    (Python's [**] turns a negative base with a fractional exponent into a
    complex number; the carrier has no such value, [fpow] is all there is.) *)
Class PyPow (num : Type) : Type := {
  fpow : num -> num -> num;
  fpow_error : num -> num -> option exn
}.

Declare Scope py_scope.
Delimit Scope py_scope with py.
Infix "+" := fadd : py_scope.
Infix "-" := fsub : py_scope.
Infix "*" := fmul : py_scope.
Infix "/" := fdiv : py_scope.
Infix "**" := fpow (at level 30, right associativity) : py_scope.
Infix "<?" := flt : py_scope.
Notation "0" := (of_int 0%Z) : py_scope.
Notation "1" := (of_int 1%Z) : py_scope.

Definition bind {A B : Type} (r : result A) (k : A -> result B) : result B :=
  match r with
  | Ok a => k a
  | Raise e => Raise e
  end.

Notation "x <- c ;; k" := (bind c (fun x => k))
  (at level 61, c at next level, right associativity).

Fixpoint mapM {A B : Type} (f : A -> result B) (l : list A) : result (list B) :=
  match l with
  | [] => Ok []
  | a :: tl => b <- f a ;; bs <- mapM f tl ;; Ok (b :: bs)
  end.

Fixpoint foldM {A S : Type} (f : S -> A -> result S) (l : list A) (s : S)
  : result S :=
  match l with
  | [] => Ok s
  | a :: tl => s' <- f s a ;; foldM f tl s'
  end.

(** Python's [x ** y] on two floats. *)
Definition py_pow {num : Type} {P : PyPow num} (x y : num) : result num :=
  match fpow_error x y with
  | Some e => Raise e
  | None => Ok (fpow x y)
  end.

(** ** Dictionaries

    A Python dict keeps its keys in insertion order and the code iterates
    over [items()], so a dict is an association list. *)
Definition dict (V : Type) : Type := list (string * V).

Fixpoint dict_get {V : Type} (k : string) (d : dict V) : option V :=
  match d with
  | [] => None
  | (k', v) :: tl => if String.eqb k k' then Some v else dict_get k tl
  end.

(** [d.get(k, default)] *)
Definition dict_get_default {V : Type} (k : string) (default : V) (d : dict V) : V :=
  match dict_get k d with
  | Some v => v
  | None => default
  end.

(** [d[k]] *)
Definition dict_item {V : Type} (k : string) (d : dict V) : result V :=
  match dict_get k d with
  | Some v => Ok v
  | None => Raise (KeyError k)
  end.

(** [d[k] = v]: an existing key keeps its place, a new key goes last. *)
Fixpoint dict_set {V : Type} (k : string) (v : V) (d : dict V) : dict V :=
  match d with
  | [] => [(k, v)]
  | (k', v') :: tl =>
      if String.eqb k k' then (k, v) :: tl else (k', v') :: dict_set k v tl
  end.

Definition dict_keys {V : Type} (d : dict V) : list string := map fst d.
Definition dict_values {V : Type} (d : dict V) : list V := map snd d.

(** [range(lo, hi)] *)
Definition range (lo hi : Z) : list Z :=
  map (fun i => (lo + Z.of_nat i)%Z) (seq 0 (Z.to_nat (hi - lo))).

(** [l[i] = v] for [i] in range *)
Fixpoint list_set {A : Type} (i : nat) (v : A) (l : list A) : list A :=
  match l, i with
  | [], _ => []
  | _ :: tl, O => v :: tl
  | a :: tl, S j => a :: list_set j v tl
  end.

(** ** analytics/performance.py *)

Module Performance.
Section WithFloat.
Context {num : Type} {F : PyFloat num} {P : PyPow num}.
Local Open Scope py_scope.

(** Python's [sum] of floats: from the int 0, left to right. *)
Definition py_sum (xs : list num) : num := fold_left fadd xs 0.

(** *** project_portfolio_with_taxes *)

(** One entry of ['yearly_projections']. *)
Record YearlyProjection : Type := {
  yp_year : Z;
  yp_starting_value : num;
  yp_cash_flow : num;
  yp_after_cash_flow : num;
  yp_growth : num;
  yp_taxes : num;
  yp_fees : num;
  yp_ending_value : num;
  yp_annual_return : num;
  yp_deferred_tax_liability : num
}.

(** The dict the function returns. *)
Record Projection : Type := {
  weighted_annual_return : num;
  final_portfolio_value : num;
  total_fees : num;
  total_taxes : num;
  total_cash_flows : num;
  deferred_tax_liability : num;
  account_type : string;
  yearly_projections : list YearlyProjection
}.

(** The local variables that live across iterations of the loop. *)
Record Locals : Type := {
  l_portfolio_value : num;
  l_total_fees : num;
  l_total_taxes : num;
  l_total_cash_flows : num;
  l_total_contributions : num;
  l_deferred_tax_liability : num;
  l_yearly_projections : list YearlyProjection
}.

(** [sum(allocation.get(c, 0) * g for c, g in growth_rates.items())] *)
Definition blended_return (asset_class_allocation growth_rates : dict num) : num :=
  py_sum (map (fun cg => dict_get_default (fst cg) 0 asset_class_allocation * snd cg)
              growth_rates).

Section Loop.
Variables (weighted_annual_return_ total_fee_rate annual_cash_flow tax_rate : num).
Variables (is_taxable is_tax_deferred : bool).

(** The body of [for year in range(1, years + 1)]. *)
Definition loop_body (s : Locals) (year : Z) : Locals :=
  let starting_value := l_portfolio_value s in
  let after_cash_flow := starting_value + annual_cash_flow in
  let total_cash_flows := l_total_cash_flows s + annual_cash_flow in
  let total_contributions :=
    if is_tax_deferred && (0 <? annual_cash_flow)
    then l_total_contributions s + annual_cash_flow
    else l_total_contributions s in
  let growth := after_cash_flow * weighted_annual_return_ in
  let after_growth := after_cash_flow + growth in
  let taxes :=
    if is_taxable && (0 <? tax_rate) then growth * tax_rate else 0 in
  let after_taxes := after_growth - taxes in
  let total_taxes := l_total_taxes s + taxes in
  let fees := after_taxes * total_fee_rate in
  let ending_value := after_taxes - fees in
  let total_fees := l_total_fees s + fees in
  let deferred := if is_tax_deferred then ending_value * tax_rate else 0 in
  {| l_portfolio_value := ending_value;
     l_total_fees := total_fees;
     l_total_taxes := total_taxes;
     l_total_cash_flows := total_cash_flows;
     l_total_contributions := total_contributions;
     l_deferred_tax_liability := deferred;
     l_yearly_projections :=
       l_yearly_projections s ++
       [{| yp_year := year;
           yp_starting_value := starting_value;
           yp_cash_flow := annual_cash_flow;
           yp_after_cash_flow := after_cash_flow;
           yp_growth := growth;
           yp_taxes := taxes;
           yp_fees := fees;
           yp_ending_value := ending_value;
           yp_annual_return := weighted_annual_return_;
           yp_deferred_tax_liability := deferred |}] |}.

(** The record an iteration appends when it starts from the value [v]:
    used to state what the loop does. *)
Definition year_record (year : Z) (v : num) : YearlyProjection :=
  let after_cash_flow := v + annual_cash_flow in
  let growth := after_cash_flow * weighted_annual_return_ in
  let taxes := if is_taxable && (0 <? tax_rate) then growth * tax_rate else 0 in
  let after_taxes := after_cash_flow + growth - taxes in
  let fees := after_taxes * total_fee_rate in
  let ending_value := after_taxes - fees in
  {| yp_year := year;
     yp_starting_value := v;
     yp_cash_flow := annual_cash_flow;
     yp_after_cash_flow := after_cash_flow;
     yp_growth := growth;
     yp_taxes := taxes;
     yp_fees := fees;
     yp_ending_value := ending_value;
     yp_annual_return := weighted_annual_return_;
     yp_deferred_tax_liability := if is_tax_deferred then ending_value * tax_rate else 0 |}.

Definition loop_init (initial_value : num) : Locals :=
  {| l_portfolio_value := initial_value;
     l_total_fees := 0;
     l_total_taxes := 0;
     l_total_cash_flows := 0;
     l_total_contributions := initial_value;
     l_deferred_tax_liability := 0;
     l_yearly_projections := [] |}.

(** The locals [s] with another value left in [deferred_tax_liability]. *)
Definition with_deferred (d : num) (s : Locals) : Locals :=
  {| l_portfolio_value := l_portfolio_value s;
     l_total_fees := l_total_fees s;
     l_total_taxes := l_total_taxes s;
     l_total_cash_flows := l_total_cash_flows s;
     l_total_contributions := l_total_contributions s;
     l_deferred_tax_liability := d;
     l_yearly_projections := l_yearly_projections s |}.

(** The locals when the loop over [range(1, years + 1)] is over. *)
Definition run_loop (initial_value : num) (years : Z) : Locals :=
  fold_left loop_body (range 1 (years + 1)) (loop_init initial_value).

End Loop.

Definition project_portfolio_with_taxes
  (asset_class_allocation growth_rates : dict num)
  (total_fee_rate initial_value annual_cash_flow tax_rate : num)
  (account_type_ : string) (years : Z) : Projection :=
  let war := blended_return asset_class_allocation growth_rates in
  let is_taxable := String.eqb account_type_ "Brokerage" in
  let is_tax_deferred := String.eqb account_type_ "Traditional IRA" in
  let s := run_loop war total_fee_rate annual_cash_flow tax_rate
                    is_taxable is_tax_deferred initial_value years in
  {| weighted_annual_return := war;
     final_portfolio_value := l_portfolio_value s;
     total_fees := l_total_fees s;
     total_taxes := l_total_taxes s;
     total_cash_flows := l_total_cash_flows s;
     deferred_tax_liability := l_deferred_tax_liability s;
     account_type := account_type_;
     yearly_projections := l_yearly_projections s |}.

(** *** calculate_portfolio_returns *)

(** A price frame: the column labels (tickers) and the rows of values, one
    value per column; the date index is left out, rows are in date order. *)
Record DataFrame : Type := {
  columns : list string;
  rows : list (list num)
}.

(** A series is the list of its values, in index order. *)
Definition Series : Type := list num.

(** [DataFrame.pct_change()]: [data / data.shift(1) - 1], the first row being
    all NaN. (The forward fill of missing prices that some pandas versions do
    first is not modelled.) *)
Definition pct_row (prev cur : list num) : list num :=
  map (fun pc => snd pc / fst pc - 1) (combine prev cur).

Fixpoint pct_change_from (prev : list num) (rs : list (list num)) : list (list num) :=
  match rs with
  | [] => []
  | cur :: tl => pct_row prev cur :: pct_change_from cur tl
  end.

Definition pct_change (df : DataFrame) : DataFrame :=
  {| columns := columns df;
     rows := match rows df with
             | [] => []
             | first :: tl => map (fun _ => fnan) first :: pct_change_from first tl
             end |}.

(** [DataFrame.dropna()]: the rows holding a NaN are removed. *)
Definition dropna (df : DataFrame) : DataFrame :=
  {| columns := columns df;
     rows := filter (fun r => negb (existsb fisnan r)) (rows df) |}.

(** [DataFrame.dot(array)]: one weighted sum per row. *)
Definition dot (df : DataFrame) (weights_array : list num) : Series :=
  map (fun r => py_sum (map (fun xw => fst xw * snd xw) (combine r weights_array)))
      (rows df).

(** [(1 + port_returns) * factor - 1] *)
Definition deduct (factor : num) (port_returns : Series) : Series :=
  map (fun r => (1 + r) * factor - 1) port_returns.

(** [(1 - fee) ** (1/252)], a power of Python floats. *)
Definition daily_factor (fee : num) : result num :=
  py_pow (1 - fee) (1 / of_int 252).

(** [daily_er ** weight] for the item [tw] of the weights: the factor of its
    layer, when its expense ratio passes the test [er > 0]. *)
Definition expense_factor (expense_ratios : dict num) (tw : string * num)
  : result (option num) :=
  let er := dict_get_default (fst tw) 0 expense_ratios in
  if 0 <? er then
    daily_er <- daily_factor er ;;
    factor <- py_pow daily_er (snd tw) ;;
    Ok (Some factor)
  else Ok None.

(** The body of [for ticker, weight in weights.items()]. *)
Definition expense_layer (expense_ratios : dict num) (port_returns : Series)
  (tw : string * num) : result Series :=
  factor <- expense_factor expense_ratios tw ;;
  match factor with
  | Some f => Ok (deduct f port_returns)
  | None => Ok port_returns
  end.

(** Lines 10-22: the advisory fee, then the expense ratios.
    [expense_ratios] is [None] or a dict; both [None] and the empty dict are
    falsy. *)
Definition apply_fees (port_returns : Series) (advisory_fee : num)
  (expense_ratios : option (dict num)) (weights : dict num) : result Series :=
  daily_advisory <- daily_factor advisory_fee ;;
  let port_returns := deduct daily_advisory port_returns in
  match expense_ratios with
  | Some (e :: ers) => foldM (expense_layer (e :: ers)) weights port_returns
  | Some [] | None => Ok port_returns
  end.

(** The factors of the expense-ratio layers, in the order they are applied:
    one per item of the weights whose ticker passes the test [er > 0].
    Used to state what [apply_fees] does to one period. *)
Definition expense_factors (expense_ratios : option (dict num)) (weights : dict num)
  : result (list num) :=
  match expense_ratios with
  | Some (e :: ers) =>
      fs <- mapM (expense_factor (e :: ers)) weights ;;
      Ok (flat_map (fun f => match f with Some x => [x] | None => [] end) fs)
  | Some [] | None => Ok []
  end.

Definition calculate_portfolio_returns (prices : DataFrame) (weights : dict num)
  (advisory_fee : num) (expense_ratios : option (dict num)) : result Series :=
  let returns := dropna (pct_change prices) in
  weights_array <- mapM (fun col => dict_item col weights) (columns returns) ;;
  let port_returns := dot returns weights_array in
  apply_fees port_returns advisory_fee expense_ratios weights.

(** *** performance_stats *)

(** [Series.cumprod()] and [Series.cummax()]: a NaN entry stays NaN and is
    skipped by the running value. *)
Fixpoint cum_from (op : num -> num -> num) (acc : num) (xs : Series) : Series :=
  match xs with
  | [] => []
  | x :: tl =>
      if fisnan x then x :: cum_from op acc tl
      else let v := op acc x in v :: cum_from op v tl
  end.

Fixpoint cumulate (op : num -> num -> num) (xs : Series) : Series :=
  match xs with
  | [] => []
  | x :: tl =>
      if fisnan x then x :: cumulate op tl
      else x :: cum_from op x tl
  end.

Definition fmax (a x : num) : num := if a <? x then x else a.
Definition fmin (a x : num) : num := if x <? a then x else a.

Definition cumprod (xs : Series) : Series := cumulate fmul xs.
Definition cummax (xs : Series) : Series := cumulate fmax xs.

(** [Series.min()]: the least entry that is not NaN; NaN when there is none. *)
Fixpoint min_from (acc : num) (xs : Series) : num :=
  match xs with
  | [] => acc
  | x :: tl => if fisnan x then min_from acc tl else min_from (fmin acc x) tl
  end.

Fixpoint series_min (xs : Series) : num :=
  match xs with
  | [] => fnan
  | x :: tl => if fisnan x then series_min tl else min_from x tl
  end.

(** [s.iloc[-1]] *)
Definition iloc_last (xs : Series) : result num :=
  match rev xs with
  | [] => Raise IndexError
  | x :: _ => Ok x
  end.

(** Element-wise [a / b] of two series on the same index. *)
Definition series_div (a b : Series) : Series :=
  map (fun xy => fst xy / snd xy) (combine a b).

Record Stats : Type := {
  Total_Return : num;
  Annualized_Return : num;
  Volatility : num;
  Sharpe_Ratio : num;
  Max_Drawdown : num
}.

(** [std] stands for pandas' [Series.std] (sample standard deviation).  The
    values are numpy's, so the power and the divisions do not raise; the
    division [252/len(port_returns)] of two ints is reached only after
    [iloc[-1]] has found a last value, when the length is not 0. *)
Definition performance_stats (std : Series -> num) (port_returns : Series)
  (risk_free : num) : result (Stats * Series) :=
  let cumulative := cumprod (map (fun r => 1 + r) port_returns) in
  last <- iloc_last cumulative ;;
  let total_return := last - 1 in
  let annualized_return :=
    (1 + total_return) ** (of_int 252 / of_int (Z.of_nat (List.length port_returns))) - 1 in
  let volatility := std port_returns * fsqrt (of_int 252) in
  let sharpe := (annualized_return - risk_free) / volatility in
  let max_dd :=
    series_min (map (fun q => q - 1) (series_div cumulative (cummax cumulative))) in
  Ok ({| Total_Return := total_return;
         Annualized_Return := annualized_return;
         Volatility := volatility;
         Sharpe_Ratio := sharpe;
         Max_Drawdown := max_dd |}, cumulative).

(** *** calculate_individual_returns *)

(** The position of the label [ticker] among the column labels (the labels
    of a price frame are distinct). *)
Fixpoint column_index (ticker : string) (cols : list string) : option nat :=
  match cols with
  | [] => None
  | c :: tl =>
      if String.eqb ticker c then Some O
      else option_map S (column_index ticker tl)
  end.

(** [prices[ticker]]: the values of the column, one per row; a row that has
    no cell there holds NaN. *)
Definition frame_column (prices : DataFrame) (ticker : string) : result Series :=
  match column_index ticker (columns prices) with
  | Some j => Ok (map (fun r => nth j r fnan) (rows prices))
  | None => Raise (KeyError ticker)
  end.

(** [s.iloc[0]] *)
Definition iloc_first (xs : Series) : result num :=
  match xs with
  | [] => Raise IndexError
  | x :: _ => Ok x
  end.

(** The body of [for ticker in prices.columns]. *)
Definition individual_return (prices : DataFrame) (individual_returns : dict num)
  (ticker : string) : result (dict num) :=
  col <- frame_column prices ticker ;;
  start_price <- iloc_first col ;;
  end_price <- iloc_last col ;;
  let total_return := (end_price - start_price) / start_price in
  Ok (dict_set ticker total_return individual_returns).

Definition calculate_individual_returns (prices : DataFrame) : result (dict num) :=
  foldM (individual_return prices) (columns prices) [].

(** *** project_portfolio_returns *)

Record ReturnsYear : Type := {
  ry_year : Z;
  ry_portfolio_value : num;
  ry_annual_return : num;
  ry_cumulative_return : num
}.

Record ReturnsProjection : Type := {
  rp_weighted_annual_return : num;
  rp_total_projected_return : num;
  rp_final_portfolio_value : num;
  rp_yearly_projections : list ReturnsYear
}.

(** The body of the loop; the state is [(portfolio_value, yearly_projections)]. *)
Definition returns_body (weighted_annual_return_ : num)
  (s : num * list ReturnsYear) (year : Z) : num * list ReturnsYear :=
  let portfolio_value := fst s * (1 + weighted_annual_return_) in
  (portfolio_value,
   snd s ++ [{| ry_year := year;
                ry_portfolio_value := portfolio_value;
                ry_annual_return := weighted_annual_return_;
                ry_cumulative_return := portfolio_value - 1 |}]).

(** The total return is computed first, by a power of Python numbers,
    which can raise; the loop comes after it. *)
Definition project_portfolio_returns (asset_class_allocation growth_rates : dict num)
  (years : Z) : result ReturnsProjection :=
  let war := blended_return asset_class_allocation growth_rates in
  growth <- py_pow (1 + war) (of_int years) ;;
  let total_projected_return := growth - 1 in
  let s := fold_left (returns_body war) (range 1 (years + 1)) (1, []) in
  Ok {| rp_weighted_annual_return := war;
        rp_total_projected_return := total_projected_return;
        rp_final_portfolio_value := fst s;
        rp_yearly_projections := snd s |}.

(** *** project_portfolio_with_fees *)

Record FeesYear : Type := {
  fy_year : Z;
  fy_starting_value : num;
  fy_growth : num;
  fy_fees : num;
  fy_ending_value : num;
  fy_annual_return : num
}.

Record FeesProjection : Type := {
  fp_weighted_annual_return : num;
  fp_final_portfolio_value : num;
  fp_total_fees : num;
  fp_yearly_projections : list FeesYear
}.

(** The locals that live across iterations:
    [(portfolio_value, total_fees, yearly_projections)]. *)
Definition fees_body (weighted_annual_return_ total_fee_rate : num)
  (s : num * num * list FeesYear) (year : Z) : num * num * list FeesYear :=
  let '(portfolio_value, total_fees_, yearly) := s in
  let starting_value := portfolio_value in
  let growth := starting_value * weighted_annual_return_ in
  let fees := (starting_value + growth) * total_fee_rate in
  let ending_value := starting_value + growth - fees in
  (ending_value, total_fees_ + fees,
   yearly ++ [{| fy_year := year;
                 fy_starting_value := starting_value;
                 fy_growth := growth;
                 fy_fees := fees;
                 fy_ending_value := ending_value;
                 fy_annual_return := weighted_annual_return_ |}]).

Definition project_portfolio_with_fees (asset_class_allocation growth_rates : dict num)
  (total_fee_rate : num) (years : Z) : FeesProjection :=
  let war := blended_return asset_class_allocation growth_rates in
  let '(portfolio_value, total_fees_, yearly) :=
    fold_left (fees_body war total_fee_rate) (range 1 (years + 1)) (1, 0, []) in
  {| fp_weighted_annual_return := war;
     fp_final_portfolio_value := portfolio_value;
     fp_total_fees := total_fees_;
     fp_yearly_projections := yearly |}.

End WithFloat.

Arguments ReturnsYear num : clear implicits.
Arguments ReturnsProjection num : clear implicits.
Arguments FeesYear num : clear implicits.
Arguments FeesProjection num : clear implicits.
Arguments YearlyProjection num : clear implicits.
Arguments Projection num : clear implicits.
Arguments Locals num : clear implicits.
Arguments DataFrame num : clear implicits.
Arguments Series num : clear implicits.
Arguments Stats num : clear implicits.

End Performance.

(** ** backend/api/routers/portfolio.py: the projections of
    analyze_aggregate_portfolio (lines 276-343) *)

Module PortfolioRouter.
Import Performance.
Section WithFloat.
Context {num : Type} {F : PyFloat num}.
Local Open Scope string_scope.
Local Open Scope py_scope.

(** One element of [request.portfolios]. *)
Record SinglePortfolioData : Type := {
  holdings : dict num;
  advisory_fee : num;
  asset_class_overrides : option (dict string);
  p_account_type : string;
  annual_cash_flow : num
}.

(** The attributes read from a [Portfolio] object. *)
Record PortfolioAttrs : Type := {
  asset_class_allocation : dict num;
  weighted_avg_er : num;
  portfolio_advisory_fee : num
}.

(** The values held by the aggregate dict and by its yearly rows. *)
Inductive cell : Type :=
| CInt (n : Z)
| CFloat (x : num).

Definition row : Type := dict cell.

Inductive aval : Type :=
| AFloat (x : num)
| ARows (rs : list row).

(** [c + x] for a float [x] *)
Definition cell_add (c : cell) (x : num) : cell :=
  match c with
  | CInt n => CFloat (of_int n + x)
  | CFloat a => CFloat (a + x)
  end.

(** [agg[k] += x] *)
Definition agg_iadd (k : string) (x : num) (agg : dict aval) : result (dict aval) :=
  v <- dict_item k agg ;;
  match v with
  | AFloat a => Ok (dict_set k (AFloat (a + x)) agg)
  | ARows _ => Raise TypeError
  end.

(** [agg['yearly_projections']] *)
Definition agg_rows (agg : dict aval) : result (list row) :=
  v <- dict_item "yearly_projections" agg ;;
  match v with
  | ARows rs => Ok rs
  | AFloat _ => Raise TypeError
  end.

(** [agg['yearly_projections'][i][k] += x]; the list and the row are updated
    in place, so the aggregate sees the new row. *)
Definition row_iadd (i : nat) (k : string) (x : num) (agg : dict aval)
  : result (dict aval) :=
  rs <- agg_rows agg ;;
  match nth_error rs i with
  | None => Raise IndexError
  | Some r =>
      c <- dict_item k r ;;
      Ok (dict_set "yearly_projections"
            (ARows (list_set i (dict_set k (cell_add c x) r) rs)) agg)
  end.

(** The dict appended for [yp] when the aggregate is initialised. *)
Definition first_row (yp : YearlyProjection num) : row :=
  [("year", CInt (yp_year yp));
   ("starting_value", CFloat (yp_starting_value yp));
   ("ending_value", CFloat (yp_ending_value yp));
   ("growth", CFloat (yp_growth yp));
   ("fees", CFloat (yp_fees yp));
   ("taxes", CFloat (yp_taxes yp));
   ("cash_flow", CFloat (yp_cash_flow yp));
   ("deferred_tax_liability", CFloat (yp_deferred_tax_liability yp))].

(** The aggregate built from the first projection. *)
Definition first_aggregate (p_projection : Projection num) : dict aval :=
  [("weighted_annual_return", AFloat (weighted_annual_return p_projection));
   ("final_portfolio_value", AFloat (final_portfolio_value p_projection));
   ("total_fees", AFloat (total_fees p_projection));
   ("total_taxes", AFloat (total_taxes p_projection));
   ("total_cash_flows", AFloat (total_cash_flows p_projection));
   ("deferred_tax_liability", AFloat (deferred_tax_liability p_projection));
   ("yearly_projections", ARows (map first_row (yearly_projections p_projection)))].

(** The body of [for i, yp in enumerate(p_projection['yearly_projections'])]. *)
Definition add_yearly (agg : dict aval) (iyp : nat * YearlyProjection num)
  : result (dict aval) :=
  let i := fst iyp in
  let yp := snd iyp in
  rs <- agg_rows agg ;;
  if (i <? List.length rs)%nat then
    agg <- row_iadd i "starting_value" (yp_starting_value yp) agg ;;
    agg <- row_iadd i "ending_value" (yp_ending_value yp) agg ;;
    agg <- row_iadd i "growth" (yp_growth yp) agg ;;
    agg <- row_iadd i "fees" (yp_fees yp) agg ;;
    agg <- row_iadd i "taxes" (yp_taxes yp) agg ;;
    agg <- row_iadd i "cash_flow" (yp_cash_flow yp) agg ;;
    row_iadd i "deferred_tax_liability" (yp_deferred_tax_liability yp) agg
  else Ok agg.

Definition enumerate {A : Type} (l : list A) : list (nat * A) :=
  combine (seq 0 (List.length l)) l.

(** The [else] branch: a further projection is added to the aggregate. *)
Definition add_projection (p_projection : Projection num) (agg : dict aval)
  : result (dict aval) :=
  agg <- agg_iadd "final_portfolio_value" (final_portfolio_value p_projection) agg ;;
  agg <- agg_iadd "total_fees" (total_fees p_projection) agg ;;
  agg <- agg_iadd "total_taxes" (total_taxes p_projection) agg ;;
  agg <- agg_iadd "total_cash_flows" (total_cash_flows p_projection) agg ;;
  agg <- agg_iadd "deferred_tax_liability" (deferred_tax_liability p_projection) agg ;;
  foldM add_yearly (enumerate (yearly_projections p_projection)) agg.

(** *** The combined holdings and the blended advisory fee (lines 209-227) *)

(** [combined_holdings[ticker] = combined_holdings.get(ticker, 0) + amount] *)
Definition add_holding (combined_holdings : dict num) (ta : string * num) : dict num :=
  dict_set (fst ta) (dict_get_default (fst ta) 0 combined_holdings + snd ta)
           combined_holdings.

(** [d.update(other)] *)
Definition dict_update {V : Type} (d other : dict V) : dict V :=
  fold_left (fun acc kv => dict_set (fst kv) (snd kv) acc) other d.

(** The body of the first [for p in request.portfolios]; the state is
    [(combined_holdings, combined_overrides)]. *)
Definition combine_body (s : dict num * dict string) (p : SinglePortfolioData)
  : dict num * dict string :=
  (fold_left add_holding (holdings p) (fst s),
   match asset_class_overrides p with
   | Some (o :: os) => dict_update (snd s) (o :: os)
   | Some [] | None => snd s
   end).

Definition combine_portfolios (portfolios : list SinglePortfolioData)
  : dict num * dict string :=
  fold_left combine_body portfolios ([], []).

(** [sum(p.holdings.values())] *)
Definition portfolio_value (p : SinglePortfolioData) : num :=
  py_sum (dict_values (holdings p)).

(** [total_value] and [weighted_fee]. *)
Definition total_value_of (combined_holdings : dict num) : num :=
  py_sum (dict_values combined_holdings).

Definition weighted_fee (portfolios : list SinglePortfolioData) (total_value : num)
  : num :=
  if 0 <? total_value then
    py_sum (map (fun p => (portfolio_value p / total_value) * advisory_fee p)
                (filter (fun p => 0 <? portfolio_value p) portfolios))
  else 0.

(** *** The shape of the aggregate

    The aggregate dict is always the dict of a header and of rows that hold
    running sums; the definitions below name that shape, to state what the
    loops compute.  A projection serves as header and a
    yearly record as row of running sums. *)

Definition aggregate_with (hdr : Projection num) (rs : list row) : dict aval :=
  [("weighted_annual_return", AFloat (weighted_annual_return hdr));
   ("final_portfolio_value", AFloat (final_portfolio_value hdr));
   ("total_fees", AFloat (total_fees hdr));
   ("total_taxes", AFloat (total_taxes hdr));
   ("total_cash_flows", AFloat (total_cash_flows hdr));
   ("deferred_tax_liability", AFloat (deferred_tax_liability hdr));
   ("yearly_projections", ARows rs)].

Definition aggregate_dict (hdr : Projection num) (sums : list (YearlyProjection num))
  : dict aval :=
  aggregate_with hdr (map first_row sums).

(** The sums of a row after the seven [+=] for the record [yp]. *)
Definition sum_yearly (acc yp : YearlyProjection num) : YearlyProjection num :=
  {| yp_year := yp_year acc;
     yp_starting_value := yp_starting_value acc + yp_starting_value yp;
     yp_cash_flow := yp_cash_flow acc + yp_cash_flow yp;
     yp_after_cash_flow := yp_after_cash_flow acc;
     yp_growth := yp_growth acc + yp_growth yp;
     yp_taxes := yp_taxes acc + yp_taxes yp;
     yp_fees := yp_fees acc + yp_fees yp;
     yp_ending_value := yp_ending_value acc + yp_ending_value yp;
     yp_annual_return := yp_annual_return acc;
     yp_deferred_tax_liability :=
       yp_deferred_tax_liability acc + yp_deferred_tax_liability yp |}.

(** The rows after the loop over the records [yps]: a record beyond the last
    row is passed over, a row beyond the last record is left as it is. *)
Fixpoint sum_ledgers (sums yps : list (YearlyProjection num)) : list (YearlyProjection num) :=
  match sums, yps with
  | a :: sums', yp :: yps' => sum_yearly a yp :: sum_ledgers sums' yps'
  | _, [] => sums
  | [], _ => []
  end.

(** The header after the five [+=] for the projection [p]. *)
Definition sum_header (hdr p : Projection num) : Projection num :=
  {| weighted_annual_return := weighted_annual_return hdr;
     final_portfolio_value := final_portfolio_value hdr + final_portfolio_value p;
     total_fees := total_fees hdr + total_fees p;
     total_taxes := total_taxes hdr + total_taxes p;
     total_cash_flows := total_cash_flows hdr + total_cash_flows p;
     deferred_tax_liability := deferred_tax_liability hdr + deferred_tax_liability p;
     account_type := account_type hdr;
     yearly_projections := yearly_projections hdr |}.

(** The value of the field [f] in year [k] (from 0) of a projection. *)
Definition year_value (f : YearlyProjection num -> num) (k : nat) (p : Projection num) : num :=
  match nth_error (yearly_projections p) k with
  | Some yp => f yp
  | None => 0
  end.

(** The year-[k] values of [f] added up over the projections [first :: rest],
    in that order. *)
Definition ledger_total (f : YearlyProjection num -> num) (k : nat)
  (first : Projection num) (rest : list (Projection num)) : num :=
  fold_left fadd (map (year_value f k) rest) (year_value f k first).

Section Loop.
(** [analytics.portfolio.Portfolio] and [analytics.models.growth_rates] are
    taken as parameters: the constructor as a function from its arguments to
    the attributes read here, the table as a dict. *)
Variable Portfolio :
  dict num -> string -> num -> option (dict string) -> PortfolioAttrs.
Variable growth_rates : dict num.
Variable tax_rate : num.

(** The projection computed for a portfolio [p] that has holdings. *)
Definition portfolio_projection (p : SinglePortfolioData) : Projection num :=
  let p_portfolio :=
    Portfolio (holdings p) "temp" (advisory_fee p) (asset_class_overrides p) in
  let p_total_fee_rate :=
    weighted_avg_er p_portfolio + portfolio_advisory_fee p_portfolio in
  let p_initial_value := py_sum (dict_values (holdings p)) in
  project_portfolio_with_taxes
    (asset_class_allocation p_portfolio) growth_rates p_total_fee_rate
    p_initial_value (annual_cash_flow p) tax_rate (p_account_type p) 10.

(** [not p.holdings] *)
Definition no_holdings (p : SinglePortfolioData) : bool :=
  match holdings p with
  | [] => true
  | _ :: _ => false
  end.

(** The body of [for p in request.portfolios]; [None] is Python's [None]. *)
Definition aggregate_body (aggregate_projections : option (dict aval))
  (p : SinglePortfolioData) : result (option (dict aval)) :=
  if no_holdings p then Ok aggregate_projections
  else
    let p_projection := portfolio_projection p in
    match aggregate_projections with
    | None => Ok (Some (first_aggregate p_projection))
    | Some agg => agg <- add_projection p_projection agg ;; Ok (Some agg)
    end.

(** The projections the loop computes: one per portfolio that has holdings. *)
Definition projected (portfolios : list SinglePortfolioData) : list (Projection num) :=
  map portfolio_projection (filter (fun p => negb (no_holdings p)) portfolios).

(** [aggregate_projections] when the loop over the portfolios is over. *)
Definition aggregate_projections_of (portfolios : list SinglePortfolioData)
  : result (option (dict aval)) :=
  foldM aggregate_body portfolios None.

End Loop.
End WithFloat.

Arguments SinglePortfolioData num : clear implicits.
Arguments PortfolioAttrs num : clear implicits.
Arguments cell num : clear implicits.
Arguments row num : clear implicits.
Arguments aval num : clear implicits.

End PortfolioRouter.

(** ** Exact arithmetic

    The real numbers and NaN. A division by zero gives NaN.  A power of a
    positive base is [exp (y * ln x)]; 0 to a positive power is 0 and 0 to
    the power 0 is 1; as in IEEE 754, NaN to the power 0 and 1 to the power
    NaN are 1.  The infinities and the powers of a negative base are not
    represented: they are NaN here.  No result is out of range, so Python's
    power raises for 0 to a negative power only. *)

Module Ideal.
Local Open Scope R_scope.

Abbreviation ideal := (option R).

Definition lift2 (f : R -> R -> R) (x y : ideal) : ideal :=
  match x, y with
  | Some a, Some b => Some (f a b)
  | _, _ => None
  end.

Definition idiv (x y : ideal) : ideal :=
  match x, y with
  | Some a, Some b => if Req_dec_T b 0 then None else Some (a / b)
  | _, _ => None
  end.

Definition ipow (x y : ideal) : ideal :=
  match x, y with
  | Some a, Some b =>
      if Rlt_dec 0 a then Some (Rpower a b)
      else if Req_dec_T a 0 then
        (if Rlt_dec 0 b then Some 0 else if Req_dec_T b 0 then Some 1 else None)
      else None
  | None, Some b => if Req_dec_T b 0 then Some 1 else None
  | Some a, None => if Req_dec_T a 1 then Some 1 else None
  | None, None => None
  end.

Definition isqrt (x : ideal) : ideal :=
  match x with
  | Some a => if Rlt_dec a 0 then None else Some (sqrt a)
  | None => None
  end.

Definition ilt (x y : ideal) : bool :=
  match x, y with
  | Some a, Some b => if Rlt_dec a b then true else false
  | _, _ => false
  end.

Definition iisnan (x : ideal) : bool :=
  match x with
  | Some _ => false
  | None => true
  end.

Definition ipow_error (x y : ideal) : option exn :=
  match x, y with
  | Some a, Some b =>
      if Req_dec_T a 0
      then if Rlt_dec b 0 then Some ZeroDivisionError else None
      else None
  | _, _ => None
  end.

#[export] Instance ideal_float : PyFloat ideal := {
  of_int := fun z => Some (IZR z);
  fadd := lift2 Rplus;
  fsub := lift2 Rminus;
  fmul := lift2 Rmult;
  fdiv := idiv;
  fsqrt := isqrt;
  flt := ilt;
  fnan := None;
  fisnan := iisnan;
  fisnan_nan := eq_refl
}.

#[export] Instance ideal_pow : PyPow ideal := {
  fpow := ipow;
  fpow_error := ipow_error
}.

(** A series of real numbers, as a series of the program. *)
Definition reals (xs : list R) : list ideal := map Some xs.


End Ideal.

(** ** Binary64

    The floats of the program: Rocq's primitive floats, which are IEEE 754
    binary64 with rounding to nearest, ties to even, as Python's are.  An
    int is converted by rounding it to the nearest float (an int beyond the
    range of the floats, which Python refuses to convert, gives an infinity;
    the code converts the literals 0, 1 and 252, a length and a horizon). *)

Module Binary64.

Definition of_Z (z : Z) : PrimFloat.float :=
  FloatOps.SF2Prim (SpecFloat.binary_normalize FloatOps.prec FloatOps.emax z 0 false).

#[export] Instance binary64_float : PyFloat PrimFloat.float := {
  of_int := of_Z;
  fadd := PrimFloat.add;
  fsub := PrimFloat.sub;
  fmul := PrimFloat.mul;
  fdiv := PrimFloat.div;
  fsqrt := PrimFloat.sqrt;
  flt := PrimFloat.ltb;
  fnan := PrimFloat.nan;
  fisnan := PrimFloat.is_nan;
  fisnan_nan := eq_refl
}.

End Binary64.

(** ** backend/api/routers/etrade.py: the holdings of get_etrade_holdings
    summed by symbol (lines 155-171) *)

Module EtradeRouter.
Section WithFloat.
Context {num : Type} {F : PyFloat num}.
Local Open Scope py_scope.

(** One holding, as [get_holdings_summary] gives it and as the answer lists it. *)
Record Holding : Type := {
  symbol : string;
  market_value : num;
  security_type : string
}.

(** The body of [for holding in holdings]. *)
Definition aggregate_holding (symbol_aggregated : dict Holding) (holding : Holding)
  : dict Holding :=
  match dict_get (symbol holding) symbol_aggregated with
  | Some h =>
      dict_set (symbol holding)
        {| symbol := symbol h;
           market_value := market_value h + market_value holding;
           security_type := security_type h |}
        symbol_aggregated
  | None =>
      dict_set (symbol holding)
        {| symbol := symbol holding;
           market_value := market_value holding;
           security_type := security_type holding |}
        symbol_aggregated
  end.

(** [holdings_list] *)
Definition holdings_list (holdings : list Holding) : list Holding :=
  dict_values (fold_left aggregate_holding holdings []).

End WithFloat.

Arguments Holding num : clear implicits.

End EtradeRouter.

(** ** analytics/data.py: get_expense_ratios *)

Module Data.
Import Ideal.
Local Open Scope string_scope.
Local Open Scope R_scope.

(** The table [er] of the function. *)
Definition er : dict ideal :=
  [("SPY", Some (9/10000)); ("VOO", Some (3/10000))].

(** [{t: er.get(t, 0.0) for t in tickers}] *)
Definition get_expense_ratios (tickers : list string) : dict ideal :=
  fold_left (fun d t => dict_set t (dict_get_default t (Some 0) er) d) tickers [].

End Data.

(** ** The specification's reading of input validation

    Section 7 of the specification has the projection refuse a horizon
    [years <= 0] and an unrecognised account type before the loop starts.
    [validated_projection] follows those words; it is compared below with
    [project_portfolio_with_taxes], which is the code. *)

Inductive invalid_input : Type :=
| InvalidHorizonError
| InvalidAccountTypeError.

Definition recognised_account_type (a : string) : bool :=
  (String.eqb a "Brokerage" || String.eqb a "Roth IRA" || String.eqb a "Traditional IRA")%bool.

Definition validated_projection {num : Type} {F : PyFloat num}
  (asset_class_allocation growth_rates : dict num)
  (total_fee_rate initial_value annual_cash_flow tax_rate : num)
  (account_type_ : string) (years : Z) : invalid_input + Performance.Projection num :=
  if (years <=? 0)%Z then inl InvalidHorizonError
  else if negb (recognised_account_type account_type_) then inl InvalidAccountTypeError
  else inr (Performance.project_portfolio_with_taxes
              asset_class_allocation growth_rates total_fee_rate initial_value
              annual_cash_flow tax_rate account_type_ years).

(** ** Evaluation on the exact carrier *)

Ltac ideal_eval :=
  cbv -[Rplus Rmult Rminus Rdiv Rinv Ropp IZR Rlt_dec Req_dec_T Rpower sqrt Rle Rlt].

Ltac decide_R :=
  repeat match goal with
  | |- context [Rlt_dec ?a ?b] => destruct (Rlt_dec a b); try lra
  | |- context [Req_dec_T ?a ?b] => destruct (Req_dec_T a b); try lra
  end.

(** * Properties *)

(** ** Lists and dictionaries *)

Lemma range_nonpos (lo hi : Z) : (hi <= lo)%Z -> range lo hi = [].
Proof.
  intros H. unfold range.
  replace (Z.to_nat (hi - lo)) with O by lia. reflexivity.
Qed.

Lemma range_snoc (lo : Z) (n : nat) :
  range lo (lo + Z.of_nat (S n)) = range lo (lo + Z.of_nat n) ++ [(lo + Z.of_nat n)%Z].
Proof.
  unfold range.
  replace (Z.to_nat (lo + Z.of_nat (S n) - lo)) with (S n) by lia.
  replace (Z.to_nat (lo + Z.of_nat n - lo)) with n by lia.
  rewrite seq_S, map_app. reflexivity.
Qed.

Lemma range_length (lo hi : Z) : List.length (range lo hi) = Z.to_nat (hi - lo).
Proof. unfold range. now rewrite length_map, length_seq. Qed.

Lemma fold_left_snoc {A B : Type} (f : A -> B -> A) (l : list B) (b : B) (a : A) :
  fold_left f (l ++ [b]) a = f (fold_left f l a) b.
Proof. now rewrite fold_left_app. Qed.

(** ** The forward projector *)

Module ProjectorFacts.
Import Performance.
Section WithFloat.
Context {num : Type} {F : PyFloat num}.
Local Open Scope py_scope.

Section Loop.
Variables (war fee cash tax : num) (taxable deferred : bool) (initial : num).

Let body := loop_body war fee cash tax taxable deferred.
Let after (n : nat) : Locals num :=
  run_loop war fee cash tax taxable deferred initial (Z.of_nat n).
Let record := year_record war fee cash tax taxable deferred.

Lemma run_loop_nonpos (years : Z) :
  (years <= 0)%Z ->
  run_loop war fee cash tax taxable deferred initial years = loop_init initial.
Proof.
  intros H. unfold run_loop. rewrite range_nonpos by lia. reflexivity.
Qed.

Lemma after_0 : after 0 = loop_init initial.
Proof. apply run_loop_nonpos. simpl. lia. Qed.

Lemma after_S (n : nat) : after (S n) = body (after n) (Z.of_nat (S n)).
Proof.
  unfold after, run_loop.
  replace (Z.of_nat (S n) + 1)%Z with (1 + Z.of_nat (S n))%Z by lia.
  replace (Z.of_nat n + 1)%Z with (1 + Z.of_nat n)%Z by lia.
  rewrite range_snoc, fold_left_snoc.
  replace (1 + Z.of_nat n)%Z with (Z.of_nat (S n)) by lia. reflexivity.
Qed.

Lemma run_loop_of_nat (years : Z) :
  run_loop war fee cash tax taxable deferred initial years = after (Z.to_nat years).
Proof.
  destruct (Z_le_gt_dec years 0) as [Hle | Hgt].
  - rewrite run_loop_nonpos by assumption.
    replace (Z.to_nat years) with O by lia. now rewrite after_0.
  - unfold after. now rewrite Z2Nat.id by lia.
Qed.

(** An iteration appends one record, computed from the value it starts with,
    and leaves the earlier records as they are. *)
Lemma ledger_S (n : nat) :
  l_yearly_projections (after (S n)) =
  l_yearly_projections (after n) ++
  [record (Z.of_nat (S n)) (l_portfolio_value (after n))].
Proof. rewrite after_S. reflexivity. Qed.

Lemma value_S (n : nat) :
  l_portfolio_value (after (S n)) =
  yp_ending_value (record (Z.of_nat (S n)) (l_portfolio_value (after n))).
Proof. rewrite after_S. reflexivity. Qed.

Lemma ledger_length (n : nat) : List.length (l_yearly_projections (after n)) = n.
Proof.
  induction n as [| n IH].
  - now rewrite after_0.
  - rewrite ledger_S, length_app, IH. simpl. lia.
Qed.

Lemma ledger_prefix (k n : nat) :
  (k <= n)%nat ->
  firstn k (l_yearly_projections (after n)) = l_yearly_projections (after k).
Proof.
  induction 1 as [| n Hle IH].
  - rewrite <- (ledger_length k) at 1. apply firstn_all.
  - rewrite ledger_S, firstn_app, IH.
    rewrite ledger_length.
    replace (k - n)%nat with O by lia. simpl. apply app_nil_r.
Qed.

(** The k-th record (from 0) is the one appended by iteration k+1. *)
Lemma ledger_nth (n k : nat) :
  (k < n)%nat ->
  nth_error (l_yearly_projections (after n)) k =
  Some (record (Z.of_nat (S k)) (l_portfolio_value (after k))).
Proof.
  intros Hk.
  rewrite <- (firstn_skipn (S k) (l_yearly_projections (after n))).
  rewrite ledger_prefix by lia.
  rewrite nth_error_app1 by (rewrite ledger_length; lia).
  rewrite ledger_S, nth_error_app2 by (rewrite ledger_length; lia).
  rewrite ledger_length, Nat.sub_diag. reflexivity.
Qed.

Lemma value_after (n : nat) :
  l_portfolio_value (after n) =
  match rev (l_yearly_projections (after n)) with
  | [] => initial
  | r :: _ => yp_ending_value r
  end.
Proof.
  destruct n as [| n].
  - now rewrite after_0.
  - rewrite ledger_S, rev_app_distr. simpl. apply value_S.
Qed.

Lemma deferred_after (n : nat) :
  l_deferred_tax_liability (after n) =
  match rev (l_yearly_projections (after n)) with
  | [] => 0
  | r :: _ => yp_deferred_tax_liability r
  end.
Proof.
  destruct n as [| n].
  - now rewrite after_0.
  - rewrite ledger_S, rev_app_distr. simpl. rewrite after_S. reflexivity.
Qed.

Lemma totals_after (n : nat) :
  l_total_fees (after n) = py_sum (map yp_fees (l_yearly_projections (after n))) /\
  l_total_taxes (after n) = py_sum (map yp_taxes (l_yearly_projections (after n))) /\
  l_total_cash_flows (after n) =
    py_sum (map yp_cash_flow (l_yearly_projections (after n))).
Proof.
  induction n as [| n (IHf & IHt & IHc)].
  - now rewrite after_0.
  - rewrite ledger_S, !map_app. unfold py_sum in *.
    rewrite !fold_left_app. simpl fold_left.
    rewrite <- IHf, <- IHt, <- IHc, after_S. repeat split.
Qed.

End Loop.

Section Project.
Variables (allocation growth_rates : dict num).
Variables (fee initial cash tax : num) (acct : string).

Let project := project_portfolio_with_taxes allocation growth_rates fee initial cash tax acct.
Let war := blended_return allocation growth_rates.
Let taxable := String.eqb acct "Brokerage".
Let deferred := String.eqb acct "Traditional IRA".

Lemma project_ledger (years : Z) :
  yearly_projections (project years) =
  l_yearly_projections
    (run_loop war fee cash tax taxable deferred initial (Z.of_nat (Z.to_nat years))).
Proof.
  unfold project, project_portfolio_with_taxes. simpl.
  now rewrite run_loop_of_nat.
Qed.

Lemma project_length (years : Z) :
  List.length (yearly_projections (project years)) = Z.to_nat years.
Proof. rewrite project_ledger. apply ledger_length. Qed.

(** Every record of the ledger is the record of its year, computed from the
    value at which that year starts. *)
Lemma project_record (years : Z) (k : nat) (yp : YearlyProjection num) :
  nth_error (yearly_projections (project years)) k = Some yp ->
  exists v, yp = year_record war fee cash tax taxable deferred (Z.of_nat (S k)) v.
Proof.
  intros H.
  assert (Hk : (k < Z.to_nat years)%nat).
  { rewrite <- project_length. apply nth_error_Some. congruence. }
  rewrite project_ledger, ledger_nth in H by assumption.
  injection H as <-. eauto.
Qed.

(** C7. The ledger of a projection chains: the first record starts at the
    initial value, every record starts at the ending value of the record
    before it, the records are in year order (year k+1 at position k, one per
    year of the horizon), and no record changes once appended: the ledger of
    a shorter horizon is the beginning of the ledger of a longer one. *)
Theorem ledger_chains (years : Z) :
  let ledger := yearly_projections (project years) in
  List.length ledger = Z.to_nat years /\
  (forall r, nth_error ledger 0 = Some r -> yp_starting_value r = initial) /\
  (forall k a b,
      nth_error ledger k = Some a -> nth_error ledger (S k) = Some b ->
      yp_ending_value a = yp_starting_value b) /\
  (forall k r, nth_error ledger k = Some r -> yp_year r = Z.of_nat (S k)) /\
  (forall k, (k <= Z.to_nat years)%nat ->
      yearly_projections (project (Z.of_nat k)) = firstn k ledger).
Proof.
  intros ledger. subst ledger.
  split; [apply project_length |].
  assert (Hlt : forall k r, nth_error (yearly_projections (project years)) k = Some r ->
                            (k < Z.to_nat years)%nat).
  { intros k r H. rewrite <- project_length. apply nth_error_Some. congruence. }
  repeat split.
  - intros r H. pose proof (Hlt _ _ H) as Hk.
    rewrite project_ledger, ledger_nth in H by assumption.
    injection H as <-. unfold year_record. cbn [yp_starting_value].
    reflexivity.
  - intros k a b Ha Hb.
    pose proof (Hlt _ _ Ha) as Hka. pose proof (Hlt _ _ Hb) as Hkb.
    rewrite project_ledger, ledger_nth in Ha, Hb by assumption.
    injection Ha as <-. injection Hb as <-.
    unfold year_record at 2. cbn [yp_starting_value].
    symmetry. exact (value_S war fee cash tax taxable deferred initial k).
  - intros k r H. apply project_record in H as [v ->]. reflexivity.
  - intros k Hk. rewrite !project_ledger, Nat2Z.id.
    symmetry. now apply ledger_prefix.
Qed.

(** C10. The totals of a projection are those of its ledger: total_fees,
    total_taxes and total_cash_flows are the sums (Python's [sum], from 0 and
    in year order) of the fees, taxes and cash_flow of the yearly records, and
    final_portfolio_value is the ending_value of the last record, or the
    initial value when the ledger is empty. *)
Theorem totals_match_ledger (years : Z) :
  let r := project years in
  total_fees r = py_sum (map yp_fees (yearly_projections r)) /\
  total_taxes r = py_sum (map yp_taxes (yearly_projections r)) /\
  total_cash_flows r = py_sum (map yp_cash_flow (yearly_projections r)) /\
  final_portfolio_value r =
    match rev (yearly_projections r) with
    | [] => initial
    | last :: _ => yp_ending_value last
    end.
Proof.
  intros r. subst r.
  unfold project, project_portfolio_with_taxes. simpl.
  rewrite run_loop_of_nat.
  destruct (totals_after war fee cash tax taxable deferred initial (Z.to_nat years))
    as (Hf & Ht & Hc).
  repeat split; try assumption. apply value_after.
Qed.

Lemma yearly_deferred (years : Z) (k : nat) (yp : YearlyProjection num) :
  nth_error (yearly_projections (project years)) k = Some yp ->
  yp_deferred_tax_liability yp =
    if String.eqb acct "Traditional IRA" then yp_ending_value yp * tax else 0.
Proof. intros H. apply project_record in H as [v ->]. reflexivity. Qed.

(** C5. In every year the deferred_tax_liability recorded is that year's
    ending_value times the tax rate when the account type is
    'Traditional IRA', and 0 for any other account type; an iteration does
    not read the liability left by the year before (the loop body gives the
    same state whatever that value is); and the deferred_tax_liability of the
    result is that of the last record (0 when there is none). *)
Theorem deferred_liability_snapshot (years : Z) :
  let r := project years in
  (forall k yp, nth_error (yearly_projections r) k = Some yp ->
     yp_deferred_tax_liability yp =
       if String.eqb acct "Traditional IRA" then yp_ending_value yp * tax else 0) /\
  (forall s previous year,
     loop_body war fee cash tax taxable deferred (with_deferred previous s) year =
     loop_body war fee cash tax taxable deferred s year) /\
  deferred_tax_liability r =
    match rev (yearly_projections r) with
    | [] => 0
    | last :: _ => yp_deferred_tax_liability last
    end.
Proof.
  intros r. subst r. repeat split.
  - intros k yp. apply yearly_deferred.
  - unfold project, project_portfolio_with_taxes. simpl.
    rewrite run_loop_of_nat. apply deferred_after.
Qed.

(** The transition of one year, read off its record. *)
Lemma yearly_transition (years : Z) (k : nat) (yp : YearlyProjection num) :
  nth_error (yearly_projections (project years)) k = Some yp ->
  yp_after_cash_flow yp = yp_starting_value yp + cash /\
  yp_growth yp = yp_after_cash_flow yp * weighted_annual_return (project years) /\
  yp_taxes yp =
    (if String.eqb acct "Brokerage" && (0 <? tax) then yp_growth yp * tax else 0) /\
  yp_fees yp = (yp_after_cash_flow yp + yp_growth yp - yp_taxes yp) * fee /\
  yp_ending_value yp = yp_after_cash_flow yp + yp_growth yp - yp_taxes yp - yp_fees yp.
Proof.
  intros H. apply project_record in H as [v ->]. repeat split.
Qed.

(** With [years <= 0] the loop body is not run. *)
Lemma project_nonpositive_horizon (years : Z) :
  (years <= 0)%Z ->
  project years =
  {| weighted_annual_return := war;
     final_portfolio_value := initial;
     total_fees := 0;
     total_taxes := 0;
     total_cash_flows := 0;
     deferred_tax_liability := 0;
     account_type := acct;
     yearly_projections := [] |}.
Proof.
  intros H. unfold project, project_portfolio_with_taxes.
  rewrite run_loop_nonpos by assumption. reflexivity.
Qed.

End Project.

(** The account type is read through two tests only. *)
Lemma project_other_account_type
  (allocation growth_rates : dict num) (fee initial cash tax : num)
  (acct : string) (years : Z) :
  String.eqb acct "Brokerage" = false ->
  String.eqb acct "Traditional IRA" = false ->
  let r := project_portfolio_with_taxes allocation growth_rates fee initial cash tax acct years in
  let roth :=
    project_portfolio_with_taxes allocation growth_rates fee initial cash tax "Roth IRA" years in
  yearly_projections r = yearly_projections roth /\
  final_portfolio_value r = final_portfolio_value roth /\
  total_fees r = total_fees roth /\
  total_taxes r = total_taxes roth /\
  total_cash_flows r = total_cash_flows roth /\
  deferred_tax_liability r = deferred_tax_liability roth.
Proof.
  intros Hb Ht. unfold project_portfolio_with_taxes. rewrite Hb, Ht.
  repeat split.
Qed.

End WithFloat.

Import Ideal.
Local Open Scope string_scope.
Local Open Scope R_scope.

(** C2, as the specification has it, fails: a call with [years = 0] returns
    a projection (no yearly record, the initial value as final value), and so
    does a call with an account type that is none of the three; the
    specification has both refused. *)
Lemma project_accepts_invalid_input :
  let allocation := [("Equity", Some 1)] in
  let growth_rates := [("Equity", Some (7/100))] in
  (inr (project_portfolio_with_taxes allocation growth_rates
          (Some (1/100)) (Some 1) (Some 0) (Some 0) "Brokerage" 0)
   <> validated_projection allocation growth_rates
          (Some (1/100)) (Some 1) (Some 0) (Some 0) "Brokerage" 0) /\
  (inr (project_portfolio_with_taxes allocation growth_rates
          (Some (1/100)) (Some 1) (Some 0) (Some 0) "401k" 1)
   <> validated_projection allocation growth_rates
          (Some (1/100)) (Some 1) (Some 0) (Some 0) "401k" 1) /\
  yearly_projections
    (project_portfolio_with_taxes allocation growth_rates
       (Some (1/100)) (Some 1) (Some 0) (Some 0) "Brokerage" 0) = [] /\
  final_portfolio_value
    (project_portfolio_with_taxes allocation growth_rates
       (Some (1/100)) (Some 1) (Some 0) (Some 0) "Brokerage" 0) = Some 1.
Proof.
  intros allocation growth_rates. repeat split; discriminate.
Qed.

(** C2, amended. A projection validates neither the horizon nor the account
    type, and every call returns. With [years <= 0] the loop body is not run:
    the ledger is empty, the final value is the initial value and the totals
    and the deferred liability are 0. With an account type other than
    'Brokerage' and 'Traditional IRA' the ledger and the totals are those of
    'Roth IRA': no taxes and no deferred liability in any year. *)
Theorem project_does_not_validate :
  forall (num : Type) (F : PyFloat num)
         (allocation growth_rates : dict num) (fee initial cash tax : num)
         (acct : string) (years : Z),
    let r := project_portfolio_with_taxes allocation growth_rates fee initial
               cash tax acct years in
    let roth := project_portfolio_with_taxes allocation growth_rates fee initial
                  cash tax "Roth IRA" years in
    ((years <= 0)%Z ->
       yearly_projections r = [] /\
       (final_portfolio_value r = initial /\
        total_fees r = 0 /\ total_taxes r = 0 /\ total_cash_flows r = 0 /\
        deferred_tax_liability r = 0)%py) /\
    (String.eqb acct "Brokerage" = false ->
     String.eqb acct "Traditional IRA" = false ->
       (yearly_projections r = yearly_projections roth /\
        final_portfolio_value r = final_portfolio_value roth /\
        total_fees r = total_fees roth /\
        total_taxes r = total_taxes roth /\
        total_cash_flows r = total_cash_flows roth /\
        deferred_tax_liability r = deferred_tax_liability roth) /\
       (forall k yp, nth_error (yearly_projections r) k = Some yp ->
          (yp_taxes yp = 0 /\ yp_deferred_tax_liability yp = 0)%py)).
Proof.
  intros num F allocation growth_rates fee initial cash tax acct years r roth.
  split.
  - intros H. subst r. rewrite project_nonpositive_horizon by assumption.
    repeat split.
  - intros Hb Ht. split.
    + now apply project_other_account_type.
    + intros k yp H. subst r.
      destruct (yearly_transition _ _ _ _ _ _ _ _ _ H) as (_ & _ & Htax & _).
      pose proof (yearly_deferred _ _ _ _ _ _ _ _ _ H) as Hd.
      rewrite Hb in Htax. rewrite Ht in Hd.
      split; assumption.
Qed.

(** *** The scenario of the specification, in exact arithmetic and on
    binary64 *)

Import PrimFloat Binary64.
#[local] Set Warnings "-inexact-float".

Lemma yearly_scenario_exact :
  let r := project_portfolio_with_taxes
             [("Equity", Some 1)] [("Equity", Some (7/100))]
             (Some (1/100)) (Some 1) (Some 0) (Some 0) "Brokerage" 1 in
  exists yp,
    yearly_projections r = [yp] /\
    yp_growth yp = Some (7/100) /\
    yp_taxes yp = Some 0 /\
    yp_fees yp = Some (107/10000) /\
    yp_ending_value yp = Some (10593/10000).
Proof.
  intros r. eexists. split.
  - subst r. ideal_eval. decide_R. reflexivity.
  - ideal_eval. repeat split; f_equal; lra.
Qed.

(** The same call on the floats of the program. *)
Lemma yearly_scenario_binary64 :
  yearly_projections
    (project_portfolio_with_taxes
       [("Equity", 1%float)] [("Equity", 0.07%float)]
       0.01%float 1%float 0%float 0%float "Brokerage" 1)
  = [ {| yp_year := 1;
         yp_starting_value := 1%float;
         yp_cash_flow := 0%float;
         yp_after_cash_flow := 1%float;
         yp_growth := 0.07%float;
         yp_taxes := 0%float;
         yp_fees := 0.010700000000000001%float;
         yp_ending_value := 1.0593000000000001%float;
         yp_annual_return := 0.07%float;
         yp_deferred_tax_liability := 0%float |} ].
Proof. vm_compute. reflexivity. Qed.

(** Two floats that [=?] tells apart are not equal. *)
Lemma float_neq (x y : float) : (x =? y)%float = false -> (y =? y)%float = true -> x <> y.
Proof. intros Hxy Hyy ->. congruence. Qed.

(** C1, amended. In every yearly record of a projection: after_cash_flow is
    the starting value plus the cash flow; growth is after_cash_flow times
    the weighted annual return; taxes are growth times the tax rate when the
    account type is 'Brokerage' and the tax rate is positive, and 0
    otherwise; fees are the value after growth and taxes times the fee rate;
    the ending value is what is left after the fees.  For allocation
    {Equity: 1}, growth rates {Equity: 0.07}, fee rate 0.01, tax rate 0,
    'Brokerage', initial value 1, cash flow 0 and one year, the single record
    has growth 0.07 and taxes 0; its fees and ending value are 0.0107 and
    1.0593 in exact arithmetic, and the floats 0.010700000000000001 and
    1.0593000000000001 on binary64. *)
Theorem yearly_order_of_operations :
  (forall (num : Type) (F : PyFloat num)
          (allocation growth_rates : dict num) (fee initial cash tax : num)
          (acct : string) (years : Z) (k : nat) (yp : YearlyProjection num),
      let r := project_portfolio_with_taxes allocation growth_rates fee initial
                 cash tax acct years in
      nth_error (yearly_projections r) k = Some yp ->
      (yp_after_cash_flow yp = yp_starting_value yp + cash /\
       yp_growth yp = yp_after_cash_flow yp * weighted_annual_return r /\
       yp_taxes yp =
         (if String.eqb acct "Brokerage" && (0 <? tax)
          then yp_growth yp * tax else 0) /\
       yp_fees yp = (yp_after_cash_flow yp + yp_growth yp - yp_taxes yp) * fee /\
       yp_ending_value yp =
         yp_after_cash_flow yp + yp_growth yp - yp_taxes yp - yp_fees yp)%py) /\
  (let r := project_portfolio_with_taxes
              [("Equity", Some 1)] [("Equity", Some (7/100))]
              (Some (1/100)) (Some 1) (Some 0) (Some 0) "Brokerage" 1 in
   exists yp,
     yearly_projections r = [yp] /\
     yp_growth yp = Some (7/100) /\
     yp_taxes yp = Some 0 /\
     yp_fees yp = Some (107/10000) /\
     yp_ending_value yp = Some (10593/10000)) /\
  (let r := project_portfolio_with_taxes
              [("Equity", 1%float)] [("Equity", 0.07%float)]
              0.01%float 1%float 0%float 0%float "Brokerage" 1 in
   exists yp,
     yearly_projections r = [yp] /\
     yp_growth yp = 0.07%float /\
     yp_taxes yp = 0%float /\
     yp_fees yp = 0.010700000000000001%float /\
     yp_ending_value yp = 1.0593000000000001%float).
Proof.
  split; [| split].
  - intros num F allocation growth_rates fee initial cash tax acct years k yp r H.
    exact (yearly_transition _ _ _ _ _ _ _ _ _ H).
  - exact yearly_scenario_exact.
  - intros r. subst r. rewrite yearly_scenario_binary64.
    eexists. split; [reflexivity |]. repeat split.
Qed.

(** C1, as the specification has it, fails on the floats of the program:
    in the scenario the fees are not the float 0.0107 and the ending value
    is not the float 1.0593. *)
Lemma scenario_figures_are_rounded :
  let r := project_portfolio_with_taxes
             [("Equity", 1%float)] [("Equity", 0.07%float)]
             0.01%float 1%float 0%float 0%float "Brokerage" 1 in
  exists yp,
    yearly_projections r = [yp] /\
    yp_fees yp <> 0.0107%float /\
    yp_ending_value yp <> 1.0593%float.
Proof.
  intros r. subst r. rewrite yearly_scenario_binary64.
  eexists. split; [reflexivity |]. cbn [yp_fees yp_ending_value].
  split; apply float_neq; reflexivity.
Qed.

End ProjectorFacts.

(** ** The aggregation of projections *)

Lemma list_set_app {A : Type} (pre : list A) (a v : A) (post : list A) :
  list_set (List.length pre) v (pre ++ a :: post) = pre ++ v :: post.
Proof. induction pre as [| x pre IH]; simpl; [reflexivity | now rewrite IH]. Qed.

Lemma nth_error_middle {A : Type} (pre : list A) (a : A) (post : list A) :
  nth_error (pre ++ a :: post) (List.length pre) = Some a.
Proof. induction pre as [| x pre IH]; simpl; [reflexivity | exact IH]. Qed.

Module AggregatorFacts.
Import Performance PortfolioRouter.
Section WithFloat.
Context {num : Type} {F : PyFloat num}.
Local Open Scope string_scope.
Local Open Scope list_scope.
Local Open Scope py_scope.

(** *** The loop over the records of one projection *)

Lemma rows_of_aggregate_dict (hdr : Projection num) (sums : list (YearlyProjection num)) :
  agg_rows (aggregate_dict hdr sums) = Ok (map first_row sums).
Proof. reflexivity. Qed.

(** One [+=] on the row at position [length pre]. *)
Lemma row_iadd_at (hdr : Projection num) (pre post : list (row num))
  (r r' : row num) (k : string) (x : num) (c : cell num) :
  dict_get k r = Some c ->
  dict_set k (cell_add c x) r = r' ->
  row_iadd (List.length pre) k x (aggregate_with hdr (pre ++ r :: post))
  = Ok (aggregate_with hdr (pre ++ r' :: post)).
Proof.
  intros Hget Hset. unfold row_iadd.
  change (agg_rows (aggregate_with hdr (pre ++ r :: post)))
    with (Ok (pre ++ r :: post)).
  cbn [bind].
  rewrite nth_error_middle. unfold dict_item. rewrite Hget. cbn [bind].
  rewrite list_set_app, Hset. reflexivity.
Qed.

Lemma add_yearly_at (hdr : Projection num) (pre post : list (YearlyProjection num))
  (a yp : YearlyProjection num) :
  add_yearly (aggregate_dict hdr (pre ++ a :: post)) (List.length pre, yp)
  = Ok (aggregate_dict hdr (pre ++ sum_yearly a yp :: post)).
Proof.
  unfold add_yearly. rewrite rows_of_aggregate_dict. cbn [bind fst snd].
  replace (List.length pre <? List.length (map first_row (pre ++ a :: post)))%nat
    with true
    by (symmetry; apply Nat.ltb_lt; rewrite length_map, length_app; simpl; lia).
  unfold aggregate_dict. rewrite !map_app. cbn [map].
  replace (List.length pre) with (List.length (map first_row pre))
    by apply length_map.
  erewrite row_iadd_at by reflexivity. cbn [bind].
  erewrite row_iadd_at by reflexivity. cbn [bind].
  erewrite row_iadd_at by reflexivity. cbn [bind].
  erewrite row_iadd_at by reflexivity. cbn [bind].
  erewrite row_iadd_at by reflexivity. cbn [bind].
  erewrite row_iadd_at by reflexivity. cbn [bind].
  erewrite row_iadd_at by reflexivity.
  reflexivity.
Qed.

Lemma add_yearly_beyond (hdr : Projection num) (sums : list (YearlyProjection num))
  (yp : YearlyProjection num) (i : nat) :
  (List.length sums <= i)%nat ->
  add_yearly (aggregate_dict hdr sums) (i, yp) = Ok (aggregate_dict hdr sums).
Proof.
  intros Hi. unfold add_yearly. rewrite rows_of_aggregate_dict. cbn [bind fst snd].
  replace (i <? List.length (map first_row sums))%nat with false
    by (symmetry; apply Nat.ltb_ge; now rewrite length_map).
  reflexivity.
Qed.

Lemma add_all_beyond (hdr : Projection num) (sums yps : list (YearlyProjection num))
  (i : nat) :
  (List.length sums <= i)%nat ->
  foldM add_yearly (combine (seq i (List.length yps)) yps) (aggregate_dict hdr sums)
  = Ok (aggregate_dict hdr sums).
Proof.
  revert i. induction yps as [| yp yps IH]; intros i Hi; [reflexivity |].
  cbn [List.length seq combine foldM].
  rewrite add_yearly_beyond by assumption. cbn [bind]. apply IH. lia.
Qed.

Lemma add_all_yearly (hdr : Projection num) (yps pre sums : list (YearlyProjection num)) :
  foldM add_yearly (combine (seq (List.length pre) (List.length yps)) yps)
        (aggregate_dict hdr (pre ++ sums))
  = Ok (aggregate_dict hdr (pre ++ sum_ledgers sums yps)).
Proof.
  revert pre sums. induction yps as [| yp yps IH]; intros pre sums.
  - destruct sums; reflexivity.
  - destruct sums as [| a sums].
    + cbn [sum_ledgers]. apply add_all_beyond. rewrite app_nil_r. lia.
    + cbn [List.length seq combine foldM].
      rewrite add_yearly_at. cbn [bind sum_ledgers].
      specialize (IH (pre ++ [sum_yearly a yp]) sums).
      rewrite length_app in IH. cbn [List.length] in IH.
      rewrite Nat.add_1_r, <- !app_assoc in IH. exact IH.
Qed.

(** The loop over [enumerate(p_projection['yearly_projections'])]. *)
Lemma add_enumerated (hdr : Projection num) (sums yps : list (YearlyProjection num)) :
  foldM add_yearly (enumerate yps) (aggregate_dict hdr sums)
  = Ok (aggregate_dict hdr (sum_ledgers sums yps)).
Proof. exact (add_all_yearly hdr yps [] sums). Qed.

(** *** One further projection *)

Lemma add_projection_sums (hdr p : Projection num) (sums : list (YearlyProjection num)) :
  add_projection p (aggregate_dict hdr sums)
  = Ok (aggregate_dict (sum_header hdr p) (sum_ledgers sums (yearly_projections p))).
Proof.
  unfold add_projection.
  change (foldM add_yearly (enumerate (yearly_projections p))
            (aggregate_dict (sum_header hdr p) sums)
          = Ok (aggregate_dict (sum_header hdr p)
                  (sum_ledgers sums (yearly_projections p)))).
  apply add_enumerated.
Qed.

(** *** The loop over the portfolios *)

Lemma sum_ledgers_length (sums yps : list (YearlyProjection num)) :
  List.length (sum_ledgers sums yps) = List.length sums.
Proof.
  revert yps. induction sums as [| a sums IH]; intros [| yp yps]; simpl; auto.
Qed.

Lemma sum_ledgers_nth (k : nat) (sums yps : list (YearlyProjection num))
  (a yp : YearlyProjection num) :
  nth_error sums k = Some a -> nth_error yps k = Some yp ->
  nth_error (sum_ledgers sums yps) k = Some (sum_yearly a yp).
Proof.
  revert sums yps. induction k as [| k IH]; intros [| a' sums] [| yp' yps];
    simpl; try discriminate.
  - now intros [= ->] [= ->].
  - apply IH.
Qed.

(** The row of year [k] after further projections with a record for that
    year: each summed field holds the sum, in the order of the projections. *)
Lemma fold_sum_ledgers_nth (k : nat) (ps : list (Projection num)) :
  Forall (fun p => (k < List.length (yearly_projections p))%nat) ps ->
  forall (sums : list (YearlyProjection num)) (a : YearlyProjection num),
    nth_error sums k = Some a ->
    exists a',
      nth_error (fold_left sum_ledgers (map (@yearly_projections num) ps) sums) k
        = Some a' /\
      forall f : YearlyProjection num -> num,
        (forall x y, f (sum_yearly x y) = f x + f y) ->
        f a' = fold_left fadd (map (year_value f k) ps) (f a).
Proof.
  induction 1 as [| p ps Hp _ IH]; intros sums a Ha.
  - exists a. split; [exact Ha | reflexivity].
  - destruct (nth_error (yearly_projections p) k) as [yp |] eqn:Hyp.
    2: { apply nth_error_None in Hyp. lia. }
    destruct (IH _ _ (sum_ledgers_nth _ _ _ Ha Hyp)) as (a' & Hnth & Hsum).
    exists a'. split; [exact Hnth |].
    intros f Hf. rewrite (Hsum f Hf), Hf.
    cbn [map fold_left]. unfold year_value at 3. now rewrite Hyp.
Qed.

Lemma fold_sum_ledgers_length (ls : list (list (YearlyProjection num)))
  (sums : list (YearlyProjection num)) :
  List.length (fold_left sum_ledgers ls sums) = List.length sums.
Proof.
  revert sums. induction ls as [| l ls IH]; intros sums; [reflexivity |].
  cbn [fold_left]. now rewrite IH, sum_ledgers_length.
Qed.

Lemma fold_sum_header_return (ps : list (Projection num)) (hdr : Projection num) :
  weighted_annual_return (fold_left sum_header ps hdr) = weighted_annual_return hdr.
Proof.
  revert hdr. induction ps as [| p ps IH]; intros hdr; [reflexivity |].
  cbn [fold_left]. now rewrite IH.
Qed.

Section Loop.
Variable Portfolio :
  dict num -> string -> num -> option (dict string) -> PortfolioAttrs num.
Variable growth_rates : dict num.
Variable tax_rate : num.

Let body := aggregate_body Portfolio growth_rates tax_rate.
Let projections := projected Portfolio growth_rates tax_rate.

Lemma loop_from_aggregate (ps : list (SinglePortfolioData num))
  (hdr : Projection num) (sums : list (YearlyProjection num)) :
  foldM body ps (Some (aggregate_dict hdr sums)) =
  Ok (Some (aggregate_dict
              (fold_left sum_header (projections ps) hdr)
              (fold_left sum_ledgers
                 (map (@yearly_projections num) (projections ps)) sums))).
Proof.
  revert hdr sums. induction ps as [| p ps IH]; intros hdr sums; [reflexivity |].
  cbn [foldM]. unfold body at 1, aggregate_body.
  unfold projections, projected. cbn [filter].
  destruct (no_holdings p); cbn [negb map fold_left bind].
  - apply IH.
  - rewrite add_projection_sums. cbn [bind]. apply IH.
Qed.

(** The aggregate when the loop is over: nothing when no portfolio has
    holdings; otherwise the first projection, to which the others are added. *)
Lemma loop_result (ps : list (SinglePortfolioData num)) :
  aggregate_projections_of Portfolio growth_rates tax_rate ps =
  Ok match projections ps with
     | [] => None
     | first :: rest =>
         Some (aggregate_dict
                 (fold_left sum_header rest first)
                 (fold_left sum_ledgers (map (@yearly_projections num) rest)
                    (yearly_projections first)))
     end.
Proof.
  unfold aggregate_projections_of.
  induction ps as [| p ps IH]; [reflexivity |].
  cbn [foldM]. unfold aggregate_body at 1.
  unfold projections, projected. cbn [filter].
  destruct (no_holdings p); cbn [negb map bind].
  - exact IH.
  - exact (loop_from_aggregate ps _ _).
Qed.

(** Every projection of the loop has the ten records of its ten years. *)
Lemma projections_ten_years (ps : list (SinglePortfolioData num)) :
  Forall (fun p => List.length (yearly_projections p) = 10%nat) (projections ps).
Proof.
  unfold projections, projected. apply Forall_map, Forall_forall. intros p _.
  unfold portfolio_projection. now rewrite ProjectorFacts.project_length.
Qed.

(** C4, amended. The loop projects each portfolio that has holdings on its
    own, with its own account type, cash flow and fee rate (a portfolio
    without holdings is passed over), and adds the ledgers up position by
    position: the aggregate has ten yearly rows, and in the row of year k
    each of starting_value, ending_value, growth, fees, taxes, cash_flow and
    deferred_tax_liability is the sum, in the order of the portfolios, of the
    year-k values of those projections.  When no portfolio has holdings the
    loop leaves no aggregate. *)
Theorem aggregate_sums_ledgers (ps : list (SinglePortfolioData num)) :
  match projections ps with
  | [] => aggregate_projections_of Portfolio growth_rates tax_rate ps = Ok None
  | first :: rest =>
      exists agg rs,
        aggregate_projections_of Portfolio growth_rates tax_rate ps = Ok (Some agg) /\
        dict_get "yearly_projections" agg = Some (ARows rs) /\
        List.length rs = 10%nat /\
        forall k, (k < 10)%nat ->
          exists r,
            nth_error rs k = Some r /\
            dict_get "starting_value" r =
              Some (CFloat (ledger_total (@yp_starting_value num) k first rest)) /\
            dict_get "ending_value" r =
              Some (CFloat (ledger_total (@yp_ending_value num) k first rest)) /\
            dict_get "growth" r =
              Some (CFloat (ledger_total (@yp_growth num) k first rest)) /\
            dict_get "fees" r =
              Some (CFloat (ledger_total (@yp_fees num) k first rest)) /\
            dict_get "taxes" r =
              Some (CFloat (ledger_total (@yp_taxes num) k first rest)) /\
            dict_get "cash_flow" r =
              Some (CFloat (ledger_total (@yp_cash_flow num) k first rest)) /\
            dict_get "deferred_tax_liability" r =
              Some (CFloat (ledger_total (@yp_deferred_tax_liability num) k first rest))
  end.
Proof.
  rewrite loop_result. pose proof (projections_ten_years ps) as Hten.
  destruct (projections ps) as [| first rest]; [reflexivity |].
  inversion Hten as [| ? ? Hfirst Hrest]; subst.
  eexists. eexists. split; [reflexivity |]. split; [reflexivity |]. split.
  - now rewrite length_map, fold_sum_ledgers_length.
  - intros k Hk.
    destruct (nth_error (yearly_projections first) k) as [a |] eqn:Ha.
    2: { apply nth_error_None in Ha. lia. }
    destruct (@fold_sum_ledgers_nth k rest) with (sums := yearly_projections first) (a := a)
      as (a' & Hnth & Hsum); [| exact Ha |].
    { eapply Forall_impl; [| exact Hrest]. cbv beta. intros p Hp. lia. }
    exists (first_row a'). split; [now apply map_nth_error |].
    unfold ledger_total, year_value at 2 4 6 8 10 12 14. rewrite Ha.
    repeat split; cbn [first_row dict_get String.eqb Ascii.eqb Bool.eqb];
      do 2 f_equal; now apply Hsum.
Qed.

(** C9. The weighted_annual_return of the aggregate is that of the first
    portfolio that has holdings: the later projections add to the totals and
    to the rows, never to it; and the aggregate has no 'account_type' key
    (its keys are the seven of the initial dict). *)
Theorem aggregate_return_is_first (ps : list (SinglePortfolioData num)) :
  match projections ps with
  | [] => aggregate_projections_of Portfolio growth_rates tax_rate ps = Ok None
  | first :: rest =>
      exists agg,
        aggregate_projections_of Portfolio growth_rates tax_rate ps = Ok (Some agg) /\
        dict_get "weighted_annual_return" agg =
          Some (AFloat (weighted_annual_return first)) /\
        dict_get "account_type" agg = None /\
        dict_keys agg =
          ["weighted_annual_return"; "final_portfolio_value"; "total_fees";
           "total_taxes"; "total_cash_flows"; "deferred_tax_liability";
           "yearly_projections"]
  end.
Proof.
  rewrite loop_result.
  destruct (projections ps) as [| first rest]; [reflexivity |].
  eexists. split; [reflexivity |]. repeat split.
  cbn [aggregate_dict aggregate_with dict_get String.eqb Ascii.eqb Bool.eqb].
  now rewrite fold_sum_header_return.
Qed.

End Loop.

(** The cash_flow recorded in a year of the horizon is the annual cash flow. *)
Lemma year_value_cash_flow (allocation growth_rates : dict num)
  (fee initial cash tax : num) (acct : string) (years : Z) (k : nat) :
  (k < Z.to_nat years)%nat ->
  year_value (@yp_cash_flow num) k
    (project_portfolio_with_taxes allocation growth_rates fee initial cash tax acct years)
  = cash.
Proof.
  intros Hk. unfold year_value.
  destruct (nth_error _ k) as [yp |] eqn:Hyp.
  - apply ProjectorFacts.project_record in Hyp as [v ->]. reflexivity.
  - apply nth_error_None in Hyp. rewrite ProjectorFacts.project_length in Hyp. lia.
Qed.

End WithFloat.

Import Ideal.
Local Open Scope string_scope.
Local Open Scope R_scope.

(** C4, as the specification has it, fails for a portfolio without holdings:
    it is not projected, so the cash flow it would bring is missing from the
    aggregate.  Here the second portfolio has no holdings and a yearly cash
    flow of 1000: the year-1 cash_flow of the aggregate is 0, the sum over
    the two portfolios' projections is 1000. *)
Lemma empty_portfolio_is_not_summed :
  let Portfolio :=
    fun (_ : dict ideal) (_ : string) (fee : ideal) (_ : option (dict string)) =>
      {| asset_class_allocation := [("Equity", Some 1)];
         weighted_avg_er := Some 0;
         portfolio_advisory_fee := fee |} in
  let growth_rates := [("Equity", Some (7/100))] in
  let A := {| holdings := [("VTI", Some 100)]; advisory_fee := Some 0;
              asset_class_overrides := None; p_account_type := "Brokerage";
              annual_cash_flow := Some 0 |} in
  let B := {| holdings := []; advisory_fee := Some 0;
              asset_class_overrides := None; p_account_type := "Roth IRA";
              annual_cash_flow := Some 1000 |} in
  let pA := portfolio_projection Portfolio growth_rates (Some 0) A in
  let pB := portfolio_projection Portfolio growth_rates (Some 0) B in
  exists agg rs r,
    aggregate_projections_of Portfolio growth_rates (Some 0) [A; B] = Ok (Some agg) /\
    dict_get "yearly_projections" agg = Some (ARows rs) /\
    nth_error rs 0 = Some r /\
    dict_get "cash_flow" r = Some (CFloat (Some 0)) /\
    ledger_total (@yp_cash_flow ideal) 0 pA [pB] = Some 1000 /\
    dict_get "cash_flow" r <> Some (CFloat (ledger_total (@yp_cash_flow ideal) 0 pA [pB])).
Proof.
  intros Portfolio growth_rates A B pA pB.
  assert (HA : year_value (@yp_cash_flow ideal) 0 pA = Some 0)
    by (apply year_value_cash_flow; simpl; lia).
  assert (HB : year_value (@yp_cash_flow ideal) 0 pB = Some 1000)
    by (apply year_value_cash_flow; simpl; lia).
  assert (Htotal : ledger_total (@yp_cash_flow ideal) 0 pA [pB] = Some 1000).
  { unfold ledger_total. cbn [map fold_left]. rewrite HA, HB.
    cbn. f_equal. lra. }
  unfold year_value in HA.
  destruct (nth_error (yearly_projections pA) 0) as [yp |] eqn:Hyp.
  2: { apply nth_error_None in Hyp. unfold pA, portfolio_projection in Hyp.
       rewrite ProjectorFacts.project_length in Hyp. simpl in Hyp. lia. }
  exists (aggregate_dict pA (yearly_projections pA)),
         (map first_row (yearly_projections pA)), (first_row yp).
  split; [| split; [| split; [| split; [| split]]]].
  - rewrite loop_result. reflexivity.
  - reflexivity.
  - now apply map_nth_error.
  - cbn [first_row dict_get String.eqb Ascii.eqb Bool.eqb]. now rewrite HA.
  - exact Htotal.
  - rewrite Htotal. cbn [first_row dict_get String.eqb Ascii.eqb Bool.eqb].
    rewrite HA. intros [= H]. lra.
Qed.

End AggregatorFacts.

(** ** The return calculator and the fees *)

Module ReturnsFacts.
Import Performance.
Section WithFloat.
Context {num : Type} {F : PyFloat num} {P : PyPow num}.
Local Open Scope string_scope.
Local Open Scope list_scope.
Local Open Scope py_scope.

(** [[weights[col] for col in columns]] raises on the first column that is
    not a key of the weights, and only then. *)
Lemma weights_array_ok (weights : dict num) (cols : list string) :
  (forall col, In col cols -> dict_get col weights <> None) ->
  mapM (fun col => dict_item col weights) cols =
  Ok (map (fun col => dict_get_default col 0 weights) cols).
Proof.
  induction cols as [| c cols IH]; intros H; [reflexivity |].
  cbn [mapM map]. unfold dict_item at 1, dict_get_default at 1.
  destruct (dict_get c weights) eqn:Hc.
  - cbn [bind]. rewrite IH; [reflexivity |]. intros col Hin. apply H. now right.
  - exfalso. apply (H c); [now left | exact Hc].
Qed.

Lemma weights_array_raises (weights : dict num) (cols : list string) :
  (exists col, In col cols /\ dict_get col weights = None) ->
  exists col, In col cols /\ dict_get col weights = None /\
    mapM (fun col => dict_item col weights) cols = Raise (KeyError col).
Proof.
  induction cols as [| c cols IH]; intros (col & Hin & Hcol); [destruct Hin |].
  cbn [mapM]. unfold dict_item at 1.
  destruct (dict_get c weights) eqn:Hc.
  - cbn [bind]. destruct Hin as [-> | Hin]; [congruence |].
    destruct IH as (col' & Hin' & Hcol' & Hraise); [eauto |].
    exists col'. rewrite Hraise. repeat split; auto. now right.
  - exists c. repeat split; auto. now left.
Qed.

Lemma missing_column_dec (weights : dict num) (cols : list string) :
  (forall col, In col cols -> dict_get col weights <> None) \/
  (exists col, In col cols /\ dict_get col weights = None).
Proof.
  induction cols as [| c cols [IH | (col & Hin & Hcol)]].
  - left. intros col [].
  - destruct (dict_get c weights) eqn:Hc.
    + left. intros col [<- | Hin]; [congruence | now apply IH].
    + right. exists c. split; [now left | exact Hc].
  - right. exists col. split; [now right | exact Hcol].
Qed.

Lemma weights_array_agree (weights weights' : dict num) (cols : list string) :
  (forall col, In col cols -> dict_get col weights' = dict_get col weights) ->
  mapM (fun col => dict_item col weights') cols =
  mapM (fun col => dict_item col weights) cols.
Proof.
  induction cols as [| c cols IH]; intros H; [reflexivity |].
  cbn [mapM]. unfold dict_item at 1 3. rewrite (H c) by now left.
  rewrite IH; [reflexivity |]. intros col Hin. apply H. now right.
Qed.

(** With at most one row of prices, no row of returns is left. *)
Lemma no_returns_of_one_row (prices : DataFrame num) :
  (rows prices = [] \/ exists x xs, rows prices = [x :: xs]) ->
  rows (dropna (pct_change prices)) = [].
Proof.
  intros [H | (x & xs & H)]; unfold dropna, pct_change; cbn [rows]; rewrite H.
  - reflexivity.
  - cbn [pct_change_from map filter existsb]. now rewrite fisnan_nan.
Qed.

(** A power raises what [fpow_error] says, and nothing else. *)
Lemma py_pow_raises (x y : num) (e : exn) :
  py_pow x y = Raise e -> fpow_error x y = Some e.
Proof. unfold py_pow. destruct (fpow_error x y); intros [=]. now subst. Qed.

Lemma expense_factor_raises (ers : dict num) (tw : string * num) (e : exn) :
  expense_factor ers tw = Raise e -> exists x y, fpow_error x y = Some e.
Proof.
  unfold expense_factor, daily_factor. cbv zeta. destruct (0 <? _); [| discriminate].
  destruct (py_pow (1 - _) _) as [d |] eqn:Hd; cbn [bind].
  - destruct (py_pow d (snd tw)) eqn:Hf; cbn [bind]; [discriminate |].
    intros [= ->]. eauto using py_pow_raises.
  - intros [= ->]. eauto using py_pow_raises.
Qed.

Lemma mapM_raises {A B : Type} (f : A -> result B) (l : list A) (e : exn) :
  mapM f l = Raise e -> exists a, In a l /\ f a = Raise e.
Proof.
  induction l as [| a l IH]; cbn [mapM]; [discriminate |].
  destruct (f a) eqn:Ha; cbn [bind].
  - destruct (mapM f l); cbn [bind]; [discriminate |].
    intros H. destruct (IH H) as (a' & Hin & Ha'). exists a'. split; [now right | exact Ha'].
  - intros [= ->]. exists a. split; [now left | exact Ha].
Qed.

Lemma expense_layers_pointwise (ers weights : dict num) (rs : Series num) :
  foldM (expense_layer ers) weights rs =
  (fs <- mapM (expense_factor ers) weights ;;
   Ok (map (fun r =>
              fold_left (fun x factor => (1 + x) * factor - 1)
                (flat_map (fun f => match f with Some x => [x] | None => [] end) fs) r)
           rs)).
Proof.
  revert rs. induction weights as [| tw weights IH]; intros rs.
  - cbn [foldM mapM bind flat_map fold_left]. now rewrite map_id.
  - cbn [foldM mapM]. unfold expense_layer at 1.
    destruct (expense_factor ers tw) as [[f |] | e]; cbn [bind]; [| | reflexivity].
    + rewrite IH. destruct (mapM (expense_factor ers) weights); cbn [bind]; [| reflexivity].
      cbn [flat_map app fold_left]. unfold deduct. now rewrite map_map.
    + rewrite IH. destruct (mapM (expense_factor ers) weights); reflexivity.
Qed.

(** What [apply_fees] does to each period: the advisory fee first, then the
    layers of the expense ratios, in the order of the weights; and it raises
    what the first power that raises does, in that same order. *)
Lemma apply_fees_pointwise (rs : Series num) (adv : num)
  (ers : option (dict num)) (weights : dict num) :
  apply_fees rs adv ers weights =
  (d <- daily_factor adv ;;
   fs <- expense_factors ers weights ;;
   Ok (map (fun r =>
              fold_left (fun x factor => (1 + x) * factor - 1) fs
                ((1 + r) * d - 1)) rs)).
Proof.
  unfold apply_fees, expense_factors.
  destruct (daily_factor adv) as [d | e]; cbn [bind]; [| reflexivity].
  destruct ers as [[| e0 ers] |]; cbn [bind]; try reflexivity.
  rewrite expense_layers_pointwise.
  destruct (mapM (expense_factor (e0 :: ers)) weights); cbn [bind]; [| reflexivity].
  unfold deduct. now rewrite map_map.
Qed.

(** Without expense ratios (none, or an empty dict) the advisory layer is
    the only one, whatever the weights. *)
Lemma apply_fees_advisory_only (rs : Series num) (adv : num)
  (ers : option (dict num)) (weights : dict num) :
  ers = None \/ ers = Some [] ->
  apply_fees rs adv ers weights = (d <- daily_factor adv ;; Ok (deduct d rs)).
Proof. intros [-> | ->]; reflexivity. Qed.

Lemma apply_fees_length (rs s : Series num) (adv : num)
  (ers : option (dict num)) (weights : dict num) :
  apply_fees rs adv ers weights = Ok s -> List.length s = List.length rs.
Proof.
  rewrite apply_fees_pointwise.
  destruct (daily_factor adv); cbn [bind]; [| discriminate].
  destruct (expense_factors ers weights); cbn [bind]; [| discriminate].
  intros [= <-]. apply length_map.
Qed.

(** The only errors of [apply_fees] are those of a power. *)
Lemma apply_fees_raises (rs : Series num) (adv : num)
  (ers : option (dict num)) (weights : dict num) (e : exn) :
  apply_fees rs adv ers weights = Raise e -> exists x y, fpow_error x y = Some e.
Proof.
  rewrite apply_fees_pointwise.
  destruct (daily_factor adv) eqn:Hd; cbn [bind].
  - unfold expense_factors. destruct ers as [[| e0 ers] |]; cbn [bind]; try discriminate.
    destruct (mapM (expense_factor (e0 :: ers)) weights) eqn:Hm; cbn [bind]; [discriminate |].
    intros [= ->]. apply mapM_raises in Hm as (tw & _ & Htw).
    eapply expense_factor_raises. exact Htw.
  - intros [= ->]. unfold daily_factor in Hd. eauto using py_pow_raises.
Qed.

(** The returns, column by column: a KeyError for the first column of the
    prices that has no weight; otherwise the fee layers applied to the sums
    of the price columns, weighted. *)
Lemma returns_by_column (prices : DataFrame num) (weights : dict num) (adv : num)
  (ers : option (dict num)) :
  ((exists col, In col (columns prices) /\ dict_get col weights = None) ->
     exists col, In col (columns prices) /\ dict_get col weights = None /\
       calculate_portfolio_returns prices weights adv ers = Raise (KeyError col)) /\
  ((forall col, In col (columns prices) -> dict_get col weights <> None) ->
     calculate_portfolio_returns prices weights adv ers =
       apply_fees
         (dot (dropna (pct_change prices))
              (map (fun col => dict_get_default col 0 weights) (columns prices)))
         adv ers weights /\
     (forall e, calculate_portfolio_returns prices weights adv ers = Raise e ->
        exists x y, fpow_error x y = Some e) /\
     (forall weights',
        (forall col, In col (columns prices) ->
           dict_get col weights' = dict_get col weights) ->
        ers = None \/ ers = Some [] ->
        calculate_portfolio_returns prices weights' adv ers =
        calculate_portfolio_returns prices weights adv ers) /\
     ((rows prices = [] \/ exists x xs, rows prices = [x :: xs]) ->
        forall s, calculate_portfolio_returns prices weights adv ers = Ok s -> s = [])).
Proof.
  unfold calculate_portfolio_returns.
  change (columns (dropna (pct_change prices))) with (columns prices).
  split.
  - intros H. destruct (weights_array_raises weights (columns prices) H)
      as (col & Hin & Hcol & Hraise).
    exists col. rewrite Hraise. repeat split; assumption.
  - intros H. rewrite (weights_array_ok weights (columns prices) H). cbn [bind].
    split; [reflexivity |]. split; [intros e; apply apply_fees_raises |]. split.
    + intros weights' Hagree Hers.
      rewrite (weights_array_agree weights weights' (columns prices) Hagree).
      rewrite (weights_array_ok weights (columns prices) H). cbn [bind].
      now rewrite !apply_fees_advisory_only by exact Hers.
    + intros Hrows s Hs. apply apply_fees_length in Hs.
      unfold dot in Hs. rewrite (no_returns_of_one_row prices Hrows) in Hs.
      destruct s; [reflexivity | discriminate].
Qed.

End WithFloat.

Import Ideal.
Local Open Scope string_scope.
Local Open Scope list_scope.
Local Open Scope R_scope.

Lemma Rpower_base_1 (y : R) : Rpower 1 y = 1.
Proof. unfold Rpower. now rewrite ln_1, Rmult_0_r, exp_0. Qed.

Lemma Rpower_below_1 (x y : R) : 0 < x < 1 -> 0 < y -> 0 < Rpower x y < 1.
Proof.
  intros Hx Hy. unfold Rpower. split; [apply exp_pos |].
  rewrite <- exp_0. apply exp_increasing.
  assert (ln x < 0) by (rewrite <- ln_1; apply ln_increasing; lra). nra.
Qed.

(** A power of a base that is not 0 does not raise and has its value. *)
Lemma py_pow_ideal (a b : R) :
  a <> 0 -> py_pow (Some a) (Some b) = Ok (ipow (Some a) (Some b)).
Proof.
  intros Ha. unfold py_pow. cbn [fpow_error fpow ideal_pow ipow_error].
  destruct (Req_dec_T a 0); [contradiction | reflexivity].
Qed.

Lemma daily_factor_below_1 (x : R) :
  x < 1 -> daily_factor (Some x) = Ok (Some (Rpower (1 - x) (1/252))).
Proof.
  intros H. unfold daily_factor.
  cbn [fsub fdiv ideal_float lift2 idiv of_int].
  destruct (Req_dec_T 252 0); [lra |].
  rewrite py_pow_ideal by lra. cbn [ipow].
  destruct (Rlt_dec 0 (1 - x)); [reflexivity | lra].
Qed.

(** No fee, no drag: the daily factor of a fee of 0 is 1. *)
Lemma daily_factor_0 : daily_factor (Some 0) = Ok (Some 1).
Proof.
  rewrite daily_factor_below_1 by lra. do 2 f_equal.
  replace (1 - 0) with 1 by lra. apply Rpower_base_1.
Qed.

Lemma deduct_1 (rs : list ideal) : deduct (Some 1) rs = rs.
Proof.
  unfold deduct. rewrite <- (map_id rs) at 2. apply map_ext.
  intros [x |]; [| reflexivity]. cbn. f_equal. lra.
Qed.

(** Without a fee and without expense ratios the fees change nothing. *)
Lemma no_fees (rs : list ideal) (ers : option (dict ideal)) (weights : dict ideal) :
  ers = None \/ ers = Some [] ->
  apply_fees rs (Some 0) ers weights = Ok rs.
Proof.
  intros H. rewrite apply_fees_advisory_only by exact H.
  rewrite daily_factor_0. cbn [bind]. now rewrite deduct_1.
Qed.

(** C3, as the specification has it, fails.  BND has a weight and no
    column of prices: the call returns the returns of SPY alone.  And SPY
    has a single price: the call returns the empty series. *)
Lemma missing_ticker_is_dropped :
  let weights := [("SPY", Some 1); ("BND", Some (1/2))] in
  calculate_portfolio_returns
    {| columns := ["SPY"]; rows := [[Some 100]; [Some 110]; [Some 121]] |}
    weights (Some 0) None
  = Ok [Some (1/10); Some (1/10)] /\
  calculate_portfolio_returns
    {| columns := ["SPY"]; rows := [[Some 100]] |} weights (Some 0) None
  = Ok [].
Proof.
  intros weights. split.
  - unfold calculate_portfolio_returns.
    change (mapM _ _) with (@Ok (list ideal) [Some 1]). cbn [bind].
    rewrite no_fees by now left.
    ideal_eval. decide_R. do 2 f_equal; [| f_equal]; f_equal; lra.
  - unfold calculate_portfolio_returns.
    change (mapM _ _) with (@Ok (list ideal) [Some 1]). cbn [bind].
    rewrite no_fees by now left. reflexivity.
Qed.

(** A ticker that has a weight and no prices still pays its expense ratio. *)
Lemma unpriced_ticker_pays_expenses :
  let prices := {| columns := ["SPY"]; rows := [[Some 100]; [Some 110]] |} in
  let ers := Some [("BND", Some (1/2))] in
  calculate_portfolio_returns prices [("SPY", Some 1); ("BND", Some 1)] (Some 0) ers
  <> calculate_portfolio_returns prices [("SPY", Some 1)] (Some 0) ers.
Proof.
  intros prices ers.
  assert (Hd : 0 < Rpower (1 - 1/2) (1/252) < 1) by (apply Rpower_below_1; lra).
  unfold calculate_portfolio_returns.
  change (mapM (fun col => dict_item col [("SPY", Some 1); ("BND", Some 1)]) _)
    with (@Ok (list ideal) [Some 1]).
  change (mapM (fun col => dict_item col [("SPY", Some 1)]) _)
    with (@Ok (list ideal) [Some 1]).
  cbn [bind]. unfold apply_fees. rewrite daily_factor_0. cbn [bind]. rewrite deduct_1.
  unfold ers. cbn [foldM]. unfold expense_layer, expense_factor.
  cbn [fst snd dict_get_default dict_get String.eqb Ascii.eqb Bool.eqb].
  cbn [flt ideal_float ilt of_int].
  destruct (Rlt_dec 0 0) as [Hlt | _]; [lra |].
  destruct (Rlt_dec 0 (1/2)) as [_ | Hn]; [| lra].
  cbn [bind]. rewrite daily_factor_below_1 by lra. cbn [bind].
  rewrite py_pow_ideal by lra. cbn [bind ipow].
  destruct (Rlt_dec 0 (Rpower (1 - 1/2) (1/252))) as [_ | Hn]; [| lra].
  rewrite Rpower_1 by lra.
  unfold dot, dropna, pct_change, pct_row, deduct, py_sum.
  cbn -[Rpower Rlt_dec Req_dec_T Rplus Rmult Rminus Rdiv Rinv IZR].
  destruct (Req_dec_T 100 0) as [Hz | _]; [lra |].
  cbn -[Rpower Rlt_dec Req_dec_T Rplus Rmult Rminus Rdiv Rinv IZR].
  intros [= H]. nra.
Qed.

(** With every column weighted a power can still raise: an expense ratio of
    1 gives the daily factor 0, and 0 to the power of a negative weight is a
    ZeroDivisionError. *)
Lemma zero_factor_raises :
  calculate_portfolio_returns
    {| columns := ["SPY"]; rows := [[Some 100]; [Some 110]] |}
    [("SPY", Some (-1/2))] (Some 0) (Some [("SPY", Some 1)])
  = Raise ZeroDivisionError.
Proof. ideal_eval. decide_R. reflexivity. Qed.

(** C3, amended. The call raises a KeyError exactly for a column of the
    prices that has no entry in the weights; that lookup comes first.
    Otherwise the result is that of the fee layers applied to the sums of the
    price columns, weighted, and the only errors left are those of a power in
    a fee layer.  A ticker of the weights that has no column of prices raises
    nothing and adds nothing to the sums: without expense ratios the returns
    are those of any weights that agree on the columns; with expense ratios
    its fee layer is still applied.  And prices of fewer than two rows give
    no error of their own: a result is the empty series.  (In exact
    arithmetic: an unpriced ticker with an expense ratio changes the
    returns, and an expense ratio of 1 with a negative weight raises a
    ZeroDivisionError though every column is weighted.) *)
Theorem returns_fail_only_on_unweighted_column :
  (forall (num : Type) (F : PyFloat num) (P : PyPow num)
          (prices : DataFrame num) (weights : dict num) (adv : num)
          (ers : option (dict num)),
      ((exists col, In col (columns prices) /\ dict_get col weights = None) ->
         exists col, In col (columns prices) /\ dict_get col weights = None /\
           calculate_portfolio_returns prices weights adv ers = Raise (KeyError col)) /\
      ((forall col, In col (columns prices) -> dict_get col weights <> None) ->
         calculate_portfolio_returns prices weights adv ers =
           apply_fees
             (dot (dropna (pct_change prices))
                  (map (fun col => dict_get_default col (of_int 0) weights)
                       (columns prices)))
             adv ers weights /\
         (forall e, calculate_portfolio_returns prices weights adv ers = Raise e ->
            exists x y, fpow_error x y = Some e) /\
         (forall weights',
            (forall col, In col (columns prices) ->
               dict_get col weights' = dict_get col weights) ->
            ers = None \/ ers = Some [] ->
            calculate_portfolio_returns prices weights' adv ers =
            calculate_portfolio_returns prices weights adv ers) /\
         ((rows prices = [] \/ exists x xs, rows prices = [x :: xs]) ->
            forall s, calculate_portfolio_returns prices weights adv ers = Ok s ->
                      s = []))) /\
  (let prices := {| columns := ["SPY"]; rows := [[Some 100]; [Some 110]] |} in
   let ers := Some [("BND", Some (1/2))] in
   calculate_portfolio_returns prices [("SPY", Some 1); ("BND", Some 1)] (Some 0) ers
   <> calculate_portfolio_returns prices [("SPY", Some 1)] (Some 0) ers) /\
  calculate_portfolio_returns
    {| columns := ["SPY"]; rows := [[Some 100]; [Some 110]] |}
    [("SPY", Some (-1/2))] (Some 0) (Some [("SPY", Some 1)])
  = Raise ZeroDivisionError.
Proof.
  split; [| split].
  - intros. apply returns_by_column.
  - exact unpriced_ticker_pays_expenses.
  - exact zero_factor_raises.
Qed.

(** *** The fee layers, in exact arithmetic and on binary64 *)

Import PrimFloat Binary64.
#[local] Set Warnings "-inexact-float".

(** On expense ratios that are not negative the test [er > 0] of the code
    is the test "non-zero". *)
Lemma positive_is_nonzero (e : R) :
  0 <= e -> ((0 <? Some e)%py = true <-> e <> 0).
Proof.
  intros He. cbn [flt ideal_float ilt of_int].
  destruct (Rlt_dec 0 e); split; intros H; try reflexivity; try discriminate; lra.
Qed.

(** On binary64 the advisory layer of factor 1 is not the identity. *)
Lemma advisory_layer_rounds :
  deduct 1%float [0.1%float] = [0.10000000000000009%float].
Proof. vm_compute. reflexivity. Qed.

(** There are powers with 1.0 ** (1/252) = 1.0 and no error there, as
    IEEE 754 prescribes: for one, the power that is 1 everywhere. *)
Lemma unit_power_exists :
  exists P : PyPow float, @daily_factor float _ P 0%float = Ok 1%float.
Proof.
  exists {| fpow := fun _ _ => 1%float; fpow_error := fun _ _ => None |}.
  reflexivity.
Qed.

Lemma no_fees_binary64 (P : PyPow float) (ers : option (dict float))
  (weights : dict float) :
  daily_factor 0%float = Ok 1%float ->
  ers = None \/ ers = Some [] ->
  apply_fees [0.1%float] 0%float ers weights = Ok [0.10000000000000009%float].
Proof.
  intros Hd Hers. rewrite apply_fees_advisory_only by exact Hers.
  rewrite Hd. cbn [bind]. now rewrite advisory_layer_rounds.
Qed.

(** C6, amended. To every period the advisory layer is applied first,
    [(1 + r) * (1 - advisory_fee) ** (1/252) - 1], and then one layer
    [(1 + r) * (((1 - er) ** (1/252)) ** weight) - 1] for each ticker whose
    expense ratio passes the test [er > 0] (for an expense ratio that is not
    negative: that is not zero), in the order of the weights; a power that
    raises makes the call raise, the first one in that order.  Without
    expense ratios (an empty dict or none) the advisory layer is the only
    one.  With no advisory fee and no expense ratios the returns are
    unchanged in exact arithmetic; on binary64 the layer of factor 1 still
    rounds, and the return 0.1 becomes 0.10000000000000009. *)
Theorem fees_advisory_then_expenses :
  (forall (num : Type) (F : PyFloat num) (P : PyPow num) (rs : Series num)
          (adv : num) (ers : option (dict num)) (weights : dict num),
      apply_fees rs adv ers weights =
      (d <- daily_factor adv ;;
       fs <- expense_factors ers weights ;;
       Ok (map (fun r =>
                  fold_left (fun x factor => (1 + x) * factor - 1) fs
                    ((1 + r) * d - 1))%py rs))) /\
  (forall (num : Type) (F : PyFloat num) (P : PyPow num) (rs : Series num)
          (adv : num) (ers : option (dict num)) (weights : dict num),
      ers = None \/ ers = Some [] ->
      apply_fees rs adv ers weights =
      (d <- daily_factor adv ;; Ok (map (fun r => (1 + r) * d - 1)%py rs))) /\
  (forall e : R, 0 <= e -> ((0 <? Some e)%py = true <-> e <> 0)) /\
  (forall (rs : list ideal) (weights : dict ideal),
      apply_fees rs (Some 0) (Some []) weights = Ok rs /\
      apply_fees rs (Some 0) None weights = Ok rs) /\
  (forall (P : PyPow float) (ers : option (dict float)) (weights : dict float),
      daily_factor 0%float = Ok 1%float ->
      ers = None \/ ers = Some [] ->
      apply_fees [0.1%float] 0%float ers weights = Ok [0.10000000000000009%float]).
Proof.
  split; [| split; [| split; [| split]]].
  - intros. apply apply_fees_pointwise.
  - intros. now apply apply_fees_advisory_only.
  - exact positive_is_nonzero.
  - intros rs weights. split; apply no_fees; [now right | now left].
  - exact no_fees_binary64.
Qed.

(** C6, as the specification has it, fails on the floats of the program:
    with no advisory fee the daily factor is 1.0 ** (1/252) = 1.0, and the
    layer (1 + 0.1) * 1.0 - 1 gives 0.10000000000000009, not 0.1; with no
    expense ratios this is the result, and it is not the series it was
    given. *)
Lemma identity_rounds_on_binary64 :
  deduct 1%float [0.1%float] = [0.10000000000000009%float] /\
  0.10000000000000009%float <> 0.1%float /\
  (forall (P : PyPow float) (ers : option (dict float)) (weights : dict float),
      daily_factor 0%float = Ok 1%float ->
      ers = None \/ ers = Some [] ->
      apply_fees [0.1%float] 0%float ers weights <> Ok [0.1%float]).
Proof.
  assert (Hne : 0.10000000000000009%float <> 0.1%float).
  { intros H. apply (f_equal (fun x => (x =? 0.1)%float)) in H.
    vm_compute in H. discriminate. }
  split; [exact advisory_layer_rounds |]. split; [exact Hne |].
  intros P ers weights Hd Hers. rewrite (@no_fees_binary64 P ers weights Hd Hers).
  intros H. apply Hne. congruence.
Qed.

End ReturnsFacts.

(** ** The performance summarizer *)

Module SummaryFacts.
Import Performance Ideal.
Local Open Scope string_scope.
Local Open Scope list_scope.
Local Open Scope R_scope.

Lemma iloc_last_cons {num : Type} (x : num) (l : list num) :
  iloc_last (x :: l) = Ok (last l x).
Proof.
  unfold iloc_last. destruct l as [| y l] using rev_ind.
  - reflexivity.
  - rewrite last_last. cbn [rev]. rewrite rev_app_distr. reflexivity.
Qed.


Lemma cum_from_some (op : ideal -> ideal -> ideal) (acc : ideal) (x : R) (tl : list ideal) :
  cum_from op acc (Some x :: tl) = op acc (Some x) :: cum_from op (op acc (Some x)) tl.
Proof. reflexivity. Qed.


Lemma unit_ratio (c : R) : c <> 0 -> fsub (fdiv (Some c) (Some c)) (Some 1) = Some 0.
Proof.
  intros H. cbn [fdiv fsub ideal_float idiv lift2].
  destruct (Req_dec_T c 0) as [Hz | _]; [contradiction |].
  cbn [lift2]. f_equal. field. exact H.
Qed.




Lemma last_default_irrelevant {A : Type} (l : list A) (d d' : A) :
  l <> [] -> last l d = last l d'.
Proof.
  induction l as [| x [| y l] IH]; intros H; [contradiction | reflexivity |].
  apply IH. discriminate.
Qed.

Lemma cumulate_some (op : ideal -> ideal -> ideal) (x : R) (tl : list ideal) :
  cumulate op (Some x :: tl) = Some x :: cum_from op (Some x) tl.
Proof. reflexivity. Qed.

Lemma series_min_some (x : R) (tl : list ideal) :
  series_min (Some x :: tl) = min_from (Some x) tl.
Proof. reflexivity. Qed.

(** The curve of a series of real returns, and the series whose least entry
    is the maximal drawdown. *)
Lemma curve_of_reals (r0 : R) (rest : list R) :
  cumprod (map (fun r => (1 + r)%py) (reals (r0 :: rest))) =
  Some (1 + r0) ::
    cum_from fmul (Some (1 + r0)) (map (fun r => (1 + r)%py) (reals rest)).
Proof. reflexivity. Qed.

Lemma drawdowns_of_curve (c : R) (tl : list ideal) :
  map (fun q => (q - 1)%py) (series_div (Some c :: tl) (cummax (Some c :: tl))) =
  fsub (fdiv (Some c) (Some c)) (Some 1) ::
    map (fun q => (q - 1)%py) (series_div tl (cum_from fmax (Some c) tl)).
Proof. reflexivity. Qed.



(** *** On binary64 *)

Import PrimFloat Binary64.
#[local] Set Warnings "-inexact-float".





End SummaryFacts.

(** ** Scenarios

    The embedding evaluated on the scenarios of the specification, in exact
    arithmetic. *)

Module Scenarios.
Import Performance Ideal.
Local Open Scope string_scope.
Local Open Scope list_scope.
Local Open Scope R_scope.

(** A 'Traditional IRA' at a tax rate of 0.2: no taxes, fees 0.0107, ending
    value 1.0593 and a deferred liability of 0.21186. *)
Example traditional_ira_one_year :
  let r := project_portfolio_with_taxes
             [("Equity", Some 1)] [("Equity", Some (7/100))]
             (Some (1/100)) (Some 1) (Some 0) (Some (2/10)) "Traditional IRA" 1 in
  exists yp,
    yearly_projections r = [yp] /\
    yp_taxes yp = Some 0 /\
    yp_fees yp = Some (107/10000) /\
    yp_ending_value yp = Some (10593/10000) /\
    yp_deferred_tax_liability yp = Some (21186/100000) /\
    deferred_tax_liability r = Some (21186/100000).
Proof.
  intros r. eexists. split.
  - subst r. ideal_eval. decide_R. reflexivity.
  - subst r. ideal_eval. decide_R. repeat split; f_equal; lra.
Qed.

(** A 'Brokerage' account taxed at 0.25 over two years, with a yearly
    contribution of 10: the second year starts where the first one ends. *)
Example brokerage_two_years :
  let r := project_portfolio_with_taxes
             [("Equity", Some 1)] [("Equity", Some (10/100))]
             (Some 0) (Some 100) (Some 10) (Some (25/100)) "Brokerage" 2 in
  exists y1 y2,
    yearly_projections r = [y1; y2] /\
    yp_year y1 = 1%Z /\ yp_year y2 = 2%Z /\
    yp_growth y1 = Some 11 /\
    yp_taxes y1 = Some (275/100) /\
    yp_ending_value y1 = Some (11825/100) /\
    yp_starting_value y2 = Some (11825/100) /\
    total_taxes r = Some (275/100 + 320625/100000).
Proof.
  intros r. eexists. eexists. split.
  - subst r. ideal_eval. decide_R. reflexivity.
  - subst r. ideal_eval. decide_R. repeat split; f_equal; lra.
Qed.

End Scenarios.

(** * Further properties *)

(** ** The simple projections *)

Lemma fold_range_S {A : Type} (f : A -> Z -> A) (s : A) (n : nat) :
  fold_left f (range 1 (Z.of_nat (S n) + 1)) s =
  f (fold_left f (range 1 (Z.of_nat n + 1)) s) (Z.of_nat (S n)).
Proof.
  replace (Z.of_nat (S n) + 1)%Z with (1 + Z.of_nat (S n))%Z by lia.
  replace (Z.of_nat n + 1)%Z with (1 + Z.of_nat n)%Z by lia.
  rewrite range_snoc, fold_left_snoc.
  replace (1 + Z.of_nat n)%Z with (Z.of_nat (S n)) by lia. reflexivity.
Qed.

Lemma fold_range_to_nat {A : Type} (f : A -> Z -> A) (s : A) (years : Z) :
  fold_left f (range 1 (years + 1)) s =
  fold_left f (range 1 (Z.of_nat (Z.to_nat years) + 1)) s.
Proof.
  destruct (Z_le_gt_dec years 0) as [Hle | Hgt].
  - rewrite range_nonpos by lia.
    replace (Z.to_nat years) with O by lia. reflexivity.
  - now rewrite Z2Nat.id by lia.
Qed.

Module SimpleProjectionFacts.
Import Performance.
Section WithFloat.
Context {num : Type} {F : PyFloat num} {P : PyPow num}.
Local Open Scope py_scope.

Section Fees.
Variables (war fee : num).

Let state (n : nat) : num * num * list (FeesYear num) :=
  fold_left (fees_body war fee) (range 1 (Z.of_nat n + 1)) (1, 0, []).

(** The value with which the year of position [k] starts, given the ledger. *)
Let start_of (l : list (FeesYear num)) (k : nat) : num :=
  match k with
  | O => 1
  | S j => match nth_error l j with
           | Some q => fy_ending_value q
           | None => 1
           end
  end.

Lemma fees_state_S (n : nat) :
  state (S n) = fees_body war fee (state n) (Z.of_nat (S n)).
Proof. apply fold_range_S. Qed.

Lemma fees_invariant (n : nat) :
  let '(v, tf, l) := state n in
  List.length l = n /\
  v = start_of l n /\
  tf = py_sum (map (@fy_fees num) l) /\
  forall k r, nth_error l k = Some r ->
    fy_year r = Z.of_nat (S k) /\
    fy_starting_value r = start_of l k /\
    fy_growth r = fy_starting_value r * war /\
    fy_fees r = (fy_starting_value r + fy_growth r) * fee /\
    fy_ending_value r = fy_starting_value r + fy_growth r - fy_fees r /\
    fy_annual_return r = war.
Proof.
  induction n as [| n IH].
  - cbn. split; [reflexivity |]. split; [reflexivity |]. split; [reflexivity |].
    intros [| k] r; discriminate.
  - rewrite fees_state_S. destruct (state n) as [[v tf] l].
    destruct IH as (Hlen & Hv & Htf & Hrec). cbn [fees_body].
    set (rec := {| fy_year := Z.of_nat (S n); fy_starting_value := v;
                   fy_growth := v * war; fy_fees := (v + v * war) * fee;
                   fy_ending_value := v + v * war - (v + v * war) * fee;
                   fy_annual_return := war |}).
    assert (Hstart : forall k, (k <= n)%nat -> start_of (l ++ [rec]) k = start_of l k).
    { intros [| k] Hk; [reflexivity |]. unfold start_of.
      rewrite nth_error_app1 by lia. reflexivity. }
    split; [rewrite length_app, Hlen; simpl; lia |].
    split.
    { unfold start_of. rewrite nth_error_app2 by lia.
      rewrite Hlen, Nat.sub_diag. reflexivity. }
    split.
    { rewrite map_app. unfold py_sum in *. rewrite fold_left_app, <- Htf. reflexivity. }
    intros k r H. destruct (Nat.lt_ge_cases k n) as [Hlt | Hge].
    + rewrite nth_error_app1 in H by lia. rewrite Hstart by lia. now apply Hrec.
    + rewrite nth_error_app2 in H by lia.
      destruct (k - List.length l)%nat as [| j] eqn:E; [| destruct j; discriminate].
      injection H as <-.
      assert (k = n) by lia. subst k. rewrite Hstart by lia.
      repeat split. exact Hv.
Qed.

End Fees.

(** The last record of a ledger, by position. *)
Lemma rev_head_nth {A B : Type} (f : A -> B) (d : B) (l : list A) :
  match rev l with [] => d | r :: _ => f r end =
  match List.length l with
  | O => d
  | S j => match nth_error l j with Some q => f q | None => d end
  end.
Proof.
  destruct l as [| x l] using rev_ind; [reflexivity |].
  rewrite rev_app_distr, length_app. cbn [rev app List.length].
  rewrite Nat.add_1_r, nth_error_app2, Nat.sub_diag by lia. reflexivity.
Qed.

(** X1. The ledger of the fee-only projection: one record per year of the
    horizon, in year order; the first year starts at 1, every year starts at
    the ending value of the year before; in each year growth is the starting
    value times the weighted return, fees are charged on the value after
    growth and the ending value is what is left; total_fees is the sum of the
    yearly fees and final_portfolio_value the last ending value (1 when
    there is no year). *)
Theorem fees_projection_ledger (allocation growth_rates : dict num) (fee : num)
  (years : Z) :
  let p := project_portfolio_with_fees allocation growth_rates fee years in
  let l := fp_yearly_projections p in
  List.length l = Z.to_nat years /\
  (forall r, nth_error l 0 = Some r -> fy_starting_value r = 1) /\
  (forall k a b, nth_error l k = Some a -> nth_error l (S k) = Some b ->
     fy_ending_value a = fy_starting_value b) /\
  (forall k r, nth_error l k = Some r ->
     fy_year r = Z.of_nat (S k) /\
     fy_growth r = fy_starting_value r * fp_weighted_annual_return p /\
     fy_fees r = (fy_starting_value r + fy_growth r) * fee /\
     fy_ending_value r = fy_starting_value r + fy_growth r - fy_fees r) /\
  fp_total_fees p = py_sum (map (@fy_fees num) l) /\
  fp_final_portfolio_value p =
    match rev l with [] => 1 | r :: _ => fy_ending_value r end.
Proof.
  intros p l. subst l p. unfold project_portfolio_with_fees.
  rewrite fold_range_to_nat.
  pose proof (fees_invariant (blended_return allocation growth_rates) fee
                (Z.to_nat years)) as H.
  cbv beta zeta in H. revert H.
  destruct (fold_left (fees_body _ _) _ _) as [[v tf] l].
  intros (Hlen & Hv & Htf & Hrec).
  cbn [fp_yearly_projections fp_total_fees fp_final_portfolio_value
       fp_weighted_annual_return].
  split; [exact Hlen |]. split.
  { intros r H. now destruct (Hrec _ _ H) as (_ & -> & _). }
  split.
  { intros k a b Ha Hb. destruct (Hrec _ _ Hb) as (_ & -> & _). now rewrite Ha. }
  split.
  { intros k r H. destruct (Hrec _ _ H) as (Hy & _ & Hg & Hf & He & _).
    repeat split; assumption. }
  split; [exact Htf |].
  rewrite (rev_head_nth (@fy_ending_value num) 1 l), Hlen. exact Hv.
Qed.

Section Returns.
Variable war : num.

Let state (n : nat) : num * list (ReturnsYear num) :=
  fold_left (returns_body war) (range 1 (Z.of_nat n + 1)) (1, []).

Lemma returns_invariant (n : nat) :
  List.length (snd (state n)) = n /\
  fst (state n) =
    match n with
    | O => 1
    | S j => match nth_error (snd (state n)) j with
             | Some q => ry_portfolio_value q
             | None => 1
             end
    end /\
  forall k r, nth_error (snd (state n)) k = Some r ->
    ry_year r = Z.of_nat (S k) /\
    ry_annual_return r = war /\
    ry_cumulative_return r = ry_portfolio_value r - 1 /\
    ry_portfolio_value r =
      match k with
      | O => 1
      | S j => match nth_error (snd (state n)) j with
               | Some q => ry_portfolio_value q
               | None => 1
               end
      end * (1 + war).
Proof.
  induction n as [| n IH].
  - cbn. split; [reflexivity |]. split; [reflexivity |].
    intros [| k] r; discriminate.
  - unfold state. rewrite fold_range_S. fold (state n).
    destruct (state n) as [v l]. cbn [fst snd] in IH.
    destruct IH as (Hlen & Hv & Hrec). cbn [returns_body fst snd].
    split; [rewrite length_app, Hlen; simpl; lia |]. split.
    { rewrite nth_error_app2 by lia. now rewrite Hlen, Nat.sub_diag. }
    intros k r H. destruct (Nat.lt_ge_cases k n) as [Hlt | Hge].
    + rewrite nth_error_app1 in H by lia.
      destruct (Hrec _ _ H) as (Hy & Ha & Hc & Hp).
      repeat split; try assumption. rewrite Hp.
      destruct k as [| j]; [reflexivity |]. rewrite nth_error_app1 by lia. reflexivity.
    + rewrite nth_error_app2 in H by lia.
      destruct (k - List.length l)%nat as [| j] eqn:E; [| destruct j; discriminate].
      injection H as <-.
      assert (k = n) by lia. subst k.
      cbn [ry_year ry_annual_return ry_cumulative_return ry_portfolio_value].
      repeat split. f_equal. rewrite Hv.
      destruct n as [| j]; [reflexivity |]. rewrite nth_error_app1 by lia. reflexivity.
Qed.

End Returns.

(** X2. The plain projection computes its total return first, by a power
    that can raise: the call raises what that power raises, and otherwise
    it returns.  When it returns, total_projected_return is that power minus
    1, and the ledger has one record per year of the horizon, in year order;
    the portfolio value of a year is the value of the year before (1 at the
    start) times 1 + the weighted return, its cumulative return is that value
    minus 1, and final_portfolio_value is the last portfolio value (1 when
    there is no year). *)
Theorem returns_projection_ledger (allocation growth_rates : dict num) (years : Z) :
  let war := blended_return allocation growth_rates in
  match fpow_error (1 + war) (of_int years) with
  | Some e => project_portfolio_returns allocation growth_rates years = Raise e
  | None =>
      exists p,
        project_portfolio_returns allocation growth_rates years = Ok p /\
        rp_weighted_annual_return p = war /\
        rp_total_projected_return p = (1 + war) ** of_int years - 1 /\
        let l := rp_yearly_projections p in
        List.length l = Z.to_nat years /\
        (forall r, nth_error l 0 = Some r ->
           ry_portfolio_value r = 1 * (1 + war)) /\
        (forall k a b, nth_error l k = Some a -> nth_error l (S k) = Some b ->
           ry_portfolio_value b = ry_portfolio_value a * (1 + war)) /\
        (forall k r, nth_error l k = Some r ->
           ry_year r = Z.of_nat (S k) /\
           ry_cumulative_return r = ry_portfolio_value r - 1) /\
        rp_final_portfolio_value p =
          match rev l with [] => 1 | r :: _ => ry_portfolio_value r end
  end.
Proof.
  intros war. unfold project_portfolio_returns, py_pow. fold war.
  destruct (fpow_error (1 + war) (of_int years)); cbn [bind]; [reflexivity |].
  eexists. split; [reflexivity |].
  cbn [rp_yearly_projections rp_final_portfolio_value rp_weighted_annual_return
       rp_total_projected_return].
  split; [reflexivity |]. split; [reflexivity |]. cbv zeta.
  rewrite fold_range_to_nat.
  destruct (returns_invariant war (Z.to_nat years)) as (Hlen & Hv & Hrec).
  split; [exact Hlen |]. split.
  { intros r H. now destruct (Hrec _ _ H) as (_ & _ & _ & ->). }
  split.
  { intros k a b Ha Hb. destruct (Hrec _ _ Hb) as (_ & _ & _ & ->). now rewrite Ha. }
  split.
  { intros k r H. destruct (Hrec _ _ H) as (Hy & _ & Hc & _). split; assumption. }
  rewrite (rev_head_nth (@ry_portfolio_value num) 1), Hlen. exact Hv.
Qed.

End WithFloat.

Import Ideal.
Local Open Scope string_scope.
Local Open Scope list_scope.
Local Open Scope R_scope.

(** The growth factor of a year without cash flow. *)
Lemma taxed_year_closed (w f t x : R) (tax : ideal) (taxable deferred : bool) (year : Z) :
  (if taxable && (0 <? tax)%py then tax else Some 0) = Some t ->
  let yp := year_record (Some w) (Some f) (Some 0) tax taxable deferred year (Some x) in
  yp_ending_value yp = Some (x * ((1 + w * (1 - t)) * (1 - f))) /\
  yp_fees yp = Some (x * (1 + w * (1 - t)) * f) /\
  yp_taxes yp = Some (x * w * t).
Proof.
  intros Ht yp. subst yp. unfold year_record.
  cbn [yp_ending_value yp_fees yp_taxes].
  destruct (taxable && (0 <? tax)%py).
  - subst tax. cbn [fadd fsub fmul ideal_float lift2 of_int].
    repeat split; f_equal; ring.
  - injection Ht as <-. cbn [fadd fsub fmul ideal_float lift2 of_int].
    repeat split; f_equal; ring.
Qed.

Lemma taxed_value_closed (w f t v0 : R) (tax : ideal) (taxable deferred : bool) (n : nat) :
  (if taxable && (0 <? tax)%py then tax else Some 0) = Some t ->
  l_portfolio_value
    (run_loop (Some w) (Some f) (Some 0) tax taxable deferred (Some v0) (Z.of_nat n))
  = Some (v0 * ((1 + w * (1 - t)) * (1 - f)) ^ n).
Proof.
  intros Ht. induction n as [| n IH].
  - rewrite ProjectorFacts.run_loop_nonpos by (simpl; lia).
    cbn [loop_init l_portfolio_value pow]. f_equal. ring.
  - rewrite ProjectorFacts.value_S, IH.
    destruct (@taxed_year_closed w f t (v0 * ((1 + w * (1 - t)) * (1 - f)) ^ n)
                tax taxable deferred (Z.of_nat (S n)) Ht) as (-> & _).
    f_equal. cbn [pow]. ring.
Qed.


Lemma taxed_ledger_closed (allocation growth_rates : dict ideal) (w f t v0 : R)
  (tax : ideal) (acct : string) (years : Z) (k : nat) (yp : YearlyProjection ideal) :
  blended_return allocation growth_rates = Some w ->
  (if String.eqb acct "Brokerage" && (0 <? tax)%py then tax else Some 0) = Some t ->
  nth_error
    (yearly_projections
       (project_portfolio_with_taxes allocation growth_rates (Some f) (Some v0)
          (Some 0) tax acct years)) k = Some yp ->
  yp_ending_value yp = Some (v0 * ((1 + w * (1 - t)) * (1 - f)) ^ k
                             * ((1 + w * (1 - t)) * (1 - f))) /\
  yp_fees yp = Some (v0 * ((1 + w * (1 - t)) * (1 - f)) ^ k * (1 + w * (1 - t)) * f).
Proof.
  intros Hw Ht H.
  assert (Hk : (k < Z.to_nat years)%nat).
  { rewrite <- (ProjectorFacts.project_length allocation growth_rates (Some f)
                  (Some v0) (Some 0) tax acct years).
    apply nth_error_Some. congruence. }
  rewrite ProjectorFacts.project_ledger, ProjectorFacts.ledger_nth in H by exact Hk.
  injection H as <-. rewrite Hw.
  rewrite (@taxed_value_closed w f t v0 _ _ _ k Ht).
  destruct (@taxed_year_closed w f t (v0 * ((1 + w * (1 - t)) * (1 - f)) ^ k) _ _
              (acct =? "Traditional IRA")%string (Z.of_nat (S k)) Ht) as (He & Hf & _).
  split; [exact He | exact Hf].
Qed.

Lemma map_nth_ext {A B C : Type} (f : A -> C) (h : B -> C) (l : list A) (l' : list B) :
  List.length l = List.length l' ->
  (forall k a b, nth_error l k = Some a -> nth_error l' k = Some b -> f a = h b) ->
  map f l = map h l'.
Proof.
  revert l'. induction l as [| a l IH]; intros [| b l'] Hlen H; try discriminate.
  - reflexivity.
  - cbn [map]. f_equal.
    + exact (H O a b eq_refl eq_refl).
    + apply IH; [now injection Hlen |].
      intros k x y Hx Hy. exact (H (S k) x y Hx Hy).
Qed.

(** The fee-only projection in closed form. *)
Lemma fees_closed (w f : R) (n : nat) :
  let g := (1 + w * (1 - 0)) * (1 - f) in
  let '(v, tf, l) :=
    fold_left (fees_body (Some w) (Some f)) (range 1 (Z.of_nat n + 1))
      (of_int 1, of_int 0, []) in
  v = Some (1 * g ^ n) /\
  List.length l = n /\
  tf = py_sum (map (@fy_fees ideal) l) /\
  forall k r, nth_error l k = Some r ->
    fy_ending_value r = Some (1 * g ^ k * g) /\
    fy_fees r = Some (1 * g ^ k * (1 + w * (1 - 0)) * f).
Proof.
  intros g. induction n as [| n IH].
  - cbn. split; [f_equal; ring |]. split; [reflexivity |]. split; [reflexivity |].
    intros [| k] r; discriminate.
  - rewrite fold_range_S. revert IH.
    destruct (fold_left _ _ _) as [[v tf] l].
    intros (Hv & Hlen & Htf & Hrec). subst v. cbn [fees_body].
    cbn [fadd fsub fmul ideal_float lift2].
    split; [f_equal; unfold g; cbn [pow]; ring |].
    split; [rewrite length_app, Hlen; simpl; lia |].
    split.
    { rewrite map_app. unfold py_sum in *. rewrite fold_left_app, <- Htf. reflexivity. }
    intros k r H. destruct (Nat.lt_ge_cases k n) as [Hlt | Hge].
    + rewrite nth_error_app1 in H by lia. now apply Hrec.
    + rewrite nth_error_app2 in H by lia.
      destruct (k - List.length l)%nat as [| j] eqn:E; [| destruct j; discriminate].
      injection H as <-. assert (k = n) by lia. subst k.
      cbn [fy_ending_value fy_fees]. split; f_equal; unfold g; ring.
Qed.

Lemma effective_tax (acct : string) (tau : R) :
  (if String.eqb acct "Brokerage" && (0 <? Some tau)%py then Some tau else Some 0)
  = Some (if String.eqb acct "Brokerage" then Rmax 0 tau else 0).
Proof.
  destruct (String.eqb acct "Brokerage"); [| reflexivity].
  cbn [andb flt ideal_float ilt of_int].
  destruct (Rlt_dec 0 tau) as [Hlt | Hge]; f_equal.
  - rewrite Rmax_right; lra.
  - rewrite Rmax_left; lra.
Qed.

(** X3. In exact arithmetic, without cash flow the taxed projection grows
    geometrically: with t the tax rate in force ([tax_rate] for 'Brokerage'
    when it is positive, 0 otherwise) and g = (1 + w (1 - t)) (1 - fee), the
    ending value of year k is initial * g^k, and the final value is
    initial * g^years.  (With no fee and no tax: initial * (1 + w)^years.) *)
Theorem zero_cash_flow_growth
  (allocation growth_rates : dict ideal) (w f v0 tau : R) (acct : string) (years : Z) :
  blended_return allocation growth_rates = Some w ->
  let t := if String.eqb acct "Brokerage" then Rmax 0 tau else 0 in
  let g := (1 + w * (1 - t)) * (1 - f) in
  let r := project_portfolio_with_taxes allocation growth_rates
             (Some f) (Some v0) (Some 0) (Some tau) acct years in
  final_portfolio_value r = Some (v0 * g ^ Z.to_nat years) /\
  (forall k yp, nth_error (yearly_projections r) k = Some yp ->
     yp_ending_value yp = Some (v0 * g ^ S k)).
Proof.
  intros Hw t g r. subst r.
  pose proof (effective_tax acct tau) as Ht. fold t in Ht.
  split.
  - unfold project_portfolio_with_taxes. cbn [final_portfolio_value].
    rewrite Hw, ProjectorFacts.run_loop_of_nat.
    exact (@taxed_value_closed w f t v0 _ _ _ (Z.to_nat years) Ht).
  - intros k yp H.
    assert (Hk : (k < Z.to_nat years)%nat).
    { rewrite <- (ProjectorFacts.project_length allocation growth_rates (Some f)
                    (Some v0) (Some 0) (Some tau) acct years).
      apply nth_error_Some. congruence. }
    rewrite ProjectorFacts.project_ledger, ProjectorFacts.ledger_nth in H by exact Hk.
    injection H as <-. rewrite Hw.
    rewrite (@taxed_value_closed w f t v0 _ _ _ k Ht).
    destruct (@taxed_year_closed w f t (v0 * g ^ k) _ _ (acct =? "Traditional IRA")%string (Z.of_nat (S k)) Ht) as (He & _).
    etransitivity; [exact He |]. f_equal. unfold g. cbn [pow]. ring.
Qed.

Lemma zero_cash_flow_growth_example :
  final_portfolio_value
    (project_portfolio_with_taxes [("Equity", Some 1)] [("Equity", Some (7/100))]
       (Some (1/100)) (Some 1) (Some 0) (Some (25/100)) "Brokerage" 2)
  = Some (1 * ((1 + (0 + 1 * (7/100)) * (1 - Rmax 0 (25/100))) * (1 - 1/100)) ^ 2).
Proof.
  exact (proj1 (@zero_cash_flow_growth
                  [("Equity", Some 1)] [("Equity", Some (7/100))]
                  (0 + 1 * (7/100)) (1/100) 1 (25/100) "Brokerage" 2 eq_refl)).
Defined.

(** X4. In exact arithmetic the fee-only projection is the taxed projection
    of an initial value of 1 without cash flow and without tax (an account
    that is not 'Brokerage', or a tax rate that is not positive): same ending
    values and fees year by year, same final value and same total fees. *)
Theorem fees_projection_agrees
  (allocation growth_rates : dict ideal) (w f tau : R) (acct : string) (years : Z) :
  blended_return allocation growth_rates = Some w ->
  String.eqb acct "Brokerage" = false \/ tau <= 0 ->
  let taxed := project_portfolio_with_taxes allocation growth_rates
                 (Some f) (Some 1) (Some 0) (Some tau) acct years in
  let plain := project_portfolio_with_fees allocation growth_rates (Some f) years in
  map (@yp_ending_value ideal) (yearly_projections taxed) =
    map (@fy_ending_value ideal) (fp_yearly_projections plain) /\
  map (@yp_fees ideal) (yearly_projections taxed) =
    map (@fy_fees ideal) (fp_yearly_projections plain) /\
  final_portfolio_value taxed = fp_final_portfolio_value plain /\
  total_fees taxed = fp_total_fees plain.
Proof.
  intros Hw Hno taxed plain.
  assert (Ht : (if String.eqb acct "Brokerage" && (0 <? Some tau)%py
                then Some tau else Some 0) = Some 0).
  { destruct Hno as [-> | Hle]; [reflexivity |].
    destruct (String.eqb acct "Brokerage"); [| reflexivity].
    cbn [andb flt ideal_float ilt of_int].
    destruct (Rlt_dec 0 tau); [lra | reflexivity]. }
  pose proof (fees_closed w f (Z.to_nat years)) as Hplain. cbv zeta in Hplain.
  assert (Hfinal : final_portfolio_value taxed =
                   Some (1 * ((1 + w * (1 - 0)) * (1 - f)) ^ Z.to_nat years)).
  { subst taxed. unfold project_portfolio_with_taxes. cbn [final_portfolio_value].
    rewrite Hw, ProjectorFacts.run_loop_of_nat.
    exact (@taxed_value_closed w f 0 1 _ _ _ (Z.to_nat years) Ht). }
  assert (Htotal : total_fees taxed =
                   py_sum (map (@yp_fees ideal) (yearly_projections taxed))).
  { subst taxed. unfold project_portfolio_with_taxes.
    cbn [total_fees yearly_projections].
    rewrite ProjectorFacts.run_loop_of_nat.
    apply ProjectorFacts.totals_after. }
  assert (Hlen : List.length (yearly_projections taxed) = Z.to_nat years)
    by apply ProjectorFacts.project_length.
  assert (Hrec : forall k yp, nth_error (yearly_projections taxed) k = Some yp ->
            yp_ending_value yp =
              Some (1 * ((1 + w * (1 - 0)) * (1 - f)) ^ k * ((1 + w * (1 - 0)) * (1 - f))) /\
            yp_fees yp =
              Some (1 * ((1 + w * (1 - 0)) * (1 - f)) ^ k * (1 + w * (1 - 0)) * f)).
  { intros k yp H. exact (taxed_ledger_closed _ _ f 1 _ _ _ _ Hw Ht H). }
  subst plain. unfold project_portfolio_with_fees.
  rewrite fold_range_to_nat, Hw. revert Hplain.
  destruct (fold_left _ _ _) as [[v tf] l].
  intros (Hv & Hl & Htf & Hr).
  cbn [fp_yearly_projections fp_final_portfolio_value fp_total_fees].
  assert (Hfees : map (@yp_fees ideal) (yearly_projections taxed) =
                  map (@fy_fees ideal) l).
  { apply map_nth_ext; [congruence |]. intros k a b Ha Hb.
    destruct (Hrec _ _ Ha) as (_ & ->). destruct (Hr _ _ Hb) as (_ & ->). reflexivity. }
  split.
  { apply map_nth_ext; [congruence |]. intros k a b Ha Hb.
    destruct (Hrec _ _ Ha) as (-> & _). destruct (Hr _ _ Hb) as (-> & _). reflexivity. }
  split; [exact Hfees |]. split; [congruence |].
  rewrite Htotal, Hfees. symmetry. exact Htf.
Qed.

Lemma fees_projection_agrees_example :
  let taxed := project_portfolio_with_taxes [("Equity", Some 1)] [("Equity", Some (7/100))]
                 (Some (1/100)) (Some 1) (Some 0) (Some (25/100)) "Roth IRA" 3 in
  let plain := project_portfolio_with_fees [("Equity", Some 1)] [("Equity", Some (7/100))]
                 (Some (1/100)) 3 in
  final_portfolio_value taxed = fp_final_portfolio_value plain /\
  total_fees taxed = fp_total_fees plain.
Proof.
  exact (proj2 (proj2 (@fees_projection_agrees
                  [("Equity", Some 1)] [("Equity", Some (7/100))]
                  (0 + 1 * (7/100)) (1/100) (25/100) "Roth IRA" 3 eq_refl
                  (or_introl eq_refl)))).
Defined.

(** X5. In exact arithmetic the loop of the plain projection and its closed
    formula agree: the portfolio value of year k is (1 + w)^k, and for a
    horizon [years >= 0] and a return w > -1 the total projected return
    [(1 + w) ** years - 1] is the final portfolio value minus 1.  The call
    returns unless w = -1 with a negative horizon, when the power raises a
    ZeroDivisionError. *)
Theorem returns_projection_closed_form
  (allocation growth_rates : dict ideal) (w : R) (years : Z) :
  blended_return allocation growth_rates = Some w ->
  (1 + w = 0 -> (years < 0)%Z ->
     project_portfolio_returns allocation growth_rates years = Raise ZeroDivisionError) /\
  (1 + w <> 0 \/ (0 <= years)%Z ->
     exists p,
       project_portfolio_returns allocation growth_rates years = Ok p /\
       rp_final_portfolio_value p = Some ((1 + w) ^ Z.to_nat years) /\
       (forall k r, nth_error (rp_yearly_projections p) k = Some r ->
          ry_portfolio_value r = Some ((1 + w) ^ S k) /\
          ry_cumulative_return r = Some ((1 + w) ^ S k - 1)) /\
       (-1 < w -> (0 <= years)%Z ->
          rp_total_projected_return p = Some ((1 + w) ^ Z.to_nat years - 1))).
Proof.
  intros Hw. unfold project_portfolio_returns, py_pow. rewrite Hw.
  cbn [fadd ideal_float lift2 of_int fpow_error fpow ideal_pow ipow_error].
  split.
  - intros Hz Hy. destruct (Req_dec_T (1 + w) 0); [| contradiction].
    destruct (Rlt_dec (IZR years) 0) as [_ | Hn]; [reflexivity |].
    exfalso. apply Hn. now apply IZR_lt.
  - intros Hret.
    assert (Hno : (if Req_dec_T (1 + w) 0
                   then if Rlt_dec (IZR years) 0 then Some ZeroDivisionError else None
                   else None) = None).
    { destruct (Req_dec_T (1 + w) 0) as [Hz | _]; [| reflexivity].
      destruct (Rlt_dec (IZR years) 0) as [Hlt | _]; [| reflexivity].
      apply lt_IZR in Hlt. destruct Hret; [contradiction | lia]. }
    rewrite Hno. cbn [bind]. eexists. split; [reflexivity |].
    cbn [rp_final_portfolio_value rp_yearly_projections rp_total_projected_return].
    rewrite fold_range_to_nat.
    assert (H : forall n,
      let s := fold_left (returns_body (Some w)) (range 1 (Z.of_nat n + 1))
                 (of_int 1, []) in
      fst s = Some ((1 + w) ^ n) /\
      List.length (snd s) = n /\
      forall k r, nth_error (snd s) k = Some r ->
        ry_portfolio_value r = Some ((1 + w) ^ S k) /\
        ry_cumulative_return r = Some ((1 + w) ^ S k - 1)).
    { induction n as [| n IH].
      - cbn. split; [reflexivity |]. split; [reflexivity |].
        intros [| k] r; discriminate.
      - cbv zeta in *. rewrite fold_range_S.
        destruct (fold_left _ _ _) as [v l]. cbn [fst snd] in IH.
        destruct IH as (Hv & Hl & Hr). subst v. cbn [returns_body fst snd].
        cbn [fadd fsub fmul ideal_float lift2 of_int].
        split; [f_equal; cbn [pow]; ring |].
        split; [rewrite length_app, Hl; simpl; lia |].
        intros k r H. destruct (Nat.lt_ge_cases k n) as [Hlt | Hge].
        + rewrite nth_error_app1 in H by lia. now apply Hr.
        + rewrite nth_error_app2 in H by lia.
          destruct (k - List.length l)%nat as [| j] eqn:E; [| destruct j; discriminate].
          injection H as <-. assert (k = n) by lia. subst k.
          cbn [ry_portfolio_value ry_cumulative_return].
          split; f_equal; cbn [pow]; ring. }
    destruct (H (Z.to_nat years)) as (Hv & _ & Hr). cbv zeta in Hv, Hr.
    split; [exact Hv |]. split; [exact Hr |].
    intros Hgt Hyears.
    cbn [fsub ideal_float lift2 ipow of_int].
    destruct (Rlt_dec 0 (1 + w)) as [Hpos | Hneg]; [| lra].
    cbn [lift2].
    rewrite <- (Z2Nat.id years) at 1 by exact Hyears.
    rewrite <- INR_IZR_INZ, Rpower_pow by exact Hpos. reflexivity.
Qed.

Lemma returns_projection_closed_form_example :
  exists p,
    project_portfolio_returns [("Equity", Some 1)] [("Equity", Some (7/100))] 10 = Ok p /\
    rp_final_portfolio_value p = Some ((1 + (0 + 1 * (7/100))) ^ 10) /\
    rp_total_projected_return p = Some ((1 + (0 + 1 * (7/100))) ^ 10 - 1).
Proof.
  destruct (@returns_projection_closed_form
              [("Equity", Some 1)] [("Equity", Some (7/100))]
              (0 + 1 * (7/100)) 10 eq_refl) as (_ & Hret).
  destruct Hret as (p & Hp & Hfinal & _ & Htotal); [right; lia |].
  exists p. split; [exact Hp |]. split; [exact Hfinal |]. apply Htotal; [lra | lia].
Defined.
End SimpleProjectionFacts.

(** ** More on the performance summarizer *)

Module SummaryMore.
Import Performance.
Section WithFloat.
Context {num : Type} {F : PyFloat num} {P : PyPow num}.
Local Open Scope list_scope.
Local Open Scope py_scope.

Lemma cum_from_length (op : num -> num -> num) (acc : num) (xs : Series num) :
  List.length (cum_from op acc xs) = List.length xs.
Proof.
  revert acc. induction xs as [| x xs IH]; intros acc; [reflexivity |].
  cbn [cum_from]. destruct (fisnan x); cbn [List.length]; now rewrite IH.
Qed.

Lemma cumulate_length (op : num -> num -> num) (xs : Series num) :
  List.length (cumulate op xs) = List.length xs.
Proof.
  induction xs as [| x xs IH]; [reflexivity |].
  cbn [cumulate]. destruct (fisnan x); cbn [List.length].
  - now rewrite IH.
  - now rewrite cum_from_length.
Qed.

(** X6. The summary of an empty series of returns fails with an IndexError
    (there is no last value of the curve); on a series that is not empty the
    call returns, the curve has one value per return, and the total return is
    the last value of the curve minus 1. *)
Theorem summary_needs_a_return (std : Series num -> num) (risk_free : num) :
  performance_stats std [] risk_free = Raise IndexError /\
  forall (r : num) (rs : Series num),
    exists stats curve,
      performance_stats std (r :: rs) risk_free = Ok (stats, curve) /\
      List.length curve = S (List.length rs) /\
      Total_Return stats = last curve fnan - 1.
Proof.
  split; [reflexivity |].
  intros r rs. unfold performance_stats.
  destruct (cumprod (map (fun x => 1 + x) (r :: rs))) as [| c cs] eqn:E.
  - apply (f_equal (@List.length num)) in E.
    unfold cumprod in E. rewrite cumulate_length, length_map in E. discriminate.
  - rewrite SummaryFacts.iloc_last_cons. cbn [bind].
    eexists. eexists. split; [reflexivity |]. split.
    + rewrite <- E. unfold cumprod. now rewrite cumulate_length, length_map.
    + cbn [Total_Return]. f_equal.
      rewrite (@SummaryFacts.last_default_irrelevant _ (c :: cs) fnan c) by discriminate.
      destruct cs; reflexivity.
Qed.

End WithFloat.

Import Ideal.
Local Open Scope list_scope.
Local Open Scope R_scope.

(** The growth factors of a series of real returns. *)
Lemma growth_factors (rs : list R) :
  map (fun r => (1 + r)%py) (reals rs) = reals (map (fun r => 1 + r) rs).
Proof. unfold reals. rewrite !map_map. reflexivity. Qed.

Lemma running_product_nth (cs : list R) (a : R) (k : nat) :
  (k < List.length cs)%nat ->
  nth_error (cum_from fmul (Some a) (reals cs)) k =
  Some (Some (fold_left Rmult (firstn (S k) cs) a)).
Proof.
  revert a k. induction cs as [| c cs IH]; intros a k Hk; [simpl in Hk; lia |].
  change (cum_from fmul (Some a) (reals (c :: cs)))
    with (Some (a * c) :: cum_from fmul (Some (a * c)) (reals cs)).
  destruct k as [| k]; [reflexivity |].
  cbn [nth_error]. rewrite IH by (simpl in Hk; lia). reflexivity.
Qed.

Lemma running_product_last (cs : list R) (a : R) :
  last (cum_from fmul (Some a) (reals cs)) (Some a) = Some (fold_left Rmult cs a).
Proof.
  revert a. induction cs as [| c cs IH]; intros a; [reflexivity |].
  change (cum_from fmul (Some a) (reals (c :: cs)))
    with (Some (a * c) :: cum_from fmul (Some (a * c)) (reals cs)).
  cbn [fold_left]. rewrite <- IH.
  destruct (cum_from fmul (Some (a * c)) (reals cs)) as [| o s]; [reflexivity |].
  apply (@SummaryFacts.last_default_irrelevant _ (Some (a * c) :: o :: s)). discriminate.
Qed.

Lemma product_positive (cs : list R) (a : R) :
  0 < a -> Forall (fun c => 0 < c) cs -> 0 < fold_left Rmult cs a.
Proof.
  intros Ha H. revert a Ha. induction H as [| c cs Hc _ IH]; intros a Ha; [exact Ha |].
  cbn [fold_left]. apply IH. now apply Rmult_lt_0_compat.
Qed.

(** X7. In exact arithmetic the curve of a series of real returns is the
    compound growth: its value of position k is the product of 1 + r over
    the first k+1 returns, and the total return is the product over all the
    returns, minus 1. *)
Theorem total_return_is_compound_growth
  (std : list ideal -> ideal) (r0 : R) (rest : list R) (risk_free : ideal) :
  exists stats curve,
    performance_stats std (reals (r0 :: rest)) risk_free = Ok (stats, curve) /\
    Total_Return stats =
      Some (fold_left Rmult (map (fun r => 1 + r) (r0 :: rest)) 1 - 1) /\
    forall k, (k <= List.length rest)%nat ->
      nth_error curve k =
      Some (Some (fold_left Rmult (map (fun r => 1 + r) (firstn (S k) (r0 :: rest))) 1)).
Proof.
  unfold performance_stats. rewrite SummaryFacts.curve_of_reals.
  rewrite SummaryFacts.iloc_last_cons. cbn [bind].
  eexists. eexists. split; [reflexivity |]. cbn [Total_Return].
  rewrite growth_factors. split.
  - rewrite running_product_last. cbn [fsub ideal_float lift2 of_int map fold_left].
    replace (1 * (1 + r0)) with (1 + r0) by ring. reflexivity.
  - intros [| k] Hk.
    + cbn. do 2 f_equal. ring.
    + cbn [nth_error firstn map fold_left].
      rewrite running_product_nth by (rewrite length_map; lia).
      rewrite firstn_map. replace (1 * (1 + r0)) with (1 + r0) by ring. reflexivity.
Qed.

(** The least of a series of numbers above [lo], seen from a number above [lo]. *)
Lemma min_from_above (lo : R) (xs : list ideal) (a : R) :
  Forall (fun x => exists d, x = Some d /\ lo < d) xs ->
  lo < a ->
  exists m, min_from (Some a) xs = Some m /\ lo < m <= a.
Proof.
  intros H. revert a. induction H as [| x xs (d & -> & Hd) _ IH]; intros a Ha.
  - exists a. split; [reflexivity | lra].
  - cbn [min_from]. change (fisnan (Some d)) with false. cbv iota.
    unfold fmin. cbn [flt ideal_float ilt].
    destruct (Rlt_dec d a) as [Hlt | Hge].
    + destruct (IH d Hd) as (m & Hm & Hle). exists m. split; [exact Hm | lra].
    + apply IH. exact Ha.
Qed.

(** The drawdowns of a curve that stays positive lie in (-1, 0]. *)
Lemma drawdown_tail_bounds (cs : list R) (p m : R) :
  0 < p <= m -> Forall (fun c => 0 < c) cs ->
  Forall (fun x => exists d, x = Some d /\ -1 < d)
    (map (fun q => (q - 1)%py)
       (series_div (cum_from fmul (Some p) (reals cs))
          (cum_from fmax (Some m) (cum_from fmul (Some p) (reals cs))))).
Proof.
  intros Hpm H. revert p m Hpm.
  induction H as [| c cs Hc _ IH]; intros p m Hpm; [constructor |].
  change (cum_from fmul (Some p) (reals (c :: cs)))
    with (Some (p * c) :: cum_from fmul (Some (p * c)) (reals cs)).
  rewrite SummaryFacts.cum_from_some.
  assert (Hpc : 0 < p * c) by (apply Rmult_lt_0_compat; lra).
  assert (Hmax : exists m', fmax (Some m) (Some (p * c)) = Some m' /\ p * c <= m').
  { unfold fmax. cbn [flt ideal_float ilt].
    destruct (Rlt_dec m (p * c)); eexists; (split; [reflexivity | lra]). }
  destruct Hmax as (m' & -> & Hm').
  unfold series_div. cbn [combine map fst snd].
  constructor.
  - cbn [fdiv fsub ideal_float idiv lift2 of_int].
    destruct (Req_dec_T m' 0) as [Hz | Hnz]; [lra |].
    eexists. split; [reflexivity |].
    assert (0 < p * c / m') by (apply Rdiv_lt_0_compat; lra). lra.
  - apply IH. lra.
Qed.

(** The drawdowns of a curve that never falls are all 0. *)
Lemma rising_tail (cs : list R) (p : R) :
  0 < p -> Forall (fun c => 1 <= c) cs ->
  min_from (Some 0)
    (map (fun q => (q - 1)%py)
       (series_div (cum_from fmul (Some p) (reals cs))
          (cum_from fmax (Some p) (cum_from fmul (Some p) (reals cs)))))
  = Some 0.
Proof.
  intros Hp H. revert p Hp. induction H as [| c cs Hc _ IH]; intros p Hp; [reflexivity |].
  change (cum_from fmul (Some p) (reals (c :: cs)))
    with (Some (p * c) :: cum_from fmul (Some (p * c)) (reals cs)).
  rewrite SummaryFacts.cum_from_some.
  assert (Hmax : fmax (Some p) (Some (p * c)) = Some (p * c)).
  { unfold fmax. cbn [flt ideal_float ilt].
    destruct (Rlt_dec p (p * c)) as [Hlt | Hge]; [reflexivity |]. f_equal. nra. }
  rewrite Hmax. unfold series_div. cbn [combine map fst snd].
  fold (series_div (cum_from fmul (Some (p * c)) (reals cs))
          (cum_from fmax (Some (p * c)) (cum_from fmul (Some (p * c)) (reals cs)))).
  change ((Some (p * c) / Some (p * c) - 1)%py)
    with (fsub (fdiv (Some (p * c)) (Some (p * c))) (Some 1)).
  rewrite SummaryFacts.unit_ratio by nra.
  cbn [min_from]. change (fisnan (Some 0)) with false. cbv iota.
  replace (fmin (Some 0) (Some 0)) with (Some 0 : ideal).
  - apply IH. nra.
  - unfold fmin. cbn [flt ideal_float ilt]. destruct (Rlt_dec 0 0); reflexivity.
Qed.

(** X8. In exact arithmetic, when every return is above -1 (no period loses
    everything) the maximal drawdown lies in (-1, 0], and it is 0 when no
    return is negative. *)
Theorem drawdown_bounds
  (std : list ideal -> ideal) (r0 : R) (rest : list R) (risk_free : ideal) :
  Forall (fun r => -1 < r) (r0 :: rest) ->
  exists stats curve m,
    performance_stats std (reals (r0 :: rest)) risk_free = Ok (stats, curve) /\
    Max_Drawdown stats = Some m /\
    -1 < m <= 0 /\
    (Forall (fun r => 0 <= r) (r0 :: rest) -> m = 0).
Proof.
  intros Hall. inversion Hall as [| ? ? Hr0 Hrest]; subst.
  assert (Hfac : Forall (fun c => 0 < c) (map (fun r => 1 + r) rest)).
  { apply Forall_map. eapply Forall_impl; [| exact Hrest]. cbv beta. intros; lra. }
  unfold performance_stats. rewrite SummaryFacts.curve_of_reals.
  rewrite SummaryFacts.iloc_last_cons. cbn [bind].
  cbn [Max_Drawdown]. rewrite SummaryFacts.drawdowns_of_curve.
  rewrite SummaryFacts.unit_ratio by lra. rewrite SummaryFacts.series_min_some.
  rewrite growth_factors.
  destruct (@min_from_above (-1) _ 0
              (@drawdown_tail_bounds (map (fun r => 1 + r) rest) (1 + r0) (1 + r0)
                 ltac:(lra) Hfac) ltac:(lra)) as (m & Hm & Hbounds).
  eexists. eexists. exists m. split; [reflexivity |].
  cbn [Max_Drawdown]. split; [exact Hm |]. split; [exact Hbounds |].
  intros Hpos. inversion Hpos as [| ? ? Hp0 Hprest]; subst.
  rewrite rising_tail in Hm.
  - now injection Hm.
  - lra.
  - apply Forall_map. eapply Forall_impl; [| exact Hprest]. cbv beta. intros; lra.
Qed.

Lemma drawdown_bounds_example :
  exists stats curve m,
    performance_stats (fun _ => None) (reals [1/10; -1/2; 1/4]) (Some (2/100))
      = Ok (stats, curve) /\
    Max_Drawdown stats = Some m /\
    -1 < m <= 0 /\
    (Forall (fun r => 0 <= r) [1/10; -1/2; 1/4] -> m = 0).
Proof.
  apply drawdown_bounds.
  repeat (constructor; [lra |]). constructor.
Defined.

(** X9. In exact arithmetic, when every return is above -1, the annualized
    return compounds back to the total return: over the n periods of the
    series, that is n/252 years, (1 + annualized)^(n/252) = 1 + total. *)
Theorem annualized_return_compounds_back
  (std : list ideal -> ideal) (r0 : R) (rest : list R) (risk_free : ideal) :
  Forall (fun r => -1 < r) (r0 :: rest) ->
  exists stats curve T A,
    performance_stats std (reals (r0 :: rest)) risk_free = Ok (stats, curve) /\
    Total_Return stats = Some T /\
    Annualized_Return stats = Some A /\
    -1 < T /\
    Rpower (1 + A) (INR (List.length (r0 :: rest)) / 252) = 1 + T.
Proof.
  intros Hall. inversion Hall as [| ? ? Hr0 Hrest]; subst.
  assert (Hfac : Forall (fun c => 0 < c) (map (fun r => 1 + r) rest)).
  { apply Forall_map. eapply Forall_impl; [| exact Hrest]. cbv beta. intros; lra. }
  unfold performance_stats. rewrite SummaryFacts.curve_of_reals.
  rewrite SummaryFacts.iloc_last_cons. cbn [bind].
  rewrite growth_factors, running_product_last.
  set (P := fold_left Rmult (map (fun r => 1 + r) rest) (1 + r0)).
  assert (HP : 0 < P) by (apply product_positive; [lra | exact Hfac]).
  eexists. eexists. exists (P - 1).
  exists (Rpower (1 + (P - 1)) (252 / IZR (Z.of_nat (List.length (reals (r0 :: rest))))) - 1).
  assert (Hn : IZR (Z.of_nat (List.length (reals (r0 :: rest)))) <> 0).
  { apply not_0_IZR. unfold reals. rewrite length_map. simpl. lia. }
  split; [reflexivity |]. cbn [Total_Return Annualized_Return].
  split; [reflexivity |]. split.
  - cbn [fadd fsub fdiv fpow ideal_float ideal_pow lift2 idiv ipow of_int].
    destruct (Req_dec_T _ 0) as [Hz | _]; [contradiction |].
    destruct (Rlt_dec 0 (1 + (P - 1))) as [_ | Hneg]; [reflexivity | lra].
  - split; [lra |].
    replace (1 + (Rpower (1 + (P - 1)) (252 / IZR (Z.of_nat (List.length (reals (r0 :: rest))))) - 1))
      with (Rpower (1 + (P - 1)) (252 / IZR (Z.of_nat (List.length (reals (r0 :: rest))))))
      by ring.
    rewrite Rpower_mult. unfold reals in *. rewrite length_map in *.
    rewrite <- INR_IZR_INZ in *.
    replace (252 / INR (List.length (r0 :: rest)) * (INR (List.length (r0 :: rest)) / 252))
      with 1 by (field; exact Hn).
    rewrite Rpower_1 by lra. reflexivity.
Qed.

Lemma annualized_return_compounds_back_example :
  exists stats curve T A,
    performance_stats (fun _ => None) (reals [1/10; -1/2; 1/4]) (Some (2/100))
      = Ok (stats, curve) /\
    Total_Return stats = Some T /\
    Annualized_Return stats = Some A /\
    -1 < T /\
    Rpower (1 + A) (INR (List.length [1/10; -1/2; 1/4]) / 252) = 1 + T.
Proof.
  apply annualized_return_compounds_back.
  repeat (constructor; [lra |]). constructor.
Defined.

End SummaryMore.

(** ** Dictionaries: lookups after assignments *)

Lemma dict_get_set_same {V : Type} (k : string) (v : V) (d : dict V) :
  dict_get k (dict_set k v d) = Some v.
Proof.
  induction d as [| [k' v'] d IH]; cbn [dict_set dict_get].
  - now rewrite String.eqb_refl.
  - destruct (String.eqb k k') eqn:E; cbn [dict_get].
    + now rewrite String.eqb_refl.
    + now rewrite E.
Qed.

Lemma dict_get_set_other {V : Type} (k k' : string) (v : V) (d : dict V) :
  k' <> k -> dict_get k' (dict_set k v d) = dict_get k' d.
Proof.
  intros Hne. apply String.eqb_neq in Hne.
  induction d as [| [k0 v0] d IH]; cbn [dict_set dict_get].
  - now rewrite Hne.
  - destruct (String.eqb k k0) eqn:E; cbn [dict_get].
    + apply String.eqb_eq in E. subst k0. now rewrite Hne.
    + now rewrite IH.
Qed.

Lemma dict_get_keys {V : Type} (k : string) (d : dict V) :
  dict_get k d = None <-> ~ In k (dict_keys d).
Proof.
  induction d as [| [k' v'] d IH]; cbn [dict_get dict_keys map fst In].
  - tauto.
  - destruct (String.eqb k k') eqn:E.
    + apply String.eqb_eq in E. subst. split; [discriminate | tauto].
    + apply String.eqb_neq in E. rewrite IH. unfold dict_keys.
      split; [intros H [Heq | Hin]; [congruence | tauto] | tauto].
Qed.

Lemma dict_keys_set {V : Type} (k : string) (v : V) (d : dict V) :
  dict_keys (dict_set k v d) =
  match dict_get k d with
  | Some _ => dict_keys d
  | None => dict_keys d ++ [k]
  end.
Proof.
  induction d as [| [k' v'] d IH]; cbn [dict_set dict_get dict_keys map fst app].
  - reflexivity.
  - destruct (String.eqb k k') eqn:E; cbn [dict_keys map fst].
    + apply String.eqb_eq in E. now subst.
    + unfold dict_keys in IH. rewrite IH. destruct (dict_get k d); reflexivity.
Qed.

(** A dict built key by key, each value computed from its key: what a dict
    comprehension over [ks] gives, on top of [d0]. *)
Lemma dict_of_keys_get {V : Type} (f : string -> V) (ks : list string) (d0 : dict V)
  (k : string) :
  dict_get k (fold_left (fun d x => dict_set x (f x) d) ks d0) =
  if existsb (String.eqb k) ks then Some (f k) else dict_get k d0.
Proof.
  revert d0. induction ks as [| x ks IH] using rev_ind; intros d0; [reflexivity |].
  rewrite fold_left_app, existsb_app. cbn [fold_left existsb].
  rewrite orb_false_r. destruct (String.eqb k x) eqn:E.
  - apply String.eqb_eq in E. subst x. rewrite orb_true_r. apply dict_get_set_same.
  - apply String.eqb_neq in E. rewrite orb_false_r, dict_get_set_other by exact E.
    apply IH.
Qed.

Lemma dict_of_keys_keys {V : Type} (f : string -> V) (ks : list string) :
  NoDup ks ->
  dict_keys (fold_left (fun d x => dict_set x (f x) d) ks []) = ks.
Proof.
  induction ks as [| x ks IH] using rev_ind; intros Hnd; [reflexivity |].
  apply NoDup_remove in Hnd. rewrite app_nil_r in Hnd. destruct Hnd as (Hnd & Hx).
  rewrite fold_left_app. cbn [fold_left]. rewrite dict_keys_set, dict_of_keys_get.
  replace (existsb (String.eqb x) ks) with false.
  - cbn [dict_get]. now rewrite IH.
  - symmetry. apply not_true_is_false. intros H. apply existsb_exists in H.
    destruct H as (y & Hy & Heq). apply String.eqb_eq in Heq. now subst.
Qed.

(** ** The returns of the single assets *)

Module IndividualFacts.
Import Performance.
Section WithFloat.
Context {num : Type} {F : PyFloat num}.
Local Open Scope list_scope.
Local Open Scope py_scope.

Lemma column_index_nth (cols : list string) (j : nat) (c : string) :
  NoDup cols -> nth_error cols j = Some c -> column_index c cols = Some j.
Proof.
  revert j. induction cols as [| x cols IH]; intros j Hnd H; [destruct j; discriminate |].
  inversion Hnd as [| ? ? Hx Hnd']; subst. cbn [column_index].
  destruct j as [| j]; cbn [nth_error] in H.
  - injection H as ->. now rewrite String.eqb_refl.
  - destruct (String.eqb c x) eqn:E.
    + apply String.eqb_eq in E. subst x. exfalso. apply Hx.
      eapply nth_error_In. exact H.
    + now rewrite (IH j Hnd' H).
Qed.

Lemma column_index_in (cols : list string) (c : string) :
  In c cols -> exists j, column_index c cols = Some j /\ nth_error cols j = Some c.
Proof.
  induction cols as [| x cols IH]; intros Hin; [destruct Hin |].
  cbn [column_index]. destruct (String.eqb c x) eqn:E.
  - apply String.eqb_eq in E. subst x. exists O. split; reflexivity.
  - apply String.eqb_neq in E. destruct Hin as [Heq | Hin]; [congruence |].
    destruct (IH Hin) as (j & -> & Hj). exists (S j). split; [reflexivity | exact Hj].
Qed.

Lemma last_map {A B : Type} (f : A -> B) (l : list A) (d : A) :
  last (map f l) (f d) = f (last l d).
Proof.
  induction l as [| x [| y l] IH]; try reflexivity.
  exact IH.
Qed.

(** The total return of the column of position [j]: from the first row to
    the last. *)
Lemma individual_return_at (prices : DataFrame num) (r0 : list num)
  (rs : list (list num)) (j : nat) (c : string) (d : dict num) :
  rows prices = r0 :: rs ->
  column_index c (columns prices) = Some j ->
  individual_return prices d c =
  Ok (dict_set c ((nth j (last rs r0) fnan - nth j r0 fnan) / nth j r0 fnan) d).
Proof.
  intros Hrows Hj. unfold individual_return, frame_column. rewrite Hj, Hrows.
  cbn [bind map iloc_first]. rewrite SummaryFacts.iloc_last_cons. cbn [bind].
  rewrite (last_map (fun r => nth j r fnan)). reflexivity.
Qed.

(** X10. On a frame that has a column and no row the individual returns
    fail with an IndexError (there is no first price).  On a frame with at
    least one row and distinct column labels the call returns a dict whose
    keys are the columns, in their order, and the value of a column is
    (last price - first price) / first price. *)
Theorem individual_returns_by_column (prices : DataFrame num) :
  (rows prices = [] -> columns prices <> [] ->
     calculate_individual_returns prices = Raise IndexError) /\
  (forall r0 rs, rows prices = r0 :: rs -> NoDup (columns prices) ->
     exists d,
       calculate_individual_returns prices = Ok d /\
       dict_keys d = columns prices /\
       forall j c, nth_error (columns prices) j = Some c ->
         dict_get c d =
         Some ((nth j (last rs r0) fnan - nth j r0 fnan) / nth j r0 fnan)).
Proof.
  split.
  - intros Hrows Hcols. unfold calculate_individual_returns.
    destruct (columns prices) as [| c cs] eqn:E; [contradiction |].
    cbn [foldM]. unfold individual_return, frame_column. rewrite E.
    cbn [column_index]. rewrite String.eqb_refl, Hrows. reflexivity.
  - intros r0 rs Hrows Hnd.
    set (value := fun c =>
           match column_index c (columns prices) with
           | Some j => (nth j (last rs r0) fnan - nth j r0 fnan) / nth j r0 fnan
           | None => fnan
           end).
    assert (Hfold : forall cs d0, incl cs (columns prices) ->
              foldM (individual_return prices) cs d0 =
              Ok (fold_left (fun d x => dict_set x (value x) d) cs d0)).
    { induction cs as [| c cs IH]; intros d0 Hincl; [reflexivity |].
      cbn [foldM fold_left].
      destruct (column_index_in (columns prices) c) as (j & Hj & _).
      { apply Hincl. now left. }
      assert (Hv : value c =
                (nth j (last rs r0) fnan - nth j r0 fnan) / nth j r0 fnan).
      { unfold value. now rewrite Hj. }
      rewrite (@individual_return_at prices r0 rs j c d0 Hrows Hj). cbn [bind].
      rewrite IH by (intros x Hx; apply Hincl; now right).
      now rewrite Hv. }
    eexists. split; [apply Hfold, incl_refl |]. split.
    + now apply dict_of_keys_keys.
    + intros j c Hc. rewrite dict_of_keys_get.
      replace (existsb (String.eqb c) (columns prices)) with true.
      * unfold value. now rewrite (@column_index_nth (columns prices) j c Hnd Hc).
      * symmetry. apply existsb_exists. exists c.
        split; [eapply nth_error_In; exact Hc | apply String.eqb_refl].
Qed.

End WithFloat.
End IndividualFacts.

(** ** Fees and the growth of a series *)

Module FeeFacts.
Import Performance Ideal.
Local Open Scope string_scope.
Local Open Scope list_scope.
Local Open Scope R_scope.

Lemma Rpower_unit_interval (x y : R) : 0 < x <= 1 -> 0 <= y -> 0 < Rpower x y <= 1.
Proof.
  intros Hx Hy. unfold Rpower. split; [apply exp_pos |].
  assert (Hln : ln x <= 0).
  { destruct (Req_dec_T x 1) as [-> | Hne]; [rewrite ln_1; lra |].
    rewrite <- ln_1. left. apply ln_increasing; lra. }
  assert (Hprod : y * ln x <= 0) by nra.
  rewrite <- exp_0. destruct Hprod as [Hlt | Heq].
  - left. now apply exp_increasing.
  - rewrite Heq. lra.
Qed.

(** One layer of fees with a factor in (0, 1] lowers a return that is at
    least -1, and leaves it at least -1. *)
Lemma layers_lower (factors : list ideal) (r : R) :
  Forall (fun x => exists phi, x = Some phi /\ 0 < phi <= 1) factors ->
  -1 <= r ->
  exists o,
    fold_left (fun x factor => ((1 + x) * factor - 1)%py) factors (Some r) = Some o /\
    -1 <= o <= r.
Proof.
  intros H. revert r. induction H as [| x factors (phi & -> & Hphi) _ IH]; intros r Hr.
  - exists r. split; [reflexivity | lra].
  - cbn [fold_left].
    change ((1 + Some r) * Some phi - 1)%py with (Some ((1 + r) * phi - 1)).
    destruct (IH ((1 + r) * phi - 1)) as (o & Ho & Hbound); [nra |].
    exists o. split; [exact Ho |]. nra.
Qed.

Lemma expense_factors_unit (ers : option (dict ideal)) (weights : dict ideal) :
  (forall e_rs, ers = Some e_rs ->
     Forall (fun kv => exists e, snd kv = Some e /\ e < 1) e_rs) ->
  Forall (fun tw => exists w, snd tw = Some w /\ 0 <= w) weights ->
  exists fs,
    expense_factors ers weights = Ok fs /\
    Forall (fun x => exists phi, x = Some phi /\ 0 < phi <= 1) fs.
Proof.
  intros Hers Hw. unfold expense_factors.
  destruct ers as [[| e0 ers] |]; try (exists []; split; [reflexivity | constructor]).
  specialize (Hers _ eq_refl). set (d := e0 :: ers) in *. clearbody d.
  assert (H : exists fs',
             mapM (expense_factor d) weights = Ok fs' /\
             Forall (fun x => exists phi, x = Some phi /\ 0 < phi <= 1)
               (flat_map (fun f => match f with Some x => [x] | None => [] end) fs')).
  { induction Hw as [| [t wt] weights (w & Hwt & Hw0) _ (fs' & Hm & Hall)].
    - exists []. split; [reflexivity | constructor].
    - cbn [fst snd] in *. subst wt. cbn [mapM]. rewrite Hm.
      unfold expense_factor. cbn [fst snd]. cbv zeta.
      assert (Hget : dict_get_default t (of_int 0) d = Some 0 \/
                     exists e, dict_get_default t (of_int 0) d = Some e /\ e < 1).
      { unfold dict_get_default. clear Hm Hall.
        induction Hers as [| [k v] d (e & Hv & He) _ IHd].
        - left. reflexivity.
        - cbn [dict_get]. destruct (String.eqb t k); [| exact IHd].
          right. exists e. cbn [snd] in Hv. split; assumption. }
      destruct Hget as [-> | (e & -> & He)].
      + cbn [flt ideal_float ilt of_int]. destruct (Rlt_dec 0 0); [lra |].
        cbn [bind]. exists (None :: fs'). split; [reflexivity | exact Hall].
      + cbn [flt ideal_float ilt of_int].
        destruct (Rlt_dec 0 e) as [Hpos | _].
        * rewrite ReturnsFacts.daily_factor_below_1 by exact He. cbn [bind].
          assert (Hd : 0 < Rpower (1 - e) (1 / 252) <= 1)
            by (apply Rpower_unit_interval; lra).
          rewrite ReturnsFacts.py_pow_ideal by lra. cbn [bind ipow].
          destruct (Rlt_dec 0 (Rpower (1 - e) (1 / 252))) as [_ | Hn]; [| lra].
          eexists. split; [reflexivity |]. cbn [flat_map app].
          constructor; [| exact Hall].
          eexists. split; [reflexivity |]. apply Rpower_unit_interval; assumption.
        * cbn [bind]. exists (None :: fs'). split; [reflexivity | exact Hall]. }
  destruct H as (fs' & -> & Hall). cbn [bind]. eauto.
Qed.

(** X11. In exact arithmetic fees never raise a return: with an advisory fee
    in [0, 1), expense ratios below 1 and weights that are not negative, no
    power raises, and every period's return after fees is a number between
    -1 and the return before fees, when that one is at least -1. *)
Theorem fees_never_raise_returns
  (rs : list R) (a : R) (ers : option (dict ideal)) (weights : dict ideal) :
  0 <= a < 1 ->
  (forall e_rs, ers = Some e_rs ->
     Forall (fun kv => exists e, snd kv = Some e /\ e < 1) e_rs) ->
  Forall (fun tw => exists w, snd tw = Some w /\ 0 <= w) weights ->
  Forall (fun r => -1 <= r) rs ->
  exists net,
    apply_fees (reals rs) (Some a) ers weights = Ok net /\
    Forall2 (fun n r => exists x, n = Some x /\ -1 <= x <= r) net rs.
Proof.
  intros Ha Hers Hw Hrs. rewrite ReturnsFacts.apply_fees_pointwise.
  rewrite ReturnsFacts.daily_factor_below_1 by lra. cbn [bind].
  assert (Hd : 0 < Rpower (1 - a) (1 / 252) <= 1)
    by (apply Rpower_unit_interval; lra).
  destruct (expense_factors_unit Hers Hw) as (fs & -> & Hfac). cbn [bind].
  eexists. split; [reflexivity |].
  induction Hrs as [| r rs Hr _ IH]; [constructor |].
  cbn [reals map]. constructor; [| exact IH].
  change ((1 + Some r) * Some (Rpower (1 - a) (1 / 252)) - 1)%py
    with (Some ((1 + r) * Rpower (1 - a) (1 / 252) - 1)).
  destruct (@layers_lower _ ((1 + r) * Rpower (1 - a) (1 / 252) - 1) Hfac)
    as (o & Ho & Hbound); [nra |].
  exists o. split; [exact Ho |]. nra.
Qed.

Lemma fees_never_raise_returns_example :
  exists net,
    apply_fees (reals [1/100; -2/100]) (Some (1/100))
      (Some (Data.get_expense_ratios ["SPY"; "BND"]))
      [("SPY", Some (6/10)); ("BND", Some (4/10))] = Ok net /\
    Forall2 (fun n r => exists x, n = Some x /\ -1 <= x <= r) net [1/100; -2/100].
Proof.
  apply fees_never_raise_returns.
  - lra.
  - intros e_rs [= <-]. cbv [Data.get_expense_ratios Data.er fold_left dict_set dict_get_default
                              dict_get String.eqb Ascii.eqb Bool.eqb].
    repeat (constructor; [eexists; split; [reflexivity | lra] |]). constructor.
  - repeat (constructor; [eexists; split; [reflexivity | lra] |]). constructor.
  - repeat (constructor; [lra |]). constructor.
Defined.

(** The product of the growth factors after a layer of factor [d]. *)
Lemma fold_mult_scale (l : list R) (x y : R) :
  fold_left Rmult l (x * y) = fold_left Rmult l x * y.
Proof.
  revert x. induction l as [| c l IH]; intros x; [reflexivity |].
  cbn [fold_left]. rewrite <- IH. f_equal. ring.
Qed.

Lemma layered_product (d : R) (rs : list R) (x : R) :
  fold_left Rmult (map (fun r => 1 + ((1 + r) * d - 1)) rs) x =
  fold_left Rmult (map (fun r => 1 + r) rs) x * d ^ List.length rs.
Proof.
  revert x. induction rs as [| r rs IH]; intros x.
  - cbn. ring.
  - cbn [map fold_left List.length pow]. rewrite IH.
    replace (x * (1 + ((1 + r) * d - 1))) with (x * (1 + r) * d) by ring.
    rewrite fold_mult_scale. ring.
Qed.

(** The total return of a series of real returns. *)
Lemma total_of_reals (std : list ideal -> ideal) (r0 : R) (rest : list R)
  (risk_free : ideal) :
  exists stats curve,
    performance_stats std (reals (r0 :: rest)) risk_free = Ok (stats, curve) /\
    Total_Return stats =
      Some (fold_left Rmult (map (fun r => 1 + r) (r0 :: rest)) 1 - 1).
Proof.
  unfold performance_stats. rewrite SummaryFacts.curve_of_reals.
  rewrite SummaryFacts.iloc_last_cons. cbn [bind].
  eexists. eexists. split; [reflexivity |]. cbn [Total_Return].
  rewrite SummaryMore.growth_factors, SummaryMore.running_product_last.
  cbn [fsub ideal_float lift2 of_int map fold_left].
  replace (1 * (1 + r0)) with (1 + r0) by ring. reflexivity.
Qed.

(** X12. In exact arithmetic an advisory fee [a] below 1 costs, over the n
    periods of a series, the factor (1 - a)^(n/252) of the growth: with G
    the total return before the fee and N after it,
    1 + N = (1 + G) * (1 - a)^(n/252). *)
Theorem advisory_fee_compounds
  (std : list ideal -> ideal) (r0 : R) (rest : list R) (a : R)
  (weights : dict ideal) (risk_free : ideal) :
  a < 1 ->
  exists gross net after_fees curve curve' G N,
    performance_stats std (reals (r0 :: rest)) risk_free = Ok (gross, curve) /\
    apply_fees (reals (r0 :: rest)) (Some a) None weights = Ok after_fees /\
    performance_stats std after_fees risk_free = Ok (net, curve') /\
    Total_Return gross = Some G /\
    Total_Return net = Some N /\
    1 + N = (1 + G) * Rpower (1 - a) (INR (List.length (r0 :: rest)) / 252).
Proof.
  intros Ha.
  assert (Hfees : apply_fees (reals (r0 :: rest)) (Some a) None weights =
                  Ok (reals (map (fun r => (1 + r) * Rpower (1 - a) (1 / 252) - 1)
                               (r0 :: rest)))).
  { unfold apply_fees, deduct. rewrite ReturnsFacts.daily_factor_below_1 by exact Ha.
    cbn [bind]. unfold reals. rewrite !map_map. reflexivity. }
  destruct (total_of_reals std r0 rest risk_free) as (gross & curve & Hg & HG).
  destruct (total_of_reals std ((1 + r0) * Rpower (1 - a) (1 / 252) - 1)
              (map (fun r => (1 + r) * Rpower (1 - a) (1 / 252) - 1) rest) risk_free)
    as (net & curve' & Hn & HN).
  exists gross, net. eexists. exists curve, curve'. do 2 eexists.
  split; [exact Hg |]. split; [exact Hfees |]. split; [exact Hn |].
  split; [exact HG |]. split; [exact HN |].
  set (d := Rpower (1 - a) (1 / 252)).
  assert (Hd : 0 < d) by apply exp_pos.
  change ((1 + r0) * d - 1 :: map (fun r => (1 + r) * d - 1) rest)
    with (map (fun r => (1 + r) * d - 1) (r0 :: rest)).
  rewrite map_map, layered_product.
  replace (Rpower (1 - a) (INR (List.length (r0 :: rest)) / 252))
    with (d ^ List.length (r0 :: rest)).
  - ring.
  - rewrite <- Rpower_pow by exact Hd. unfold d. rewrite Rpower_mult.
    f_equal. field.
Qed.

Lemma advisory_fee_compounds_example :
  exists gross net after_fees curve curve' G N,
    performance_stats (fun _ => None) (reals [1/10; -1/2; 1/4]) (Some (2/100))
      = Ok (gross, curve) /\
    apply_fees (reals [1/10; -1/2; 1/4]) (Some (1/100)) None [] = Ok after_fees /\
    performance_stats (fun _ => None) after_fees (Some (2/100)) = Ok (net, curve') /\
    Total_Return gross = Some G /\
    Total_Return net = Some N /\
    1 + N = (1 + G) * Rpower (1 - 1/100) (INR (List.length [1/10; -1/2; 1/4]) / 252).
Proof.
  apply advisory_fee_compounds. lra.
Defined.

End FeeFacts.

(** ** One asset *)

Module SingleAssetFacts.
Import Performance Ideal.
Local Open Scope string_scope.
Local Open Scope list_scope.
Local Open Scope R_scope.

(** The rows of returns of a frame of one column of prices that are not 0. *)
Lemma single_column_changes (ps : list R) (a : R) :
  Forall (fun p => p <> 0) (a :: ps) ->
  pct_change_from [Some a] (map (fun p => [Some p]) ps) =
  map (fun ab => [Some (snd ab / fst ab - 1)]) (combine (a :: ps) ps).
Proof.
  revert a. induction ps as [| b ps IH]; intros a H; [reflexivity |].
  inversion H as [| ? ? Ha H']; subst.
  cbn [map pct_change_from combine]. rewrite IH by exact H'.
  f_equal. unfold pct_row. cbn [combine map fst snd fdiv fsub ideal_float idiv lift2 of_int].
  destruct (Req_dec_T a 0); [contradiction | reflexivity].
Qed.

Lemma single_column_returns (t : string) (weights : dict ideal) (p0 : R) (ps : list R) :
  Forall (fun p => p <> 0) (p0 :: ps) ->
  dict_get t weights = Some (Some 1) ->
  calculate_portfolio_returns
    {| columns := [t]; rows := map (fun p => [Some p]) (p0 :: ps) |}
    weights (Some 0) None =
  Ok (reals (map (fun ab => 0 + (snd ab / fst ab - 1) * 1) (combine (p0 :: ps) ps))).
Proof.
  intros Hps Hw. unfold calculate_portfolio_returns.
  cbn [dropna pct_change columns mapM]. unfold dict_item. rewrite Hw. cbn [bind].
  rewrite ReturnsFacts.no_fees by now left. f_equal.
  unfold dot. cbn [rows].
  change (map (fun p => [Some p]) (p0 :: ps))
    with ([Some p0] :: map (fun p => [Some p]) ps).
  unfold dropna, pct_change. cbn [rows]. rewrite single_column_changes by exact Hps.
  cbn [filter map existsb fisnan ideal_float iisnan fnan orb negb].
  generalize (combine (p0 :: ps) ps). intros l. unfold reals.
  induction l as [| ab l IH]; [reflexivity |].
  cbn [map filter existsb fisnan ideal_float iisnan orb negb].
  rewrite IH. reflexivity.
Qed.

(** The growth factors of the returns of one column multiply to the ratio of
    the last price to the first. *)
Lemma growth_telescopes (ps : list R) (a x : R) :
  Forall (fun p => p <> 0) (a :: ps) ->
  fold_left Rmult
    (map (fun r => 1 + r)
       (map (fun ab => 0 + (snd ab / fst ab - 1) * 1) (combine (a :: ps) ps))) x =
  x * (last ps a / a).
Proof.
  revert a x. induction ps as [| b ps IH]; intros a x H.
  - inversion H; subst. cbn. field. assumption.
  - inversion H as [| ? ? Ha H']; subst. inversion H' as [| ? ? Hb _]; subst.
    change (combine (a :: b :: ps) (b :: ps)) with ((a, b) :: combine (b :: ps) ps).
    cbn [map fold_left fst snd]. rewrite IH by exact H'.
    replace (last (b :: ps) a) with (last ps b).
    + field. split; assumption.
    + destruct ps; [reflexivity |].
      apply (@SummaryFacts.last_default_irrelevant _ (r :: ps)). discriminate.
Qed.

(** X13. In exact arithmetic, for one asset held with weight 1 and no fees,
    the total return of the portfolio returns is the asset's individual
    return: (last price - first price) / first price. *)
Theorem single_asset_total_return
  (std : list ideal -> ideal) (t : string) (weights : dict ideal)
  (p0 p1 : R) (ps : list R) (risk_free : ideal) :
  Forall (fun p => 0 < p) (p0 :: p1 :: ps) ->
  dict_get t weights = Some (Some 1) ->
  let prices := {| columns := [t]; rows := map (fun p => [Some p]) (p0 :: p1 :: ps) |} in
  exists rets stats curve ind,
    calculate_portfolio_returns prices weights (Some 0) None = Ok rets /\
    performance_stats std rets risk_free = Ok (stats, curve) /\
    calculate_individual_returns prices = Ok ind /\
    Total_Return stats = Some ((last ps p1 - p0) / p0) /\
    dict_get t ind = Some (Some ((last ps p1 - p0) / p0)).
Proof.
  intros Hpos Hw prices.
  assert (Hnz : Forall (fun p => p <> 0) (p0 :: p1 :: ps)).
  { eapply Forall_impl; [| exact Hpos]. cbv beta. intros; lra. }
  assert (Hp0 : p0 <> 0) by (inversion Hnz; assumption).
  unfold prices. rewrite (single_column_returns t weights Hnz Hw).
  change (combine (p0 :: p1 :: ps) (p1 :: ps)) with ((p0, p1) :: combine (p1 :: ps) ps).
  cbn [map].
  destruct (FeeFacts.total_of_reals std (0 + (snd (p0, p1) / fst (p0, p1) - 1) * 1)
              (map (fun ab => 0 + (snd ab / fst ab - 1) * 1) (combine (p1 :: ps) ps))
              risk_free) as (stats & curve & Hs & HT).
  eexists. exists stats, curve. eexists.
  split; [reflexivity |]. split; [exact Hs |]. split.
  - unfold calculate_individual_returns. cbn [columns foldM].
    rewrite (@IndividualFacts.individual_return_at _ _ _ [Some p0]
               (map (fun p => [Some p]) (p1 :: ps)) O t []);
      [reflexivity | reflexivity |].
    cbn [columns column_index]. now rewrite String.eqb_refl.
  - split.
    + rewrite HT. f_equal.
      change (0 + (snd (p0, p1) / fst (p0, p1) - 1) * 1
              :: map (fun ab => 0 + (snd ab / fst ab - 1) * 1) (combine (p1 :: ps) ps))
        with (map (fun ab => 0 + (snd ab / fst ab - 1) * 1)
                (combine (p0 :: p1 :: ps) (p1 :: ps))).
      cbn [fst snd]. rewrite growth_telescopes by exact Hnz.
      replace (last (p1 :: ps) p0) with (last ps p1).
      * field. exact Hp0.
      * destruct ps; [reflexivity |].
        apply (@SummaryFacts.last_default_irrelevant _ (r :: ps)). discriminate.
    + rewrite dict_get_set_same. do 2 f_equal.
      rewrite (IndividualFacts.last_map (fun p => [Some p]) (p1 :: ps) p0).
      replace (last (p1 :: ps) p0) with (last ps p1).
      * cbn [nth fsub fdiv ideal_float lift2 idiv].
        destruct (Req_dec_T p0 0); [contradiction | reflexivity].
      * destruct ps; [reflexivity |].
        apply (@SummaryFacts.last_default_irrelevant _ (r :: ps)). discriminate.
Qed.

Lemma single_asset_total_return_example :
  let prices := {| columns := ["SPY"];
                   rows := map (fun p => [Some p]) [100; 110; 99] |} in
  exists rets stats curve ind,
    calculate_portfolio_returns prices [("SPY", Some 1)] (Some 0) None = Ok rets /\
    performance_stats (fun _ => None) rets (Some (2/100)) = Ok (stats, curve) /\
    calculate_individual_returns prices = Ok ind /\
    Total_Return stats = Some ((last [99] 110 - 100) / 100) /\
    dict_get "SPY" ind = Some (Some ((last [99] 110 - 100) / 100)).
Proof.
  apply (@single_asset_total_return (fun _ => None) "SPY" [("SPY", Some 1)]
           100 110 [99] (Some (2/100))).
  - repeat (constructor; [lra |]). constructor.
  - reflexivity.
Defined.

End SingleAssetFacts.

(** ** The combined holdings of analyze_aggregate_portfolio *)

Lemma dict_set_NoDup {V : Type} (k : string) (v : V) (d : dict V) :
  NoDup (dict_keys d) -> NoDup (dict_keys (dict_set k v d)).
Proof.
  intros H. rewrite dict_keys_set. destruct (dict_get k d) eqn:E; [exact H |].
  apply dict_get_keys in E.
  apply NoDup_rev in H. rewrite <- (rev_involutive (dict_keys d ++ [k])).
  apply NoDup_rev. rewrite rev_app_distr. cbn [rev app]. constructor; [| exact H].
  now rewrite <- in_rev.
Qed.

Lemma dict_get_app {V : Type} (k : string) (d d' : dict V) :
  dict_get k (d ++ d') =
  match dict_get k d with
  | Some v => Some v
  | None => dict_get k d'
  end.
Proof.
  induction d as [| [k' v'] d IH]; [reflexivity |].
  cbn [app dict_get]. destruct (String.eqb k k'); [reflexivity | exact IH].
Qed.

Module CombineFacts.
Import Performance PortfolioRouter.
Section WithFloat.
Context {num : Type} {F : PyFloat num}.
Local Open Scope string_scope.
Local Open Scope list_scope.
Local Open Scope py_scope.

(** The first loop runs over the holdings of all the portfolios, in order. *)
Lemma combined_holdings_fold (ps : list (SinglePortfolioData num)) (s : dict num * dict string) :
  fst (fold_left combine_body ps s) =
  fold_left add_holding (flat_map (@holdings num) ps) (fst s).
Proof.
  revert s. induction ps as [| p ps IH]; intros s; [reflexivity |].
  cbn [fold_left flat_map]. rewrite IH, fold_left_app. reflexivity.
Qed.

Lemma add_holdings_NoDup (items : list (string * num)) (d : dict num) :
  NoDup (dict_keys d) -> NoDup (dict_keys (fold_left add_holding items d)).
Proof.
  revert d. induction items as [| ta items IH]; intros d H; [exact H |].
  cbn [fold_left]. apply IH. unfold add_holding. now apply dict_set_NoDup.
Qed.

(** The amount held in [t] after adding the items: the amounts of [t] are
    added to what was there, or to 0, in the order of the items. *)
Lemma add_holdings_get (t : string) (items : list (string * num)) (d : dict num) :
  dict_get t (fold_left add_holding items d) =
  match map snd (filter (fun ta => String.eqb t (fst ta)) items) with
  | [] => dict_get t d
  | a :: amounts => Some (fold_left fadd (a :: amounts) (dict_get_default t 0 d))
  end.
Proof.
  revert d. induction items as [| [k a] items IH]; intros d; [reflexivity |].
  cbn [fold_left filter fst]. rewrite IH.
  destruct (String.eqb t k) eqn:E.
  - apply String.eqb_eq in E. subst k.
    assert (Hget : dict_get t (add_holding d (t, a)) = Some (dict_get_default t 0 d + a)).
    { unfold add_holding. cbn [fst snd]. apply dict_get_set_same. }
    assert (Hd : dict_get_default t 0 (add_holding d (t, a)) = dict_get_default t 0 d + a).
    { unfold dict_get_default at 1. now rewrite Hget. }
    cbn [map snd]. rewrite Hd, Hget.
    destruct (map snd (filter _ items)); reflexivity.
  - apply String.eqb_neq in E.
    assert (Hget : dict_get t (add_holding d (k, a)) = dict_get t d).
    { unfold add_holding. cbn [fst snd]. now apply dict_get_set_other. }
    assert (Hd : dict_get_default t 0 (add_holding d (k, a)) = dict_get_default t 0 d).
    { unfold dict_get_default. now rewrite Hget. }
    rewrite Hd, Hget. reflexivity.
Qed.

(** X14. The combined holdings have one entry per ticker held in some
    portfolio, and the amount of a ticker is the sum of its amounts over the
    portfolios, added from 0 in the order of the portfolios. *)
Theorem combined_holdings_sum (ps : list (SinglePortfolioData num)) :
  let combined_holdings := fst (combine_portfolios ps) in
  NoDup (dict_keys combined_holdings) /\
  forall t,
    dict_get t combined_holdings =
    match map snd (filter (fun ta => String.eqb t (fst ta)) (flat_map (@holdings num) ps)) with
    | [] => None
    | a :: amounts => Some (py_sum (a :: amounts))
    end.
Proof.
  cbv zeta. unfold combine_portfolios. rewrite combined_holdings_fold. cbn [fst]. split.
  - apply add_holdings_NoDup. constructor.
  - intros t. rewrite add_holdings_get. reflexivity.
Qed.

(** [d.update(other)] writes the items of [other] in order: a lookup finds
    the last item written for the key, or what [d] had. *)
Lemma dict_update_get {V : Type} (k : string) (d other : dict V) :
  dict_get k (dict_update d other) =
  match dict_get k (rev other) with
  | Some v => Some v
  | None => dict_get k d
  end.
Proof.
  unfold dict_update. revert d. induction other as [| [k' v'] other IH] using rev_ind;
    intros d; [reflexivity |].
  rewrite fold_left_app, rev_app_distr. cbn [fold_left rev app fst snd dict_get].
  destruct (String.eqb k k') eqn:E.
  - apply String.eqb_eq in E. subst k'. apply dict_get_set_same.
  - apply String.eqb_neq in E. rewrite dict_get_set_other by exact E. apply IH.
Qed.

Lemma combined_overrides_get (k : string) (ps : list (SinglePortfolioData num))
  (s : dict num * dict string) :
  dict_get k (snd (fold_left combine_body ps s)) =
  match dict_get k
          (rev (flat_map (fun p => match asset_class_overrides p with
                                   | Some o => o
                                   | None => []
                                   end) ps)) with
  | Some v => Some v
  | None => dict_get k (snd s)
  end.
Proof.
  revert s. induction ps as [| p ps IH]; intros s; [reflexivity |].
  cbn [fold_left flat_map]. rewrite IH, rev_app_distr, dict_get_app.
  destruct (dict_get k (rev (flat_map _ ps))); [reflexivity |].
  unfold combine_body. cbn [snd].
  destruct (asset_class_overrides p) as [[| o os] |]; try reflexivity.
  apply dict_update_get.
Qed.

(** X15. The combined overrides are those of all the portfolios, the later
    portfolio winning: the asset class of a ticker is the last one given for
    it, in the order of the portfolios and of their entries. *)
Theorem later_override_wins (ps : list (SinglePortfolioData num)) (k : string) :
  dict_get k (snd (combine_portfolios ps)) =
  dict_get k
    (rev (flat_map (fun p => match asset_class_overrides p with
                             | Some o => o
                             | None => []
                             end) ps)).
Proof.
  unfold combine_portfolios. rewrite combined_overrides_get. cbn [snd dict_get].
  destruct (dict_get k _); reflexivity.
Qed.

End WithFloat.
End CombineFacts.

Module BlendedFeeFacts.
Import Performance PortfolioRouter Ideal.
Local Open Scope string_scope.
Local Open Scope list_scope.
Local Open Scope R_scope.

(** A dict of real amounts, as a dict of the program. *)
Local Abbreviation amounts rd := (map (fun kv : string * R => (fst kv, Some (snd kv))) rd).

Lemma real_amounts (P : R -> Prop) (d : dict ideal) :
  Forall (fun ta => exists x, snd ta = Some x /\ P x) d ->
  exists rd, d = amounts rd /\ Forall (fun kv => P (snd kv)) rd.
Proof.
  induction 1 as [| [k v] d (x & Hx & HP) _ (rd & -> & Hrd)].
  - exists []. split; [reflexivity | constructor].
  - cbn [snd] in Hx. subst v. exists ((k, x) :: rd). split; [reflexivity |].
    constructor; assumption.
Qed.

Lemma fold_plus_shift (l : list R) (x : R) :
  fold_left Rplus l x = x + fold_left Rplus l 0.
Proof.
  revert x. induction l as [| a l IH]; intros x; cbn [fold_left]; [ring |].
  rewrite (IH (x + a)), (IH (0 + a)). ring.
Qed.

Lemma sum_of_reals (xs : list R) (a : R) :
  fold_left fadd (reals xs) (Some a) = Some (fold_left Rplus xs a).
Proof.
  revert a. induction xs as [| x xs IH]; intros a; [reflexivity |].
  cbn [reals map fold_left]. exact (IH (a + x)).
Qed.

Lemma sum_nonnegative (xs : list R) :
  Forall (fun x => 0 <= x) xs -> 0 <= fold_left Rplus xs 0.
Proof.
  induction 1 as [| x xs Hx _ IH]; cbn [fold_left]; [lra |].
  rewrite fold_plus_shift. lra.
Qed.

Lemma value_of_amounts (rd : dict R) :
  py_sum (dict_values (amounts rd)) = Some (fold_left Rplus (map snd rd) 0).
Proof.
  unfold py_sum, dict_values. rewrite map_map. cbn [snd].
  rewrite <- (map_map snd Some). apply sum_of_reals.
Qed.

Lemma get_of_amounts (k : string) (rd : dict R) :
  dict_get k (amounts rd) = option_map Some (dict_get k rd).
Proof.
  induction rd as [| [k' v] rd IH]; [reflexivity |].
  cbn [map dict_get fst snd]. destruct (String.eqb k k'); [reflexivity | exact IH].
Qed.

Lemma set_of_amounts (k : string) (v : R) (rd : dict R) :
  dict_set k (Some v) (amounts rd) = amounts (dict_set k v rd).
Proof.
  induction rd as [| [k' v'] rd IH]; [reflexivity |].
  cbn [map dict_set fst snd]. destruct (String.eqb k k'); cbn [map fst snd].
  - reflexivity.
  - now rewrite IH.
Qed.

Lemma add_holding_amounts (rd : dict R) (k : string) (a : R) :
  add_holding (amounts rd) (k, Some a) =
  amounts (dict_set k (dict_get_default k 0 rd + a) rd).
Proof.
  unfold add_holding, dict_get_default. cbn [fst snd].
  rewrite get_of_amounts, <- set_of_amounts.
  destruct (dict_get k rd); reflexivity.
Qed.

(** Writing [get(k, 0) + a] at [k] adds [a] to the sum of the values. *)
Lemma sum_after_add (rd : dict R) (k : string) (a : R) :
  fold_left Rplus (map snd (dict_set k (dict_get_default k 0 rd + a) rd)) 0 =
  fold_left Rplus (map snd rd) 0 + a.
Proof.
  unfold dict_get_default.
  induction rd as [| [k' v] rd IH]; cbn [dict_set dict_get map snd fold_left].
  - ring.
  - destruct (String.eqb k k'); cbn [map snd fold_left].
    + rewrite (fold_plus_shift _ (0 + (v + a))), (fold_plus_shift _ (0 + v)). ring.
    + rewrite (fold_plus_shift _ (0 + v)), IH. rewrite (fold_plus_shift _ (0 + v)). ring.
Qed.

Lemma add_holdings_total (items rd : dict R) :
  exists rd',
    fold_left add_holding (amounts items) (amounts rd) = amounts rd' /\
    fold_left Rplus (map snd rd') 0 =
    fold_left Rplus (map snd rd) 0 + fold_left Rplus (map snd items) 0.
Proof.
  revert rd. induction items as [| [k a] items IH]; intros rd.
  - exists rd. split; [reflexivity |]. cbn. ring.
  - cbn [map fold_left fst snd]. rewrite add_holding_amounts.
    destruct (IH (dict_set k (dict_get_default k 0 rd + a) rd)) as (rd' & -> & Hsum).
    exists rd'. split; [reflexivity |].
    rewrite Hsum, sum_after_add, (fold_plus_shift _ (0 + a)). ring.
Qed.

(** The value of the combined holdings is the sum of the values of the
    portfolios. *)
Lemma combined_total (P : R -> Prop) (ps : list (SinglePortfolioData ideal)) :
  Forall (fun p => Forall (fun ta => exists x, snd ta = Some x /\ P x) (holdings p)) ps ->
  forall rd, exists rd' vs,
    fold_left add_holding (flat_map (@holdings ideal) ps) (amounts rd) = amounts rd' /\
    Forall2 (fun p v => exists rp, holdings p = amounts rp /\
                          Forall (fun kv => P (snd kv)) rp /\
                          v = fold_left Rplus (map snd rp) 0) ps vs /\
    fold_left Rplus (map snd rd') 0 =
    fold_left Rplus (map snd rd) 0 + fold_left Rplus vs 0.
Proof.
  induction 1 as [| p ps Hp _ IH]; intros rd.
  - exists rd, []. split; [reflexivity |]. split; [constructor |]. cbn. ring.
  - destruct (@real_amounts P _ Hp) as (rp & Hrp & HP).
    cbn [flat_map]. rewrite fold_left_app, Hrp.
    destruct (add_holdings_total rp rd) as (rd1 & -> & Hsum1).
    destruct (IH rd1) as (rd' & vs & -> & Hvs & Hsum).
    exists rd', (fold_left Rplus (map snd rp) 0 :: vs).
    split; [reflexivity |]. split.
    + constructor; [| exact Hvs]. exists rp. repeat split; assumption.
    + rewrite Hsum, Hsum1. cbn [fold_left].
      rewrite (fold_plus_shift vs (0 + _)). ring.
Qed.

Lemma values_of_portfolios (P : R -> Prop) (ps : list (SinglePortfolioData ideal))
  (vs : list R) :
  Forall2 (fun p v => exists rp, holdings p = amounts rp /\
                        Forall (fun kv => P (snd kv)) rp /\
                        v = fold_left Rplus (map snd rp) 0) ps vs ->
  map (@portfolio_value ideal _) ps = reals vs.
Proof.
  induction 1 as [| p v ps vs (rp & Hrp & _ & ->) _ IH]; [reflexivity |].
  cbn [map reals]. f_equal; [| exact IH].
  unfold portfolio_value. rewrite Hrp. apply value_of_amounts.
Qed.

(** X16. In exact arithmetic, when every amount is a number, the value of
    the combined holdings is the sum of the values of the portfolios: summing
    by ticker loses nothing. *)
Theorem combined_value_is_conserved (ps : list (SinglePortfolioData ideal)) :
  Forall (fun p => Forall (fun ta => exists x, snd ta = Some x) (holdings p)) ps ->
  exists total,
    total_value_of (fst (combine_portfolios ps)) = Some total /\
    py_sum (map (@portfolio_value ideal _) ps) = Some total.
Proof.
  intros H.
  assert (H' : Forall (fun p => Forall (fun ta => exists x, snd ta = Some x /\ True)
                                  (holdings p)) ps).
  { eapply Forall_impl; [| exact H]. cbv beta. intros p Hp.
    eapply Forall_impl; [| exact Hp]. cbv beta. intros ta (x & Hx). eauto. }
  destruct (@combined_total (fun _ => True) ps H' []) as (rd' & vs & Hfold & Hvs & Hsum).
  exists (fold_left Rplus vs 0). split.
  - unfold combine_portfolios. rewrite CombineFacts.combined_holdings_fold.
    cbn [fst]. cbn [map] in Hfold. rewrite Hfold. unfold total_value_of.
    rewrite value_of_amounts, Hsum. cbn [map fold_left]. f_equal. ring.
  - rewrite (@values_of_portfolios (fun _ => True) ps vs Hvs). apply sum_of_reals.
Qed.

Lemma combined_value_is_conserved_example :
  exists total,
    total_value_of
      (fst (combine_portfolios
              [ {| holdings := [("SPY", Some 100); ("BND", Some 50)];
                   advisory_fee := Some (1/100); asset_class_overrides := None;
                   p_account_type := "Brokerage"; annual_cash_flow := Some 0 |};
                {| holdings := [("BND", Some 25); ("VTI", Some 10)];
                   advisory_fee := Some 0; asset_class_overrides := None;
                   p_account_type := "Roth IRA"; annual_cash_flow := Some 0 |} ]))
      = Some total /\
    py_sum (map (@portfolio_value ideal _)
              [ {| holdings := [("SPY", Some 100); ("BND", Some 50)];
                   advisory_fee := Some (1/100); asset_class_overrides := None;
                   p_account_type := "Brokerage"; annual_cash_flow := Some 0 |};
                {| holdings := [("BND", Some 25); ("VTI", Some 10)];
                   advisory_fee := Some 0; asset_class_overrides := None;
                   p_account_type := "Roth IRA"; annual_cash_flow := Some 0 |} ])
      = Some total.
Proof.
  apply combined_value_is_conserved.
  repeat (constructor; [repeat (constructor; [eexists; reflexivity |]); constructor |]).
  constructor.
Defined.

(** The weighted sum of the fees over the portfolios of positive value. *)
Lemma weighted_sum_bounds (T lo hi : R) (ps : list (SinglePortfolioData ideal))
  (vs : list R) :
  0 < T ->
  Forall2 (fun p v => exists rp, holdings p = amounts rp /\
                        Forall (fun kv => 0 <= snd kv) rp /\
                        v = fold_left Rplus (map snd rp) 0) ps vs ->
  Forall (fun p => exists f, advisory_fee p = Some f /\ lo <= f <= hi) ps ->
  exists s,
    (forall acc,
       fold_left fadd
         (map (fun p => ((portfolio_value p / Some T) * advisory_fee p)%py)
              (filter (fun p => (0 <? portfolio_value p)%py) ps)) (Some acc)
       = Some (acc + s)) /\
    lo * (fold_left Rplus vs 0 / T) <= s <= hi * (fold_left Rplus vs 0 / T).
Proof.
  intros HT Hvs. induction Hvs as [| p v ps vs (rp & Hrp & Hpos & ->) _ IH]; intros Hf.
  - exists 0. split; [intros acc; cbn; f_equal; ring |]. cbn. unfold Rdiv. lra.
  - inversion Hf as [| ? ? (f & Hfee & Hbound) Hf']; subst.
    destruct (IH Hf') as (s & Hs & Hsb).
    assert (Hv : portfolio_value p = Some (fold_left Rplus (map snd rp) 0)).
    { unfold portfolio_value. rewrite Hrp. apply value_of_amounts. }
    set (x := fold_left Rplus (map snd rp) 0) in *.
    assert (Hx : 0 <= x).
    { apply sum_nonnegative. apply Forall_map. exact Hpos. }
    cbn [filter fold_left]. rewrite (fold_plus_shift vs (0 + x)).
    replace ((0 + x + fold_left Rplus vs 0) / T)
      with (x / T + fold_left Rplus vs 0 / T) by (field; lra).
    assert (Htest : (0 <? portfolio_value p)%py = if Rlt_dec 0 x then true else false).
    { rewrite Hv. reflexivity. }
    rewrite Htest.
    destruct (Rlt_dec 0 x) as [Hxpos | Hxzero].
    + exists (x / T * f + s). split.
      * intros acc. cbn [map fold_left]. rewrite Hv, Hfee.
        assert (Hterm : (Some acc + Some x / Some T * Some f)%py
                        = Some (acc + x / T * f)).
        { cbn [fdiv fmul fadd ideal_float idiv lift2].
          destruct (Req_dec_T T 0); [lra | reflexivity]. }
        rewrite Hterm, Hs. f_equal. ring.
      * assert (0 < x / T) by (apply Rdiv_lt_0_compat; lra). nra.
    + exists s. split; [exact Hs |].
      replace x with 0 by lra. unfold Rdiv at 1 3. lra.
Qed.

(** X17. In exact arithmetic, with amounts that are not negative and a
    total value above 0, the blended advisory fee is an average of the fees
    of the portfolios weighted by their values: it lies between any two
    bounds of those fees. *)
Theorem blended_fee_between (ps : list (SinglePortfolioData ideal)) (lo hi : R) :
  Forall (fun p => Forall (fun ta => exists x, snd ta = Some x /\ 0 <= x) (holdings p)) ps ->
  Forall (fun p => exists f, advisory_fee p = Some f /\ lo <= f <= hi) ps ->
  (exists T, total_value_of (fst (combine_portfolios ps)) = Some T /\ 0 < T) ->
  exists w,
    weighted_fee ps (total_value_of (fst (combine_portfolios ps))) = Some w /\
    lo <= w <= hi.
Proof.
  intros Hh Hf (T & HT & Hpos).
  destruct (@combined_total (fun x => 0 <= x) ps Hh []) as (rd' & vs & Hfold & Hvs & Hsum).
  assert (HTsum : T = fold_left Rplus vs 0).
  { unfold combine_portfolios in HT. rewrite CombineFacts.combined_holdings_fold in HT.
    cbn [fst] in HT. cbn [map] in Hfold. rewrite Hfold in HT. unfold total_value_of in HT.
    rewrite value_of_amounts, Hsum in HT. cbn [map fold_left] in HT.
    injection HT as <-. ring. }
  destruct (@weighted_sum_bounds T lo hi ps vs Hpos Hvs Hf) as (s & Hs & Hsb).
  rewrite HT. unfold weighted_fee. cbn [flt ideal_float ilt of_int].
  destruct (Rlt_dec 0 T); [| lra].
  exists (0 + s). split; [apply Hs |].
  rewrite <- HTsum in Hsb. replace (T / T) with 1 in Hsb by (field; lra). lra.
Qed.

Lemma blended_fee_between_example :
  exists w,
    weighted_fee
      [ {| holdings := [("SPY", Some 100); ("BND", Some 50)];
           advisory_fee := Some (1/100); asset_class_overrides := None;
           p_account_type := "Brokerage"; annual_cash_flow := Some 0 |};
        {| holdings := [("BND", Some 50)];
           advisory_fee := Some (2/100); asset_class_overrides := None;
           p_account_type := "Roth IRA"; annual_cash_flow := Some 0 |} ]
      (total_value_of
         (fst (combine_portfolios
                 [ {| holdings := [("SPY", Some 100); ("BND", Some 50)];
                      advisory_fee := Some (1/100); asset_class_overrides := None;
                      p_account_type := "Brokerage"; annual_cash_flow := Some 0 |};
                   {| holdings := [("BND", Some 50)];
                      advisory_fee := Some (2/100); asset_class_overrides := None;
                      p_account_type := "Roth IRA"; annual_cash_flow := Some 0 |} ])))
    = Some w /\
    1/100 <= w <= 2/100.
Proof.
  apply blended_fee_between.
  - repeat (constructor;
            [repeat (constructor; [eexists; split; [reflexivity | lra] |]); constructor |]).
    constructor.
  - repeat (constructor; [eexists; split; [reflexivity | lra] |]). constructor.
  - eexists. split; [reflexivity |]. lra.
Defined.

End BlendedFeeFacts.

(** ** The totals of the aggregate *)

Module AggregateTotals.
Import Performance PortfolioRouter.
Section WithFloat.
Context {num : Type} {F : PyFloat num}.
Local Open Scope string_scope.
Local Open Scope list_scope.
Local Open Scope py_scope.

(** The final value and the deferred liability of a projection are those of
    its last year. *)
Lemma final_is_last_year (allocation growth_rates : dict num)
  (fee initial cash tax : num) (acct : string) (n : nat) :
  let p := project_portfolio_with_taxes allocation growth_rates fee initial cash tax acct
             (Z.of_nat (S n)) in
  year_value (@yp_ending_value num) n p = final_portfolio_value p /\
  year_value (@yp_deferred_tax_liability num) n p = deferred_tax_liability p.
Proof.
  cbv zeta. unfold year_value.
  rewrite ProjectorFacts.project_ledger, Nat2Z.id.
  rewrite ProjectorFacts.ledger_nth by lia.
  unfold project_portfolio_with_taxes.
  cbn [final_portfolio_value deferred_tax_liability].
  rewrite ProjectorFacts.after_S. split; reflexivity.
Qed.

Lemma fold_sum_header_totals (ps : list (Projection num)) (hdr : Projection num) :
  let total (f : Projection num -> num) := fold_left fadd (map f ps) (f hdr) in
  let agg := fold_left sum_header ps hdr in
  final_portfolio_value agg = total (@final_portfolio_value num) /\
  total_fees agg = total (@total_fees num) /\
  total_taxes agg = total (@total_taxes num) /\
  total_cash_flows agg = total (@total_cash_flows num) /\
  deferred_tax_liability agg = total (@deferred_tax_liability num).
Proof.
  cbv zeta. revert hdr. induction ps as [| p ps IH]; intros hdr; [repeat split |].
  cbn [fold_left map]. destruct (IH (sum_header hdr p)) as (H1 & H2 & H3 & H4 & H5).
  rewrite H1, H2, H3, H4, H5. repeat split.
Qed.

Section Loop.
Variable Portfolio :
  dict num -> string -> num -> option (dict string) -> PortfolioAttrs num.
Variable growth_rates : dict num.
Variable tax_rate : num.

Let projections := projected Portfolio growth_rates tax_rate.

Lemma projections_end (ps : list (SinglePortfolioData num)) :
  Forall (fun p =>
            List.length (yearly_projections p) = 10%nat /\
            year_value (@yp_ending_value num) 9 p = final_portfolio_value p /\
            year_value (@yp_deferred_tax_liability num) 9 p = deferred_tax_liability p)
         (projections ps).
Proof.
  unfold projections, projected. apply Forall_map, Forall_forall. intros p _.
  unfold portfolio_projection. split.
  - now rewrite ProjectorFacts.project_length.
  - exact (final_is_last_year _ _ _ _ _ _ _ 9).
Qed.

(** X18. The totals of the aggregate are the sums of the totals of the
    projections, in the order of the portfolios, and they agree with its
    last row: the final_portfolio_value of the aggregate is the ending_value
    of its tenth row, and its deferred_tax_liability is that row's. *)
Theorem aggregate_totals_match_last_row (ps : list (SinglePortfolioData num)) :
  match projections ps with
  | [] => aggregate_projections_of Portfolio growth_rates tax_rate ps = Ok None
  | first :: rest =>
      let total (f : Projection num -> num) := fold_left fadd (map f rest) (f first) in
      exists agg rs r,
        aggregate_projections_of Portfolio growth_rates tax_rate ps = Ok (Some agg) /\
        dict_get "final_portfolio_value" agg =
          Some (AFloat (total (@final_portfolio_value num))) /\
        dict_get "total_fees" agg = Some (AFloat (total (@total_fees num))) /\
        dict_get "total_taxes" agg = Some (AFloat (total (@total_taxes num))) /\
        dict_get "total_cash_flows" agg = Some (AFloat (total (@total_cash_flows num))) /\
        dict_get "deferred_tax_liability" agg =
          Some (AFloat (total (@deferred_tax_liability num))) /\
        dict_get "yearly_projections" agg = Some (ARows rs) /\
        nth_error rs 9 = Some r /\
        dict_get "ending_value" r =
          Some (CFloat (total (@final_portfolio_value num))) /\
        dict_get "deferred_tax_liability" r =
          Some (CFloat (total (@deferred_tax_liability num)))
  end.
Proof.
  rewrite AggregatorFacts.loop_result. fold projections.
  pose proof (projections_end ps) as Hend.
  destruct (projections ps) as [| first rest]; [reflexivity |].
  inversion Hend as [| ? ? (Hlen & Hfin & Hdef) Hrest]; subst. cbv zeta.
  destruct (nth_error (yearly_projections first) 9) as [a |] eqn:Ha.
  2: { apply nth_error_None in Ha. lia. }
  destruct (@AggregatorFacts.fold_sum_ledgers_nth _ _ 9 rest)
    with (sums := yearly_projections first) (a := a) as (a' & Hnth & Hsum); [| exact Ha |].
  { eapply Forall_impl; [| exact Hrest]. cbv beta. intros p (Hp & _). lia. }
  assert (Hmap : map (year_value (@yp_ending_value num) 9) rest
                 = map (@final_portfolio_value num) rest /\
                 map (year_value (@yp_deferred_tax_liability num) 9) rest
                 = map (@deferred_tax_liability num) rest).
  { clear - Hrest. induction Hrest as [| p rest (_ & H1 & H2) _ (IH1 & IH2)];
      [split; reflexivity |].
    cbn [map]. rewrite H1, H2, IH1, IH2. split; reflexivity. }
  destruct Hmap as (Hmap1 & Hmap2).
  unfold year_value in Hfin, Hdef. rewrite Ha in Hfin, Hdef.
  destruct (fold_sum_header_totals rest first) as (H1 & H2 & H3 & H4 & H5).
  eexists. eexists. exists (first_row a').
  split; [reflexivity |].
  cbn [aggregate_dict aggregate_with dict_get String.eqb Ascii.eqb Bool.eqb].
  rewrite H1, H2, H3, H4, H5.
  do 6 (split; [reflexivity |]).
  split; [now apply map_nth_error |].
  cbn [first_row dict_get String.eqb Ascii.eqb Bool.eqb].
  rewrite (Hsum (@yp_ending_value num)), (Hsum (@yp_deferred_tax_liability num))
    by reflexivity.
  rewrite Hmap1, Hmap2, Hfin, Hdef. split; reflexivity.
Qed.

End Loop.
End WithFloat.
End AggregateTotals.

(** ** The holdings summed by symbol, and the expense ratios *)

Lemma dict_get_In {V : Type} (k : string) (v : V) (d : dict V) :
  dict_get k d = Some v -> In (k, v) d.
Proof.
  induction d as [| [k' v'] d IH]; cbn [dict_get]; [discriminate |].
  destruct (String.eqb k k') eqn:E.
  - apply String.eqb_eq in E. intros [= ->]. subst. now left.
  - intros H. right. now apply IH.
Qed.

Lemma dict_In_get {V : Type} (k : string) (v : V) (d : dict V) :
  NoDup (dict_keys d) -> In (k, v) d -> dict_get k d = Some v.
Proof.
  induction d as [| [k' v'] d IH]; intros Hnd Hin; [destruct Hin |].
  cbn [dict_keys map fst] in Hnd. inversion Hnd as [| ? ? Hk Hnd']; subst.
  cbn [dict_get]. destruct Hin as [[= -> ->] | Hin].
  - now rewrite String.eqb_refl.
  - destruct (String.eqb k k') eqn:E.
    + apply String.eqb_eq in E. subst k'. exfalso. apply Hk.
      apply (in_map fst) in Hin. exact Hin.
    + now apply IH.
Qed.

Lemma dict_set_Forall {V : Type} (P : string * V -> Prop) (k : string) (v : V) (d : dict V) :
  P (k, v) -> Forall P d -> Forall P (dict_set k v d).
Proof.
  intros Hkv. induction 1 as [| [k' v'] d Hx Hd IH]; cbn [dict_set].
  - constructor; [exact Hkv | constructor].
  - destruct (String.eqb k k') eqn:E.
    + apply String.eqb_eq in E. subst k'. constructor; assumption.
    + constructor; assumption.
Qed.

Module EtradeFacts.
Import EtradeRouter.
Section WithFloat.
Context {num : Type} {F : PyFloat num}.
Local Open Scope list_scope.
Local Open Scope py_scope.

(** The entry that starts as [h0] and to which the market values of [l] are
    added in order. *)
Let merged (h0 : Holding num) (l : list (Holding num)) : Holding num :=
  {| symbol := symbol h0;
     market_value := fold_left fadd (map (@market_value num) l) (market_value h0);
     security_type := security_type h0 |}.

Lemma aggregate_holding_NoDup (hs : list (Holding num)) (d : dict (Holding num)) :
  NoDup (dict_keys d) -> NoDup (dict_keys (fold_left aggregate_holding hs d)).
Proof.
  revert d. induction hs as [| h hs IH]; intros d H; [exact H |].
  cbn [fold_left]. apply IH. unfold aggregate_holding.
  destruct (dict_get (symbol h) d); now apply dict_set_NoDup.
Qed.

Lemma aggregate_holding_keys (hs : list (Holding num)) (d : dict (Holding num)) :
  Forall (fun kv => symbol (snd kv) = fst kv) d ->
  Forall (fun kv => symbol (snd kv) = fst kv) (fold_left aggregate_holding hs d).
Proof.
  revert d. induction hs as [| h hs IH]; intros d H; [exact H |].
  cbn [fold_left]. apply IH. unfold aggregate_holding.
  destruct (dict_get (symbol h) d) as [h0 |] eqn:E.
  - apply dict_set_Forall; [| exact H]. cbn [fst snd symbol].
    apply dict_get_In in E. rewrite Forall_forall in H. exact (H _ E).
  - apply dict_set_Forall; [reflexivity | exact H].
Qed.

Lemma aggregate_holding_get (s : string) (hs : list (Holding num)) (d : dict (Holding num)) :
  dict_get s (fold_left aggregate_holding hs d) =
  match dict_get s d with
  | Some h0 => Some (merged h0 (filter (fun x => String.eqb s (symbol x)) hs))
  | None =>
      match filter (fun x => String.eqb s (symbol x)) hs with
      | [] => None
      | h1 :: rest => Some (merged h1 rest)
      end
  end.
Proof.
  revert d. induction hs as [| h hs IH]; intros d.
  - cbn [fold_left filter]. destruct (dict_get s d) as [[a b c] |]; reflexivity.
  - cbn [fold_left filter]. rewrite IH. unfold aggregate_holding.
    destruct (String.eqb s (symbol h)) eqn:E.
    + apply String.eqb_eq in E. subst s.
      destruct (dict_get (symbol h) d) as [h0 |]; rewrite dict_get_set_same; reflexivity.
    + apply String.eqb_neq in E.
      destruct (dict_get (symbol h) d) as [h0 |];
        rewrite dict_get_set_other by exact E; reflexivity.
Qed.

(** X19. The holdings of the accounts are summed by symbol: the answer has
    one holding per symbol of the input, and that holding carries the sum of
    the market values of the symbol, added in the order of the input, and the
    security type of the first holding of the symbol. *)
Theorem holdings_summed_by_symbol (hs : list (Holding num)) :
  NoDup (map (@symbol num) (holdings_list hs)) /\
  (forall s, In s (map (@symbol num) (holdings_list hs)) <-> In s (map (@symbol num) hs)) /\
  (forall h, In h (holdings_list hs) ->
     exists h1 rest,
       filter (fun x => String.eqb (symbol h) (symbol x)) hs = h1 :: rest /\
       market_value h = fold_left fadd (map (@market_value num) rest) (market_value h1) /\
       security_type h = security_type h1).
Proof.
  unfold holdings_list.
  pose proof (@aggregate_holding_NoDup hs [] ltac:(constructor)) as Hnd.
  pose proof (@aggregate_holding_keys hs [] ltac:(constructor)) as Hkeys.
  pose proof (fun s => aggregate_holding_get s hs []) as Hget.
  cbn [dict_get] in Hget.
  set (d := fold_left aggregate_holding hs []) in *.
  assert (Hsym : map (@symbol num) (dict_values d) = dict_keys d).
  { unfold dict_values, dict_keys. rewrite map_map. apply map_ext_in.
    intros kv Hin. rewrite Forall_forall in Hkeys. now apply Hkeys. }
  rewrite Hsym. split; [exact Hnd |]. split.
  - intros s. split.
    + intros Hin. destruct (dict_get s d) as [h |] eqn:E.
      * rewrite Hget in E.
        destruct (filter (fun x => String.eqb s (symbol x)) hs) as [| h1 rest] eqn:Ef;
          [discriminate |].
        assert (Hh1 : In h1 (filter (fun x => String.eqb s (symbol x)) hs))
          by (rewrite Ef; now left).
        apply filter_In in Hh1 as (Hh1 & Heq). apply String.eqb_eq in Heq. subst s.
        now apply in_map.
      * apply dict_get_keys in E. contradiction.
    + intros Hin. apply in_map_iff in Hin as (h & <- & Hin).
      destruct (dict_get (symbol h) d) eqn:E.
      * destruct (in_dec string_dec (symbol h) (dict_keys d)) as [Hk | Hk]; [exact Hk |].
        apply dict_get_keys in Hk. congruence.
      * rewrite Hget in E.
        assert (Hf : In h (filter (fun x => String.eqb (symbol h) (symbol x)) hs)).
        { apply filter_In. split; [exact Hin | apply String.eqb_refl]. }
        destruct (filter _ hs); [destruct Hf | discriminate].
  - intros h Hin. unfold dict_values in Hin. apply in_map_iff in Hin as ([k h'] & Heq & Hin).
    cbn [snd] in Heq. subst h'.
    assert (Hk : symbol h = k).
    { rewrite Forall_forall in Hkeys. exact (Hkeys _ Hin). }
    apply (@dict_In_get _ k h d Hnd) in Hin. rewrite Hget in Hin. subst k.
    destruct (filter (fun x => String.eqb (symbol h) (symbol x)) hs) as [| h1 rest];
      [discriminate |].
    injection Hin as <-. exists h1, rest. repeat split.
Qed.

End WithFloat.
End EtradeFacts.

Module DataFacts.
Import Ideal Data.
Local Open Scope string_scope.
Local Open Scope list_scope.
Local Open Scope R_scope.

(** X20. The expense ratios have an entry for each ticker asked for and for
    no other; the entry is a number in [0, 1), and it is 0 for a ticker
    other than SPY and VOO.  The keys are the tickers, in their order, when
    no ticker is given twice. *)
Theorem expense_ratios_of_tickers (tickers : list string) :
  (forall t, In t tickers ->
     exists e, dict_get t (get_expense_ratios tickers) = Some (Some e) /\
               0 <= e < 1 /\
               (t <> "SPY" -> t <> "VOO" -> e = 0)) /\
  (forall t, ~ In t tickers -> dict_get t (get_expense_ratios tickers) = None) /\
  (NoDup tickers -> dict_keys (get_expense_ratios tickers) = tickers).
Proof.
  unfold get_expense_ratios. split; [| split].
  - intros t Hin. rewrite dict_of_keys_get.
    replace (existsb (String.eqb t) tickers) with true.
    + unfold dict_get_default, er. cbn [dict_get].
      destruct (String.eqb t "SPY") eqn:E1.
      * eexists. split; [reflexivity |]. split; [lra |].
        apply String.eqb_eq in E1. intros; contradiction.
      * destruct (String.eqb t "VOO") eqn:E2.
        -- eexists. split; [reflexivity |]. split; [lra |].
           apply String.eqb_eq in E2. intros; contradiction.
        -- exists 0. split; [reflexivity |]. split; [lra | reflexivity].
    + symmetry. apply existsb_exists. exists t. split; [exact Hin | apply String.eqb_refl].
  - intros t Hnin. rewrite dict_of_keys_get.
    replace (existsb (String.eqb t) tickers) with false; [reflexivity |].
    symmetry. apply not_true_is_false. intros H. apply existsb_exists in H.
    destruct H as (y & Hy & Heq). apply String.eqb_eq in Heq. now subst.
  - apply dict_of_keys_keys.
Qed.

End DataFacts.

(** ** The accounts of a projection *)

Module BalanceFacts.
Import Performance Ideal.
Local Open Scope string_scope.
Local Open Scope list_scope.
Local Open Scope R_scope.

(** One year on real numbers: what comes in and what goes out. *)
Lemma year_balance (w f c tau : R) (taxable deferred : bool) (s : Locals ideal)
  (year : Z) (V Fe Tx Cf G : R) :
  l_portfolio_value s = Some V ->
  l_total_fees s = Some Fe ->
  l_total_taxes s = Some Tx ->
  l_total_cash_flows s = Some Cf ->
  py_sum (map (@yp_growth ideal) (l_yearly_projections s)) = Some G ->
  let s' := loop_body (Some w) (Some f) (Some c) (Some tau) taxable deferred s year in
  exists g tx fe,
    l_portfolio_value s' = Some (V + c + g - tx - fe) /\
    l_total_fees s' = Some (Fe + fe) /\
    l_total_taxes s' = Some (Tx + tx) /\
    l_total_cash_flows s' = Some (Cf + c) /\
    py_sum (map (@yp_growth ideal) (l_yearly_projections s')) = Some (G + g).
Proof.
  intros HV HFe HTx HCf HG s'. subst s'. unfold loop_body.
  cbn [l_portfolio_value l_total_fees l_total_taxes l_total_cash_flows l_yearly_projections].
  rewrite HV, HFe, HTx, HCf, map_app. unfold py_sum in *. rewrite fold_left_app, HG.
  cbn [map fold_left yp_growth].
  destruct (taxable && (0 <? Some tau)%py).
  - exists ((V + c) * w), ((V + c) * w * tau),
           ((V + c + (V + c) * w - (V + c) * w * tau) * f).
    cbn [fadd fsub fmul ideal_float lift2]. repeat split.
  - exists ((V + c) * w), 0, ((V + c + (V + c) * w - 0) * f).
    cbn [fadd fsub fmul ideal_float lift2 of_int]. repeat split.
Qed.

Lemma loop_balance (w f c tau v0 : R) (taxable deferred : bool) (n : nat) :
  let s := run_loop (Some w) (Some f) (Some c) (Some tau) taxable deferred (Some v0)
             (Z.of_nat n) in
  exists V G Tx Fe,
    l_portfolio_value s = Some V /\
    py_sum (map (@yp_growth ideal) (l_yearly_projections s)) = Some G /\
    l_total_taxes s = Some Tx /\
    l_total_fees s = Some Fe /\
    l_total_cash_flows s = Some (INR n * c) /\
    V = v0 + INR n * c + G - Tx - Fe.
Proof.
  cbv zeta. induction n as [| n (V & G & Tx & Fe & HV & HG & HTx & HFe & HCf & Hbal)].
  - rewrite ProjectorFacts.run_loop_nonpos by (simpl; lia).
    exists v0, 0, 0, 0. cbn. repeat split; f_equal; ring.
  - rewrite ProjectorFacts.after_S.
    destruct (@year_balance w f c tau taxable deferred _ (Z.of_nat (S n))
                V Fe Tx (INR n * c) G HV HFe HTx HCf HG)
      as (g & tx & fe & HV' & HFe' & HTx' & HCf' & HG').
    exists (V + c + g - tx - fe), (G + g), (Tx + tx), (Fe + fe).
    split; [exact HV' |]. split; [exact HG' |]. split; [exact HTx' |].
    split; [exact HFe' |]. split.
    + rewrite HCf'. f_equal. rewrite S_INR. ring.
    + rewrite S_INR. rewrite Hbal. ring.
Qed.

(** X21. In exact arithmetic the accounts of a projection balance: on real
    inputs every total is a number, the cash flows add up to years times the
    annual cash flow, and the final value is the initial value plus the cash
    flows plus the growth of all the years, less the taxes and the fees. *)
Theorem projection_accounts_balance
  (allocation growth_rates : dict ideal) (w f v0 c tau : R) (acct : string) (years : Z) :
  blended_return allocation growth_rates = Some w ->
  let r := project_portfolio_with_taxes allocation growth_rates
             (Some f) (Some v0) (Some c) (Some tau) acct years in
  exists V G Tx Fe,
    final_portfolio_value r = Some V /\
    py_sum (map (@yp_growth ideal) (yearly_projections r)) = Some G /\
    total_taxes r = Some Tx /\
    total_fees r = Some Fe /\
    total_cash_flows r = Some (INR (Z.to_nat years) * c) /\
    V = v0 + INR (Z.to_nat years) * c + G - Tx - Fe.
Proof.
  intros Hw r. subst r. unfold project_portfolio_with_taxes.
  cbn [final_portfolio_value yearly_projections total_taxes total_fees total_cash_flows].
  rewrite Hw, ProjectorFacts.run_loop_of_nat.
  apply loop_balance.
Qed.

Lemma projection_accounts_balance_example :
  let r := project_portfolio_with_taxes [("Equity", Some 1)] [("Equity", Some (7/100))]
             (Some (1/100)) (Some 1000) (Some 100) (Some (25/100)) "Brokerage" 3 in
  exists V G Tx Fe,
    final_portfolio_value r = Some V /\
    py_sum (map (@yp_growth ideal) (yearly_projections r)) = Some G /\
    total_taxes r = Some Tx /\
    total_fees r = Some Fe /\
    total_cash_flows r = Some (INR (Z.to_nat 3) * 100) /\
    V = 1000 + INR (Z.to_nat 3) * 100 + G - Tx - Fe.
Proof.
  exact (@projection_accounts_balance
           [("Equity", Some 1)] [("Equity", Some (7/100))]
           (0 + 1 * (7/100)) (1/100) 1000 100 (25/100) "Brokerage" 3 eq_refl).
Defined.

End BalanceFacts.

(** ** Clean prices *)

Module CleanPricesFacts.
Import Performance Ideal.
Local Open Scope string_scope.
Local Open Scope list_scope.
Local Open Scope R_scope.

Lemma pct_row_real (prev cur : list ideal) :
  Forall (fun x => exists p, x = Some p /\ p <> 0) prev ->
  Forall (fun x => exists p, x = Some p /\ p <> 0) cur ->
  Forall (fun x => exists r, x = Some r) (pct_row prev cur).
Proof.
  intros Hprev. revert cur. unfold pct_row.
  induction Hprev as [| x prev Hx _ IH]; intros cur Hcur; [constructor |].
  destruct Hx as (p & -> & Hp).
  destruct Hcur as [| y cur (q & -> & _) Hcur]; [constructor |].
  cbn [combine map fst snd]. constructor; [| now apply IH].
  cbn [fdiv fsub ideal_float idiv lift2 of_int].
  destruct (Req_dec_T p 0); [contradiction | eexists; reflexivity].
Qed.

Lemma pct_rows_real (prev : list ideal) (rs : list (list ideal)) :
  Forall (fun x => exists p, x = Some p /\ p <> 0) prev ->
  Forall (Forall (fun x => exists p, x = Some p /\ p <> 0)) rs ->
  Forall (Forall (fun x => exists r, x = Some r)) (pct_change_from prev rs) /\
  List.length (pct_change_from prev rs) = List.length rs.
Proof.
  intros Hprev Hrs. revert prev Hprev.
  induction Hrs as [| cur rs Hcur _ IH]; intros prev Hprev.
  - split; [constructor | reflexivity].
  - cbn [pct_change_from List.length]. destruct (IH cur Hcur) as (Hall & Hlen).
    split; [| now rewrite Hlen].
    constructor; [now apply pct_row_real | exact Hall].
Qed.

Lemma real_rows_kept (rs : list (list ideal)) :
  Forall (Forall (fun x => exists r, x = Some r)) rs ->
  filter (fun r => negb (existsb fisnan r)) rs = rs.
Proof.
  induction 1 as [| r rs Hr _ IH]; [reflexivity |].
  cbn [filter]. replace (existsb fisnan r) with false; [cbn [negb]; now rewrite IH |].
  symmetry. clear - Hr. induction Hr as [| x r (v & ->) _ IHr]; [reflexivity |].
  cbn [existsb fisnan ideal_float iisnan orb]. exact IHr.
Qed.

Lemma weighted_row_real (r ws : list ideal) :
  Forall (fun x => exists v, x = Some v) r ->
  Forall (fun x => exists v, x = Some v) ws ->
  exists v, py_sum (map (fun xw => (fst xw * snd xw)%py) (combine r ws)) = Some v.
Proof.
  intros Hr Hws. unfold py_sum.
  assert (Hgen : forall acc, exists v,
             fold_left fadd (map (fun xw => (fst xw * snd xw)%py) (combine r ws)) (Some acc)
             = Some v).
  { revert ws Hws. induction Hr as [| x r Hx _ IH]; intros ws Hws acc;
      [exists acc; reflexivity |].
    destruct Hx as (a & ->).
    destruct Hws as [| y ws (b & ->) Hws]; [exists acc; reflexivity |].
    cbn [combine map fold_left fst snd]. exact (IH ws Hws (acc + a * b)). }
  exact (Hgen 0).
Qed.

(** X22. In exact arithmetic, on clean prices (at least one column, every
    price a number other than 0), with a numeric weight for every column, an
    advisory fee below 1 and no expense ratios, the call returns one return
    per row of prices after the first, and every return is a number. *)
Theorem clean_prices_give_one_return_per_period
  (cols : list string) (first : list ideal) (rest : list (list ideal))
  (weights : dict ideal) (a : R) :
  first <> [] ->
  Forall (Forall (fun x => exists p, x = Some p /\ p <> 0)) (first :: rest) ->
  (forall col, In col cols -> exists w, dict_get col weights = Some (Some w)) ->
  a < 1 ->
  exists rs,
    calculate_portfolio_returns {| columns := cols; rows := first :: rest |}
      weights (Some a) None = Ok (reals rs) /\
    List.length rs = List.length rest.
Proof.
  intros Hne Hrows Hw Ha. inversion Hrows as [| ? ? Hfirst Hrest]; subst.
  unfold calculate_portfolio_returns.
  change (columns (dropna (pct_change {| columns := cols; rows := first :: rest |})))
    with cols.
  rewrite ReturnsFacts.weights_array_ok.
  2: { intros col Hin. destruct (Hw col Hin) as (w & ->). discriminate. }
  cbn [bind]. unfold apply_fees, deduct.
  rewrite ReturnsFacts.daily_factor_below_1 by exact Ha. cbn [bind].
  unfold dot, dropna, pct_change. cbn [rows filter].
  replace (existsb fisnan (map (fun _ : ideal => fnan) first)) with true.
  2: { destruct first; [contradiction | reflexivity]. }
  cbn [negb]. destruct (pct_rows_real Hfirst Hrest) as (Hreal & Hlen).
  rewrite (real_rows_kept Hreal).
  assert (Hws : Forall (fun x : ideal => exists v, x = Some v)
                  (map (fun col => dict_get_default col (of_int 0) weights) cols)).
  { apply Forall_map, Forall_forall. intros col Hin.
    destruct (Hw col Hin) as (w & Hcol). unfold dict_get_default. rewrite Hcol. eauto. }
  rewrite <- Hlen. clear Hlen.
  set (rs := pct_change_from first rest) in *. clearbody rs.
  set (ws := map (fun col => dict_get_default col (of_int 0) weights) cols) in *.
  assert (Hout : exists out,
            map (fun r => ((1 + r) * Some (Rpower (1 - a) (1 / 252)) - 1)%py)
              (map (fun r => py_sum (map (fun xw => (fst xw * snd xw)%py) (combine r ws)))
                 rs) = reals out /\
            List.length out = List.length rs).
  { induction Hreal as [| r rs Hr _ (out & IH & IHlen)].
    - exists []. split; reflexivity.
    - destruct (weighted_row_real Hr Hws) as (v & Hv).
      exists ((1 + v) * Rpower (1 - a) (1 / 252) - 1 :: out). split.
      + cbn [map reals]. rewrite Hv. unfold reals in IH. rewrite IH. reflexivity.
      + cbn [List.length]. now rewrite IHlen. }
  destruct Hout as (out & Hout & Hlen). exists out. split; [| exact Hlen].
  f_equal. exact Hout.
Qed.

Lemma clean_prices_give_one_return_per_period_example :
  exists rs,
    calculate_portfolio_returns
      {| columns := ["SPY"; "BND"];
         rows := [Some 100; Some 50] :: [[Some 110; Some 49]; [Some 99; Some 51]] |}
      [("SPY", Some (6/10)); ("BND", Some (4/10))] (Some (1/100)) None = Ok (reals rs) /\
    List.length rs = List.length [[Some 110; Some 49]; [Some 99; Some 51]].
Proof.
  apply clean_prices_give_one_return_per_period.
  - discriminate.
  - repeat (constructor;
            [repeat (constructor; [eexists; split; [reflexivity | lra] |]); constructor |]).
    constructor.
  - intros col [<- | [<- | []]]; eexists; reflexivity.
  - lra.
Defined.

End CleanPricesFacts.
